(** * The mask editor of the AI image editor (components/ImageEditor.tsx)

    A shallow embedding of the mask-authoring code of [ImageEditor]: the
    resize rule, the 2D canvas operations the editor relies on, the stroke
    and shape tools, the flood fill, the auto-mask normalizer, the mask
    serializer of [handleSubmit] and the pointer handlers, together with
    the error handling of the remote services they call
    (services/geminiService.ts).

    Conventions.
    - JavaScript numbers are modelled by exact rationals ([Q]) where the
      source computes with fractions (pointer positions, opacity) and by
      [Z] where it computes with integers (pixel coordinates, array
      indices, channel values).  The resize ratio is computed as the
      source computes it, in binary64 floating point ([binary64]): there
      the rounding of the quotient decides the result.  The products
      [255 * brushOpacity] are exact in binary64 for every position of
      the opacity slider ([slider_products_exact]).
    - A [Uint8ClampedArray] (the [data] of an [ImageData]) is a [list Z];
      reads out of range give [None] (JavaScript's [undefined]) and writes
      out of range are ignored, as typed arrays do.
    - A canvas is its size, its RGBA bitmap (row-major, four entries per
      pixel, not premultiplied) and the drawing state of its one 2D
      context, which persists between calls to [getContext].  A browser
      that keeps its bitmap premultiplied returns the alpha bytes as
      they were stored, but may return a colour byte of a translucent
      pixel changed by its rounding; the model returns all four bytes
      as stored.  The alpha byte a browser chooses for a CSS colour
      [rgba(r, g, b, a)] with [a] strictly between 0 and 1 belongs to
      the browser, like the coverage of a shape ([Rasterizer]). *)

From Stdlib Require Import ZArith QArith Qround Qabs Qminmax Lia Lqa List Bool String Ascii.
From stdpp Require Import base list.

Local Open Scope Z_scope.

(** ** Numbers *)

(** [Math.round]: the nearest integer, halves going up. *)
Definition Math_round (q : Q) : Z := Qfloor (q + (1 # 2)).

(** [Math.floor]. *)
Definition Math_floor (q : Q) : Z := Qfloor q.

(** *** binary64

    The result of one floating-point operation: the exact result rounded
    to the nearest number with a significand of 53 bits, halves going to
    the even significand.  The exponent is not bounded here: quotients
    and products of image sides neither overflow nor reach the
    subnormal range. *)

(** [n / d] rounded to the nearest integer, halves to the even one. *)
Definition roundHalfEven (n d : Z) : Z :=
  let q := n / d in
  match 2 * (n mod d) ?= d with
  | Lt => q
  | Gt => q + 1
  | Eq => if Z.even q then q else q + 1
  end.

(** [n / d] divided by [2 ^ e], as a fraction of integers. *)
Definition scaled (n d : positive) (e : Z) : Z * Z :=
  (Z.pos n * 2 ^ Z.max 0 (- e), Z.pos d * 2 ^ Z.max 0 e).

(** The exponent [e] of the last bit of the significand of [n / d]:
    [2 ^ 52 <= (n / d) / 2 ^ e < 2 ^ 53]. *)
Definition exponent (n d : positive) : Z :=
  let e := Z.log2 (Z.pos n) - Z.log2 (Z.pos d) - 53 in
  let (N, D) := scaled n d e in
  if 2 ^ 53 * D <=? N then e + 1 else e.

Definition nearest (n d : positive) : Q :=
  let e := exponent n d in
  let (N, D) := scaled n d e in
  (roundHalfEven N D * 2 ^ Z.max 0 e) # Z.to_pos (2 ^ Z.max 0 (- e)).

Definition binary64 (x : Q) : Q :=
  match Qnum x with
  | Z0 => 0%Q
  | Z.pos n => nearest n (Qden x)
  | Z.neg n => (- nearest n (Qden x))%Q
  end.

(** ** resizeImage *)

Definition MAX_DIMENSION : Z := 1024.

Record Size := mkSize { sz_width : Z; sz_height : Z }.

(** The quotient and the product are floating-point operations; the
    sides of an image are integers below 2 ^ 32 and so are exact. *)
Definition resizeImage (width height : Z) : Size :=
  if (width >? MAX_DIMENSION) || (height >? MAX_DIMENSION) then
    if width >? height then
      mkSize MAX_DIMENSION
             (Math_round
                (binary64 (inject_Z height
                           * binary64 (inject_Z MAX_DIMENSION / inject_Z width))))
    else
      mkSize (Math_round
                (binary64 (inject_Z width
                           * binary64 (inject_Z MAX_DIMENSION / inject_Z height))))
             MAX_DIMENSION
  else mkSize width height.

(** ** Strings

    A JavaScript string is its sequence of UTF-16 code units. *)

Definition JSString := list Z.

Definition jsstr (s : string) : JSString :=
  List.map (fun c => Z.of_N (N_of_ascii c)) (list_ascii_of_string s).

(** ECMAScript WhiteSpace and LineTerminator code points, the ones
    [String.prototype.trim] strips. *)
Definition isWhiteSpace (c : Z) : bool :=
  (c =? 9) || (c =? 10) || (c =? 11) || (c =? 12) || (c =? 13) || (c =? 32)
  || (c =? 160) || (c =? 5760) || ((8192 <=? c) && (c <=? 8202))
  || (c =? 8232) || (c =? 8233) || (c =? 8239) || (c =? 8287)
  || (c =? 12288) || (c =? 65279).

Fixpoint trimStart (s : JSString) : JSString :=
  match s with
  | c :: s' => if isWhiteSpace c then trimStart s' else s
  | [] => []
  end.

Definition trim (s : JSString) : JSString :=
  rev (trimStart (rev (trimStart s))).

(** Truthiness of a string: the empty string is the only falsy one. *)
Definition truthyStr (s : JSString) : bool :=
  match s with [] => false | _ => true end.

(** ** Pixels and compositing *)

Record Pixel := mkPixel { pr : Z; pg : Z; pb : Z; pa : Z }.

Definition transparentBlack : Pixel := mkPixel 0 0 0 0.

(** Conversion of an integer to a byte of a [Uint8ClampedArray]. *)
Definition clamp8 (v : Z) : Z := Z.max 0 (Z.min 255 v).

(** Conversion of a fraction to a byte of a [Uint8ClampedArray]
    (ToUint8Clamp): clamp, then round to nearest, halves to even. *)
Definition toUint8Clamp (q : Q) : Z :=
  if Qle_bool q 0 then 0
  else if Qle_bool 255 q then 255
  else
    let f := Qfloor q in
    match (q - inject_Z f ?= 1 # 2)%Q with
    | Lt => f
    | Gt => f + 1
    | Eq => if Z.even f then f else f + 1
    end.

(** Division by 255 rounded to the nearest integer. *)
Definition div255 (n : Z) : Z := (n + 127) / 255.

Inductive CompositeOp := SourceOver | DestinationOut.

(** Porter-Duff compositing of one source pixel onto one destination
    pixel, channels and alpha on the scale 0..255.  A fully transparent
    result is transparent black. *)
Definition composite (op : CompositeOp) (src dst : Pixel) : Pixel :=
  match op with
  | SourceOver =>
      let ao := clamp8 (pa src + div255 (pa dst * (255 - pa src))) in
      if ao =? 0 then transparentBlack
      else
        let ch cs cd :=
          clamp8 ((cs * pa src * 255 + cd * pa dst * (255 - pa src)
                   + (255 * ao) / 2) / (255 * ao)) in
        mkPixel (ch (pr src) (pr dst)) (ch (pg src) (pg dst))
                (ch (pb src) (pb dst)) ao
  | DestinationOut =>
      let ao := clamp8 (div255 (pa dst * (255 - pa src))) in
      if ao =? 0 then transparentBlack
      else mkPixel (pr dst) (pg dst) (pb dst) ao
  end.

(** ** Geometry and rasterization *)

Record Point := mkPoint { pt_x : Q; pt_y : Q }.

(** What the browser's rasterizer decides: how much of the pixel
    [(x, y)] a shape covers, from 0 (nothing) to 255 (all of it), and
    which byte it paints with for the alpha [a] of a CSS colour
    [rgba(r, g, b, a)] when [0 < a < 1].  Strokes have round caps and
    joins ([lineCap], [lineJoin] are always ['round'] in the editor). *)
Record Rasterizer := mkRasterizer {
  strokeCoverage : Q -> Point -> Point -> Z -> Z -> Z;
  rectCoverage : Q -> Q -> Q -> Q -> Z -> Z -> Z;
  ellipseCoverage : Q -> Q -> Q -> Q -> Z -> Z -> Z;
  styleAlpha : Q -> Z
}.

(** ** Canvases *)

Record Context2D := mkContext2D {
  globalCompositeOperation : CompositeOp;
  lineWidth : Q;
  strokeStyle : Pixel;
  fillStyle : Pixel
}.

Definition defaultContext : Context2D :=
  mkContext2D SourceOver 1 (mkPixel 0 0 0 255) (mkPixel 0 0 0 255).

Record Canvas := mkCanvas {
  cv_width : Z;
  cv_height : Z;
  cv_bitmap : list Z;
  cv_ctx : Context2D
}.

(** [document.createElement('canvas')] followed by the assignment of
    [width] and [height]: a transparent bitmap and a fresh context. *)
Definition createCanvas (w h : Z) : Canvas :=
  mkCanvas w h (replicate (Z.to_nat (4 * w * h)) 0) defaultContext.

Definition withBitmap (c : Canvas) (data : list Z) : Canvas :=
  mkCanvas (cv_width c) (cv_height c) data (cv_ctx c).

Definition withCtx (c : Canvas) (k : Context2D) : Canvas :=
  mkCanvas (cv_width c) (cv_height c) (cv_bitmap c) k.

(** [ctx.getImageData(0, 0, canvas.width, canvas.height).data] and
    [ctx.putImageData(imageData, 0, 0)] for an image of the canvas's
    size: a copy of the whole bitmap, out and in.  Neither looks at
    [globalCompositeOperation]. *)
Definition getImageData (c : Canvas) : list Z := cv_bitmap c.
Definition putImageData (c : Canvas) (data : list Z) : Canvas := withBitmap c data.

(** [ctx.clearRect(0, 0, canvas.width, canvas.height)]. *)
Definition clearRect (c : Canvas) : Canvas :=
  withBitmap c (List.map (fun _ => 0) (cv_bitmap c)).

(** Painting a colour through a coverage mask with the context's
    compositing operation; pixels the shape does not touch are left
    alone.  [i] is the index of the first pixel of [data]. *)
Fixpoint paint (op : CompositeOp) (color : Pixel) (cov : Z -> Z -> Z)
         (w : Z) (i : Z) (data : list Z) : list Z :=
  match data with
  | r :: g :: b :: a :: rest =>
      let c := cov (i mod w) (i / w) in
      let p :=
        if c <=? 0 then mkPixel r g b a
        else composite op
               (mkPixel (pr color) (pg color) (pb color) (div255 (pa color * c)))
               (mkPixel r g b a) in
      pr p :: pg p :: pb p :: pa p :: paint op color cov w (i + 1) rest
  | _ => data
  end.

(** [ctx.drawImage(source, 0, 0)] for a source of the destination's
    size: every pixel of the source is composited onto the pixel under
    it. *)
Fixpoint drawImageData (op : CompositeOp) (src dst : list Z) {struct dst}
  : list Z :=
  match dst, src with
  | r :: g :: b :: a :: drest, sr :: sg :: sb :: sa :: srest =>
      let p := composite op (mkPixel sr sg sb sa) (mkPixel r g b a) in
      pr p :: pg p :: pb p :: pa p :: drawImageData op srest drest
  | _, _ => dst
  end.

Definition drawImage (dst : Canvas) (src : Canvas) : Canvas :=
  withBitmap dst
    (drawImageData (globalCompositeOperation (cv_ctx dst))
                   (cv_bitmap src) (cv_bitmap dst)).

(** ** The editor's state

    The [useState] values and the [useRef] cells of [ImageEditor].  The
    two canvas references are [None] while the element is not mounted. *)

Inductive Tool := brush | eraser | rectangle | circle | fill.

Record EditorState := mkEditorState {
  prompt : JSString;
  negativePrompt : JSString;
  style : JSString;
  editedImage : option JSString;
  isLoading : bool;
  error : option JSString;
  brushSize : Z;
  brushOpacity : Q;
  activeTool : Tool;
  isMasking : bool;
  upscaleFactor : Z;
  isUpscaling : bool;
  upscaledImage : option JSString;
  imageCanvasRef : option Canvas;
  drawingCanvasRef : option Canvas;
  isDrawing : bool;
  lastPoint : option Point;
  shapeStartPoint : option Point;
  canvasSnapshot : option (list Z)
}.

(** The state setters, and assignments to the [current] of a ref. *)

Definition setEditedImage (v : option JSString) (s : EditorState) : EditorState :=
  mkEditorState (prompt s) (negativePrompt s) (style s) v (isLoading s)
    (error s) (brushSize s) (brushOpacity s) (activeTool s) (isMasking s)
    (upscaleFactor s) (isUpscaling s) (upscaledImage s) (imageCanvasRef s)
    (drawingCanvasRef s) (isDrawing s) (lastPoint s) (shapeStartPoint s)
    (canvasSnapshot s).

Definition setIsLoading (v : bool) (s : EditorState) : EditorState :=
  mkEditorState (prompt s) (negativePrompt s) (style s) (editedImage s) v
    (error s) (brushSize s) (brushOpacity s) (activeTool s) (isMasking s)
    (upscaleFactor s) (isUpscaling s) (upscaledImage s) (imageCanvasRef s)
    (drawingCanvasRef s) (isDrawing s) (lastPoint s) (shapeStartPoint s)
    (canvasSnapshot s).

Definition setError (v : option JSString) (s : EditorState) : EditorState :=
  mkEditorState (prompt s) (negativePrompt s) (style s) (editedImage s)
    (isLoading s) v (brushSize s) (brushOpacity s) (activeTool s) (isMasking
    s) (upscaleFactor s) (isUpscaling s) (upscaledImage s) (imageCanvasRef
    s) (drawingCanvasRef s) (isDrawing s) (lastPoint s) (shapeStartPoint s)
    (canvasSnapshot s).

Definition setIsMasking (v : bool) (s : EditorState) : EditorState :=
  mkEditorState (prompt s) (negativePrompt s) (style s) (editedImage s)
    (isLoading s) (error s) (brushSize s) (brushOpacity s) (activeTool s) v
    (upscaleFactor s) (isUpscaling s) (upscaledImage s) (imageCanvasRef s)
    (drawingCanvasRef s) (isDrawing s) (lastPoint s) (shapeStartPoint s)
    (canvasSnapshot s).

Definition setIsUpscaling (v : bool) (s : EditorState) : EditorState :=
  mkEditorState (prompt s) (negativePrompt s) (style s) (editedImage s)
    (isLoading s) (error s) (brushSize s) (brushOpacity s) (activeTool s)
    (isMasking s) (upscaleFactor s) v (upscaledImage s) (imageCanvasRef s)
    (drawingCanvasRef s) (isDrawing s) (lastPoint s) (shapeStartPoint s)
    (canvasSnapshot s).

Definition setUpscaledImage (v : option JSString) (s : EditorState) : EditorState :=
  mkEditorState (prompt s) (negativePrompt s) (style s) (editedImage s)
    (isLoading s) (error s) (brushSize s) (brushOpacity s) (activeTool s)
    (isMasking s) (upscaleFactor s) (isUpscaling s) v (imageCanvasRef s)
    (drawingCanvasRef s) (isDrawing s) (lastPoint s) (shapeStartPoint s)
    (canvasSnapshot s).

Definition setBrushOpacity (v : Q) (s : EditorState) : EditorState :=
  mkEditorState (prompt s) (negativePrompt s) (style s) (editedImage s)
    (isLoading s) (error s) (brushSize s) v (activeTool s) (isMasking s)
    (upscaleFactor s) (isUpscaling s) (upscaledImage s) (imageCanvasRef s)
    (drawingCanvasRef s) (isDrawing s) (lastPoint s) (shapeStartPoint s)
    (canvasSnapshot s).

Definition setActiveTool (v : Tool) (s : EditorState) : EditorState :=
  mkEditorState (prompt s) (negativePrompt s) (style s) (editedImage s)
    (isLoading s) (error s) (brushSize s) (brushOpacity s) v (isMasking s)
    (upscaleFactor s) (isUpscaling s) (upscaledImage s) (imageCanvasRef s)
    (drawingCanvasRef s) (isDrawing s) (lastPoint s) (shapeStartPoint s)
    (canvasSnapshot s).

Definition setDrawingCanvas (v : option Canvas) (s : EditorState) : EditorState :=
  mkEditorState (prompt s) (negativePrompt s) (style s) (editedImage s)
    (isLoading s) (error s) (brushSize s) (brushOpacity s) (activeTool s)
    (isMasking s) (upscaleFactor s) (isUpscaling s) (upscaledImage s)
    (imageCanvasRef s) v (isDrawing s) (lastPoint s) (shapeStartPoint s)
    (canvasSnapshot s).

Definition setIsDrawing (v : bool) (s : EditorState) : EditorState :=
  mkEditorState (prompt s) (negativePrompt s) (style s) (editedImage s)
    (isLoading s) (error s) (brushSize s) (brushOpacity s) (activeTool s)
    (isMasking s) (upscaleFactor s) (isUpscaling s) (upscaledImage s)
    (imageCanvasRef s) (drawingCanvasRef s) v (lastPoint s) (shapeStartPoint
    s) (canvasSnapshot s).

Definition setLastPoint (v : option Point) (s : EditorState) : EditorState :=
  mkEditorState (prompt s) (negativePrompt s) (style s) (editedImage s)
    (isLoading s) (error s) (brushSize s) (brushOpacity s) (activeTool s)
    (isMasking s) (upscaleFactor s) (isUpscaling s) (upscaledImage s)
    (imageCanvasRef s) (drawingCanvasRef s) (isDrawing s) v (shapeStartPoint
    s) (canvasSnapshot s).

Definition setShapeStartPoint (v : option Point) (s : EditorState) : EditorState :=
  mkEditorState (prompt s) (negativePrompt s) (style s) (editedImage s)
    (isLoading s) (error s) (brushSize s) (brushOpacity s) (activeTool s)
    (isMasking s) (upscaleFactor s) (isUpscaling s) (upscaledImage s)
    (imageCanvasRef s) (drawingCanvasRef s) (isDrawing s) (lastPoint s) v
    (canvasSnapshot s).

Definition setCanvasSnapshot (v : option (list Z)) (s : EditorState) : EditorState :=
  mkEditorState (prompt s) (negativePrompt s) (style s) (editedImage s)
    (isLoading s) (error s) (brushSize s) (brushOpacity s) (activeTool s)
    (isMasking s) (upscaleFactor s) (isUpscaling s) (upscaledImage s)
    (imageCanvasRef s) (drawingCanvasRef s) (isDrawing s) (lastPoint s)
    (shapeStartPoint s) v.

(** The accent colour at the configured opacity: the CSS colour
    [rgba(192, 132, 252, opacity)] as the canvas paints it.  The source
    only writes the string; CSS clamps the alpha to the range from 0 to
    1, where 1 is opaque and 0 transparent, and in between the byte is
    the browser's. *)
Definition accent (rz : Rasterizer) (opacity : Q) : Pixel :=
  mkPixel 192 132 252
    (if Qle_bool 1 opacity then 255
     else if Qle_bool opacity 0 then 0
     else clamp8 (styleAlpha rz opacity)).

(** ** Strokes and shapes *)

Section Drawing.

Variable rz : Rasterizer.

(** [ctx.stroke()] of the path [moveTo(start); lineTo(end)]. *)
Definition stroke (c : Canvas) (start finish : Point) : Canvas :=
  let k := cv_ctx c in
  withBitmap c
    (paint (globalCompositeOperation k) (strokeStyle k)
           (strokeCoverage rz (lineWidth k) start finish)
           (cv_width c) 0 (cv_bitmap c)).

(** [ctx.fillRect(x, y, w, h)]. *)
Definition fillRect (c : Canvas) (x y w h : Q) : Canvas :=
  let k := cv_ctx c in
  withBitmap c
    (paint (globalCompositeOperation k) (fillStyle k)
           (rectCoverage rz x y w h) (cv_width c) 0 (cv_bitmap c)).

(** [ctx.fill()] of the path [ellipse(cx, cy, rx, ry, 0, 0, 2 * Math.PI)]. *)
Definition fillEllipse (c : Canvas) (cx cy rx ry : Q) : Canvas :=
  let k := cv_ctx c in
  withBitmap c
    (paint (globalCompositeOperation k) (fillStyle k)
           (ellipseCoverage rz cx cy rx ry) (cv_width c) 0 (cv_bitmap c)).

Definition drawLine (s : EditorState) (start finish : Point) : EditorState :=
  match drawingCanvasRef s with
  | None => s
  | Some c =>
      let op := match activeTool s with
                | eraser => DestinationOut
                | _ => SourceOver
                end in
      let k := mkContext2D op (inject_Z (brushSize s))
                           (accent rz (brushOpacity s)) (fillStyle (cv_ctx c)) in
      setDrawingCanvas (Some (stroke (withCtx c k) start finish)) s
  end.

Definition drawShape (s : EditorState) (start finish : Point) : EditorState :=
  match drawingCanvasRef s with
  | None => s
  | Some c =>
      let k := mkContext2D SourceOver 2
                           (accent rz (brushOpacity s)) (accent rz (brushOpacity s)) in
      let c1 := withCtx c k in
      let width := (pt_x finish - pt_x start)%Q in
      let height := (pt_y finish - pt_y start)%Q in
      match activeTool s with
      | rectangle =>
          setDrawingCanvas
            (Some (fillRect c1 (pt_x start) (pt_y start) width height)) s
      | circle =>
          let radiusX := (Qabs width / 2)%Q in
          let radiusY := (Qabs height / 2)%Q in
          let centerX := (pt_x start + width / 2)%Q in
          let centerY := (pt_y start + height / 2)%Q in
          setDrawingCanvas
            (Some (fillEllipse c1 centerX centerY radiusX radiusY)) s
      | _ => setDrawingCanvas (Some c1) s
      end
  end.

End Drawing.

(** ** Flood fill *)

(** Reading a typed array: [undefined] out of range. *)
Definition getIdx (data : list Z) (i : Z) : option Z :=
  if i <? 0 then None else data !! Z.to_nat i.

(** Writing a typed array: ignored out of range, and the value stored
    as a byte.  (The [Uint8Array] [visited] only ever receives 1.) *)
Definition setIdx (data : list Z) (i : Z) (v : Z) : list Z :=
  if i <? 0 then data else <[Z.to_nat i := clamp8 v]> data.

(** [v > 0] for a value that may be [undefined]. *)
Definition gt0 (v : option Z) : bool :=
  match v with Some n => n >? 0 | None => false end.

(** Truthiness of a value that may be [undefined]. *)
Definition truthy (v : option Z) : bool :=
  match v with Some n => negb (n =? 0) | None => false end.

(** [Math.abs(c - start) <= tolerance]; false when either side is
    [undefined] (the difference is NaN). *)
Definition withinTolerance (c start : option Z) (tolerance : Z) : bool :=
  match c, start with
  | Some a, Some b => Z.abs (a - b) <=? tolerance
  | _, _ => false
  end.

Definition tolerance : Z := 30.

Record FillParams := mkFillParams {
  fp_width : Z;
  fp_height : Z;
  fp_image : list Z;
  fp_startR : option Z;
  fp_startG : option Z;
  fp_startB : option Z;
  fp_fillColor : Pixel
}.

(** The [while (pixelStack.length > 0)] loop.  The stack is a list whose
    head is the top, so the four pushes of the source appear in reverse.
    Next to the drawing data the loop returns [seeds], the pixels whose
    neighbours it pushed, in the order it met them.  [None] when [fuel]
    iterations were not enough. *)
Fixpoint floodFillLoop (fuel : nat) (P : FillParams) (pixelStack : list (Z * Z))
         (visited : list Z) (data : list Z) (seeds : list (Z * Z))
  : option (list Z * list (Z * Z)) :=
  match pixelStack with
  | [] => Some (data, seeds)
  | (x, y) :: rest =>
      match fuel with
      | O => None
      | S fuel' =>
          if (x <? 0) || (x >=? fp_width P) || (y <? 0) || (y >=? fp_height P)
          then floodFillLoop fuel' P rest visited data seeds
          else
            let visitedIdx := y * fp_width P + x in
            if truthy (getIdx visited visitedIdx)
            then floodFillLoop fuel' P rest visited data seeds
            else
              let visited' := setIdx visited visitedIdx 1 in
              let currentIdx := visitedIdx * 4 in
              if gt0 (getIdx data (currentIdx + 3))
              then floodFillLoop fuel' P rest visited' data seeds
              else
                let r := getIdx (fp_image P) currentIdx in
                let g := getIdx (fp_image P) (currentIdx + 1) in
                let b := getIdx (fp_image P) (currentIdx + 2) in
                if withinTolerance r (fp_startR P) tolerance
                   && withinTolerance g (fp_startG P) tolerance
                   && withinTolerance b (fp_startB P) tolerance
                then
                  let c := fp_fillColor P in
                  let data1 := setIdx data currentIdx (pr c) in
                  let data2 := setIdx data1 (currentIdx + 1) (pg c) in
                  let data3 := setIdx data2 (currentIdx + 2) (pb c) in
                  let data4 := setIdx data3 (currentIdx + 3) (pa c) in
                  floodFillLoop fuel' P
                    ((x, y - 1) :: (x, y + 1) :: (x - 1, y) :: (x + 1, y) :: rest)
                    visited' data4 (seeds ++ [(x, y)])
                else floodFillLoop fuel' P rest visited' data seeds
      end
  end.

(** The set-up of [floodFill] for an image canvas and a drawing canvas,
    and the number of iterations that always suffices: every pixel is
    marked visited at most once, and only then are four entries pushed.
    The two canvases have the same size ([drawImageOnCanvas] assigns
    both from one [resizeImage] result), so reading the drawing canvas
    with the image canvas's [width] and [height] reads all of it. *)
Definition fillParams (imageCanvas : Canvas) (brushOpacity : Q) (startX startY : Z)
  : FillParams :=
  let width := cv_width imageCanvas in
  let imageData := getImageData imageCanvas in
  let startIdx := (startY * width + startX) * 4 in
  mkFillParams width (cv_height imageCanvas) imageData
    (getIdx imageData startIdx) (getIdx imageData (startIdx + 1))
    (getIdx imageData (startIdx + 2))
    (mkPixel 192 132 252 (Math_round (255 * brushOpacity))).

Definition fillFuel (P : FillParams) : nat :=
  S (4 * Z.to_nat (fp_width P * fp_height P)).

Definition floodFillRun (imageCanvas drawingCanvas : Canvas) (brushOpacity : Q)
           (startPos : Point) : option (list Z * list (Z * Z)) :=
  let startX := Math_floor (pt_x startPos) in
  let startY := Math_floor (pt_y startPos) in
  let P := fillParams imageCanvas brushOpacity startX startY in
  let visited := replicate (Z.to_nat (fp_width P * fp_height P)) 0 in
  floodFillLoop (fillFuel P) P [(startX, startY)] visited
                (getImageData drawingCanvas) [].

(** [floodFill].  [getImageData] throws on an empty rectangle, which
    ends the handler before anything is written. *)
Definition floodFill (s : EditorState) (startPos : Point) : EditorState :=
  match imageCanvasRef s, drawingCanvasRef s with
  | Some imageCanvas, Some drawingCanvas =>
      if (cv_width imageCanvas <=? 0) || (cv_height imageCanvas <=? 0) then s
      else
        match floodFillRun imageCanvas drawingCanvas (brushOpacity s) startPos with
        | Some (data, _) =>
            setDrawingCanvas (Some (putImageData drawingCanvas data)) s
        | None => s
        end
  | _, _ => s
  end.

(** ** Pointer handlers

    A handler receives the position [getMousePos] computed from the
    event, already in buffer coordinates. *)

Section Handlers.

Variable rz : Rasterizer.

Definition handleMouseDown (s : EditorState) (pos : Point) : EditorState :=
  match activeTool s with
  | fill => floodFill s pos
  | brush | eraser => setLastPoint (Some pos) (setIsDrawing true s)
  | rectangle | circle =>
      let s1 := setShapeStartPoint (Some pos) (setIsDrawing true s) in
      match drawingCanvasRef s1 with
      | Some c => setCanvasSnapshot (Some (getImageData c)) s1
      | None => s1
      end
  end.

Definition handleMouseMove (s : EditorState) (currentPos : Point) : EditorState :=
  if negb (isDrawing s) then s
  else
    match activeTool s with
    | brush | eraser =>
        let s1 := match lastPoint s with
                  | Some p => drawLine rz s p currentPos
                  | None => s
                  end in
        setLastPoint (Some currentPos) s1
    | rectangle | circle =>
        match shapeStartPoint s, drawingCanvasRef s, canvasSnapshot s with
        | Some p, Some c, Some snapshot =>
            drawShape rz (setDrawingCanvas (Some (putImageData c snapshot)) s)
                      p currentPos
        | _, _, _ => s
        end
    | fill => s
    end.

Definition handleMouseUp (s : EditorState) : EditorState :=
  setCanvasSnapshot None
    (setShapeStartPoint None (setLastPoint None (setIsDrawing false s))).

End Handlers.

Definition clearDrawing (s : EditorState) : EditorState :=
  match drawingCanvasRef s with
  | Some canvas => setDrawingCanvas (Some (clearRect canvas)) s
  | None => s
  end.

(** ** The remote services

    What lies outside the editor is an environment: the bytes of the
    uploaded file, the provider behind [ai.models.generateContent], the
    browser's image decoder, and whether a created canvas hands out a 2D
    context.  A value thrown or rejected is an [Error] with a message or
    something else. *)

Inductive JSError := ErrorObj (message : JSString) | NonError.

(** The arguments of [editImageWithMask].  The mask travels as a PNG
    data URL; it is kept here as the pixels the PNG encodes. *)
Record EditArgs := mkEditArgs {
  ea_prompt : JSString;
  ea_negativePrompt : JSString;
  ea_style : JSString;
  ea_originalImageBase64 : JSString;
  ea_originalMimeType : JSString;
  ea_maskWidth : Z;
  ea_maskHeight : Z;
  ea_maskPixels : list Z
}.

(** The outcome of one [generateContent] call: anything thrown inside
    the service's [try] block before the parts are scanned, or the
    [inlineData.data] of each part of the first candidate ([None] for a
    part without inline data). *)
Inductive ProviderOutcome :=
| Rejects (e : JSError)
| Responds (parts : list (option JSString)).

(** A decoded image, known by the pixels that drawing it scaled to
    [w] by [h] leaves on a transparent canvas of that size. *)
Definition Image := Z -> Z -> list Z.

Record Env := mkEnv {
  fileToBase64 : JSError + JSString;
  originalImageType : JSString;
  provideEdit : EditArgs -> ProviderOutcome;
  provideMask : JSString -> JSString -> ProviderOutcome;
  loadImage : JSString -> option Image;
  contextAvailable : bool
}.

Inductive RemoteCall :=
| CallEdit (args : EditArgs)
| CallMask (imageBase64 mimeType : JSString).

(** The first part that carries inline data. *)
Fixpoint firstInlineData (parts : list (option JSString)) : option JSString :=
  match parts with
  | Some d :: _ => Some d
  | None :: rest => firstInlineData rest
  | [] => None
  end.

(** The [catch] blocks of the services: an [Error] is wrapped, anything
    else becomes a fixed message. *)
Definition wrapError (prefix unknown : string) (e : JSError) : JSError :=
  match e with
  | ErrorObj m => ErrorObj (jsstr prefix ++ m)
  | NonError => ErrorObj (jsstr unknown)
  end.

Definition editImageWithMask (env : Env) (args : EditArgs) : JSError + JSString :=
  let caught := wrapError "Failed to edit image: "
                          "An unknown error occurred while editing the image." in
  match provideEdit env args with
  | Rejects e => inl (caught e)
  | Responds parts =>
      match firstInlineData parts with
      | Some d => inr d
      | None => inl (caught (ErrorObj (jsstr "No image data found in the API response.")))
      end
  end.

Definition generateBackgroundMask (env : Env) (imageBase64 mimeType : JSString)
  : JSError + JSString :=
  let caught := wrapError "Failed to generate mask: "
                          "An unknown error occurred while generating the mask." in
  match provideMask env imageBase64 mimeType with
  | Rejects e => inl (caught e)
  | Responds parts =>
      match firstInlineData parts with
      | Some d => inr d
      | None => inl (caught (ErrorObj (jsstr "No mask data found in the API response.")))
      end
  end.

(** [err instanceof Error ? err.message : fallback]. *)
Definition messageOr (fallback : string) (e : JSError) : JSString :=
  match e with
  | ErrorObj m => m
  | NonError => jsstr fallback
  end.

(** ** The auto-mask normalizer *)

(** The loop over the pixels of the segmentation image.  The alpha of a
    background pixel is the byte that storing [255 * brushOpacity] in
    the array leaves there. *)
Fixpoint normalizeMask (brushOpacity : Q) (data : list Z) : list Z :=
  match data with
  | r :: g :: b :: a :: rest =>
      let isWhite := (r >? 200) && (g >? 200) && (b >? 200) in
      (if isWhite
       then 192 :: 132 :: 252 :: toUint8Clamp (255 * brushOpacity) :: nil
       else r :: g :: b :: 0 :: nil)
      ++ normalizeMask brushOpacity rest
  | _ => data
  end.

(** [handleAutoMask], with the calls it made to the provider.
    [loadImage env url] is [None] when the image at the data URL fails
    to load ([onerror]).  The drawing canvas is taken to have pixels:
    [getImageData] does not accept an empty rectangle. *)
Definition handleAutoMask (env : Env) (s0 : EditorState)
  : EditorState * list RemoteCall :=
  let s := setError None (setIsMasking true s0) in
  let failed (m : JSString) (s : EditorState) :=
    setIsMasking false (setError (Some m) s) in
  match fileToBase64 env with
  | inl e => (failed (messageOr "Failed to generate background mask." e) s, [])
  | inr originalImageBase64 =>
      let calls := [CallMask originalImageBase64 (originalImageType env)] in
      match generateBackgroundMask env originalImageBase64 (originalImageType env) with
      | inl e => (failed (messageOr "Failed to generate background mask." e) s, calls)
      | inr maskBase64 =>
          match loadImage env (jsstr "data:image/png;base64," ++ maskBase64) with
          | None => (failed (jsstr "Failed to load the generated mask.") s, calls)
          | Some maskImage =>
              match drawingCanvasRef s with
              | None => (failed (jsstr "Drawing canvas not available.") s, calls)
              | Some canvas =>
                  if negb (contextAvailable env)
                  then (failed (jsstr "Could not create temp canvas context.") s, calls)
                  else
                    let tempCanvas := createCanvas (cv_width canvas) (cv_height canvas) in
                    let tempCanvas :=
                      withBitmap tempCanvas
                        (maskImage (cv_width tempCanvas) (cv_height tempCanvas)) in
                    let imageData := getImageData tempCanvas in
                    let data := normalizeMask (brushOpacity s) imageData in
                    let tempCanvas := putImageData tempCanvas data in
                    let s1 := clearDrawing s in
                    let s2 :=
                      match drawingCanvasRef s1 with
                      | Some ctxCanvas =>
                          setDrawingCanvas (Some (drawImage ctxCanvas tempCanvas)) s1
                      | None => s1
                      end in
                    (setIsMasking false s2, calls)
              end
          end
      end
  end.

(** ** Submission *)

(** The loop of [handleSubmit] over the pixels of the mask canvas. *)
Fixpoint binarize (data : list Z) : list Z :=
  match data with
  | r :: g :: b :: a :: rest =>
      (if a >? 0 then 255 :: 255 :: 255 :: 255 :: nil
       else r :: g :: b :: a :: nil)
      ++ binarize rest
  | _ => data
  end.

(** [maskCtx.fillStyle = 'black'; maskCtx.fillRect(0, 0, width, height)]
    on the mask canvas: the rectangle is the whole bitmap, so every
    pixel is covered entirely. *)
Definition fillBlack (c : Canvas) : Canvas :=
  let k := mkContext2D (globalCompositeOperation (cv_ctx c)) (lineWidth (cv_ctx c))
                       (strokeStyle (cv_ctx c)) (mkPixel 0 0 0 255) in
  withCtx
    (withBitmap c (paint (globalCompositeOperation k) (fillStyle k)
                         (fun _ _ => 255) (cv_width c) 0 (cv_bitmap c)))
    k.

(** The mask canvas of [handleSubmit] after the loop has been written
    back. *)
Definition serializeMask (drawingCanvas : Canvas) : Canvas :=
  let maskCanvas := createCanvas (cv_width drawingCanvas) (cv_height drawingCanvas) in
  let maskCanvas := fillBlack maskCanvas in
  let maskCanvas := drawImage maskCanvas drawingCanvas in
  putImageData maskCanvas (binarize (getImageData maskCanvas)).

(** The arguments [handleSubmit] passes to [editImageWithMask]. *)
Definition submissionArgs (env : Env) (s : EditorState) (maskCanvas : Canvas)
           (originalImageBase64 : JSString) : EditArgs :=
  mkEditArgs (prompt s) (negativePrompt s) (style s)
             originalImageBase64 (originalImageType env)
             (cv_width maskCanvas) (cv_height maskCanvas) (cv_bitmap maskCanvas).

(** [handleSubmit], with the calls it made to the provider.  The
    drawing canvas is taken to have pixels: [drawImage] does not accept
    an empty canvas as its source. *)
Definition handleSubmit (env : Env) (s0 : EditorState)
  : EditorState * list RemoteCall :=
  let s := setUpscaledImage None
             (setEditedImage None (setError None (setIsLoading true s0))) in
  let rejected (m : JSString) :=
    (setIsLoading false (setError (Some m) s), @nil RemoteCall) in
  match imageCanvasRef s, drawingCanvasRef s with
  | Some imageCanvas, Some drawingCanvas =>
      if negb (truthyStr (trim (prompt s)))
      then rejected (jsstr "Please draw a mask and enter a prompt.")
      else if negb (contextAvailable env)
      then rejected (jsstr "Could not create mask context.")
      else
        let maskCanvas := serializeMask drawingCanvas in
        match fileToBase64 env with
        | inl e =>
            (setIsLoading false
               (setError (Some (messageOr "An unknown error occurred." e)) s), [])
        | inr originalImageBase64 =>
            let args := submissionArgs env s maskCanvas originalImageBase64 in
            match editImageWithMask env args with
            | inr resultBase64 =>
                (setIsLoading false
                   (setEditedImage
                      (Some (jsstr "data:image/png;base64," ++ resultBase64)) s),
                 [CallEdit args])
            | inl e =>
                (setIsLoading false
                   (setError (Some (messageOr "An unknown error occurred." e)) s),
                 [CallEdit args])
            end
        end
  | _, _ => rejected (jsstr "Please draw a mask and enter a prompt.")
  end.

(** ** A rasterizer without anti-aliasing

    One concrete rasterizer, used to run the editor on examples: a pixel
    is covered entirely when its centre lies in the shape and not at all
    otherwise, and the alpha of a colour becomes the nearest byte. *)

Module Sampling.

Definition Qlt_bool (a b : Q) : bool := negb (Qle_bool b a).

Definition centre (v : Z) : Q := (inject_Z v + (1 # 2))%Q.

Definition full (b : bool) : Z := if b then 255 else 0.

Definition rect (x y w h : Q) (px py : Z) : Z :=
  let x0 := Qmin x (x + w) in
  let x1 := Qmax x (x + w) in
  let y0 := Qmin y (y + h) in
  let y1 := Qmax y (y + h) in
  full (Qle_bool x0 (centre px) && Qlt_bool (centre px) x1
        && Qle_bool y0 (centre py) && Qlt_bool (centre py) y1).

Definition ellipse (cx cy rx ry : Q) (px py : Z) : Z :=
  if Qle_bool rx 0 || Qle_bool ry 0 then 0
  else
    let dx := ((centre px - cx) / rx)%Q in
    let dy := ((centre py - cy) / ry)%Q in
    full (Qle_bool (dx * dx + dy * dy) 1).

(** The squared distance from a point to a segment. *)
Definition dist2 (a b : Point) (cx cy : Q) : Q :=
  let dx := (pt_x b - pt_x a)%Q in
  let dy := (pt_y b - pt_y a)%Q in
  let len2 := (dx * dx + dy * dy)%Q in
  let t :=
    if Qle_bool len2 0 then 0%Q
    else Qmax 0 (Qmin 1 (((cx - pt_x a) * dx + (cy - pt_y a) * dy) / len2)) in
  let qx := (pt_x a + t * dx - cx)%Q in
  let qy := (pt_y a + t * dy - cy)%Q in
  (qx * qx + qy * qy)%Q.

Definition line (lineWidth : Q) (a b : Point) (px py : Z) : Z :=
  full (Qle_bool (dist2 a b (centre px) (centre py))
                 ((lineWidth / 2) * (lineWidth / 2))).

Definition alpha (a : Q) : Z := Math_round (255 * a).

Definition rasterizer : Rasterizer := mkRasterizer line rect ellipse alpha.

End Sampling.

(** * The vocabulary of the properties *)

(** ** Reading the state *)

(** The drawing layer, empty when the canvas is not mounted. *)
Definition maskBuffer (s : EditorState) : list Z :=
  match drawingCanvasRef s with
  | Some c => cv_bitmap c
  | None => []
  end.

(** The two canvases, for states in which they are mounted. *)
Definition drawingCanvasOf (s : EditorState) : Canvas :=
  match drawingCanvasRef s with
  | Some c => c
  | None => createCanvas 0 0
  end.

Definition imageCanvasOf (s : EditorState) : Canvas :=
  match imageCanvasRef s with
  | Some c => c
  | None => createCanvas 0 0
  end.

(** The size of a canvas that is mounted. *)
Definition canvasSize (ref : option Canvas) : option Size :=
  option_map (fun c => mkSize (cv_width c) (cv_height c)) ref.

(** A canvas that has pixels. *)
Definition hasPixels (c : Canvas) : Prop := 0 < cv_width c /\ 0 < cv_height c.

(** The alpha bytes of a bitmap, pixel by pixel. *)
Fixpoint alphaChannel (data : list Z) : list Z :=
  match data with
  | _ :: _ :: _ :: a :: rest => a :: alphaChannel rest
  | _ => []
  end.

(** The [i]-th pixel of a bitmap. *)
Definition pixelAt (data : list Z) (i : nat) : option Pixel :=
  match drop (i * 4) data with
  | r :: g :: b :: a :: _ => Some (mkPixel r g b a)
  | _ => None
  end.

(** The pixel at column [x] and row [y] of a bitmap [w] pixels wide. *)
Definition pixelXY (data : list Z) (w x y : Z) : option Pixel :=
  if y * w + x <? 0 then None else pixelAt data (Z.to_nat (y * w + x)).

(** Bitmaps all of whose pixels are opaque. *)
Inductive AllOpaque : list Z -> Prop :=
| AllOpaque_nil : AllOpaque []
| AllOpaque_pixel r g b rest :
    AllOpaque rest -> AllOpaque (r :: g :: b :: 255 :: rest).

(** A bitmap read back from a canvas: a pixel without alpha is
    transparent black. *)
Fixpoint canonical (data : list Z) : list Z :=
  match data with
  | r :: g :: b :: a :: rest =>
      (if a <=? 0 then 0 :: 0 :: 0 :: 0 :: nil else r :: g :: b :: a :: nil)
      ++ canonical rest
  | _ => data
  end.

(** ** Submission *)

(** The state every submission starts from: busy, with the error, the
    edited result and the upscaled result all reset. *)
Definition submissionStart (s : EditorState) : EditorState :=
  setUpscaledImage None
    (setEditedImage None (setError None (setIsLoading true s))).



(** ** Auto-mask *)

(** A pixel of the segmentation image counts as background. *)
Definition isBackground (p : Pixel) : bool :=
  (pr p >? 200) && (pg p >? 200) && (pb p >? 200).

(** A run of the auto-mask that succeeds: the file is read, the provider
    answers with image data, the image decodes, and a context is handed
    out for the temporary canvas. *)
Definition autoMaskSucceeds (env : Env) (s : EditorState) (maskImage : Image) : Prop :=
  exists originalImageBase64 parts maskBase64,
    fileToBase64 env = inr originalImageBase64 /\
    provideMask env originalImageBase64 (originalImageType env) = Responds parts /\
    firstInlineData parts = Some maskBase64 /\
    loadImage env (jsstr "data:image/png;base64," ++ maskBase64) = Some maskImage /\
    contextAvailable env = true.

(** ** Flood fill *)

(** Pixels that were painted before the fill, in [data0], hold in
    [data] what they held. *)
Definition Kept (data0 data : list Z) : Prop :=
  forall j k : Z,
    gt0 (getIdx data0 (j * 4 + 3)) = true ->
    0 <= k < 4 ->
    getIdx data (j * 4 + k) = getIdx data0 (j * 4 + k).

(** No seed was painted before the fill. *)
Definition Unpainted (P : FillParams) (data0 : list Z) (seeds : list (Z * Z)) : Prop :=
  forall x y : Z,
    In (x, y) seeds ->
    gt0 (getIdx data0 ((y * fp_width P + x) * 4 + 3)) = false.

(** [q] is one of the four neighbours of [p]. *)
Definition adjacent (p q : Z * Z) : Prop :=
  q = (fst p + 1, snd p) \/ q = (fst p - 1, snd p) \/
  q = (fst p, snd p + 1) \/ q = (fst p, snd p - 1).

(** Every seed is the start pixel or a neighbour of an earlier seed. *)
Definition Grown (start : Z * Z) (seeds : list (Z * Z)) : Prop :=
  forall (i : nat) (q : Z * Z),
    seeds !! i = Some q ->
    q = start \/
    exists (j : nat) (p : Z * Z), (j < i)%nat /\ seeds !! j = Some p /\ adjacent p q.

(** Every entry of the stack is the start pixel or a neighbour of a
    seed. *)
Definition Reachable (start : Z * Z) (seeds pixelStack : list (Z * Z)) : Prop :=
  forall q : Z * Z,
    In q pixelStack ->
    q = start \/ exists (j : nat) (p : Z * Z), seeds !! j = Some p /\ adjacent p q.

(** The data differs from [data0] at the pixels of seeds only. *)
Definition OnlySeeds (P : FillParams) (data0 data : list Z) (seeds : list (Z * Z))
  : Prop :=
  forall j k : Z,
    0 <= k < 4 ->
    getIdx data (j * 4 + k) <> getIdx data0 (j * 4 + k) ->
    exists x y, In (x, y) seeds /\ y * fp_width P + x = j.

(** How many pixels are not yet marked visited. *)
Fixpoint unvisited (visited : list Z) : nat :=
  match visited with
  | [] => 0
  | v :: rest => (if v =? 0 then 1 else 0) + unvisited rest
  end.

(** The start point, floored, lies outside the buffer. *)
Definition outOfBounds (c : Canvas) (p : Point) : Prop :=
  Math_floor (pt_x p) < 0 \/ Math_floor (pt_x p) >= cv_width c \/
  Math_floor (pt_y p) < 0 \/ Math_floor (pt_y p) >= cv_height c.

(** ** Editor states and environments

    The editor once an image of [width] by [height] has loaded
    ([drawImageOnCanvas]): the initial values of the hooks, and two
    canvases of the resized size, the image canvas holding the
    picture. *)
Definition loadedEditor (width height : Z) (picture : Image) : EditorState :=
  let size := resizeImage width height in
  let w := sz_width size in
  let h := sz_height size in
  mkEditorState [] [] (jsstr "Default") None false None
    40 (7 # 10) brush false 2 false None
    (Some (withBitmap (createCanvas w h) (picture w h)))
    (Some (createCanvas w h)) false None None None.

(** One gesture: pointer down at [p], one move to [q], pointer up. *)
Definition gesture (rz : Rasterizer) (s : EditorState) (p q : Point) : EditorState :=
  handleMouseUp (handleMouseMove rz (handleMouseDown s p) q).

(** A picture that is white everywhere. *)
Definition whiteImage : Image := fun w h => replicate (Z.to_nat (4 * w * h)) 255.

(** An environment whose provider rejects every request. *)
Definition failingEnv : Env :=
  mkEnv (inr (jsstr "QUJD")) (jsstr "image/png")
        (fun _ => Rejects (ErrorObj (jsstr "network down")))
        (fun _ _ => Rejects (ErrorObj (jsstr "network down")))
        (fun _ => None) true.

(** An environment whose provider answers the auto-mask request with
    the white picture. *)
Definition autoMaskEnv : Env :=
  mkEnv (inr (jsstr "QUJD")) (jsstr "image/png")
        (fun _ => Rejects NonError)
        (fun _ _ => Responds [None; Some (jsstr "TUFTSw==")])
        (fun _ => Some whiteImage) true.

(** Two editors that hold an edited and an upscaled result from an
    earlier submission: one with a prompt of two spaces, one with a
    proper prompt. *)
Definition blankPromptState : EditorState :=
  mkEditorState (jsstr "  ") [] (jsstr "Default")
    (Some (jsstr "data:image/png;base64,AAAA")) false None
    40 (7 # 10) brush false 2 false
    (Some (jsstr "data:image/png;base64,BBBB"))
    (Some (createCanvas 2 2)) (Some (createCanvas 2 2)) false None None None.

Definition submittedState : EditorState :=
  mkEditorState (jsstr "make the sky red") [] (jsstr "Default")
    (Some (jsstr "data:image/png;base64,AAAA")) false None
    40 (7 # 10) brush false 2 false
    (Some (jsstr "data:image/png;base64,BBBB"))
    (Some (createCanvas 2 2)) (Some (createCanvas 2 2)) false None None None.

(** The scenario of the rectangle: a 100 by 100 image, the rectangle
    tool at opacity 1, dragged from (10,10) to (50,50); and the bitmap
    of the mask canvas a submission builds from it. *)
Definition rectangleScenario (picture : Image) : EditorState :=
  gesture Sampling.rasterizer
    (setActiveTool rectangle (setBrushOpacity 1 (loadedEditor 100 100 picture)))
    (mkPoint 10 10) (mkPoint 50 50).

Definition serializedScenario (picture : Image) : list Z :=
  match drawingCanvasRef (rectangleScenario picture) with
  | Some c => cv_bitmap (serializeMask c)
  | None => []
  end.

(** A 2 by 2 editor after one brush stroke along its middle, and after
    an eraser stroke on top of it, both at the initial width 40 and
    opacity 0.7: either stroke covers all four pixels. *)
Definition brushedState (picture : Image) : EditorState :=
  gesture Sampling.rasterizer (loadedEditor 2 2 picture) (mkPoint 0 1) (mkPoint 2 1).

Definition erasedState (picture : Image) : EditorState :=
  gesture Sampling.rasterizer (setActiveTool eraser (brushedState picture))
          (mkPoint 0 1) (mkPoint 2 1).

(** The brushed editor with the eraser selected, at opacity 1 and at
    the opacity of the stroke. *)
Definition fullEraserState : EditorState :=
  setBrushOpacity 1 (setActiveTool eraser (brushedState whiteImage)).

Definition sameOpacityEraserState : EditorState :=
  setActiveTool eraser (brushedState whiteImage).

(** A 3 by 3 editor on the white picture whose centre pixel has been
    painted with the rectangle tool, the fill tool selected. *)
Definition centrePaintedState : EditorState :=
  setActiveTool fill
    (gesture Sampling.rasterizer
       (setActiveTool rectangle (loadedEditor 3 3 whiteImage))
       (mkPoint 1 1) (mkPoint 2 2)).

(** * More of the editor *)

(** ** getMousePos *)

Record DOMRect := mkDOMRect {
  rect_left : Q;
  rect_right : Q;
  rect_top : Q;
  rect_bottom : Q
}.

Record Touch := mkTouch { clientX : Q; clientY : Q }.

(** A native mouse event, or a touch event with its list of touches. *)
Inductive PointerInput :=
| MouseInput (x y : Q)
| TouchInput (touches : list Touch).

(** [getMousePos].  [None] stands for what is not a position: reading
    [clientX] of a missing first touch throws, and a bounding rectangle
    without width or height makes the quotient NaN or infinite. *)
Definition getMousePos (canvas : Canvas) (rect : DOMRect) (e : PointerInput)
  : option Point :=
  let touch := match e with
               | MouseInput x y => Some (mkTouch x y)
               | TouchInput touches => head touches
               end in
  match touch with
  | None => None
  | Some t =>
      if Qeq_bool (rect_right rect - rect_left rect) 0
         || Qeq_bool (rect_bottom rect - rect_top rect) 0
      then None
      else Some (mkPoint
                   ((clientX t - rect_left rect)
                    / (rect_right rect - rect_left rect)
                    * inject_Z (cv_width canvas))%Q
                   ((clientY t - rect_top rect)
                    / (rect_bottom rect - rect_top rect)
                    * inject_Z (cv_height canvas))%Q)
  end.

(** ** Upscaling *)

(** [s.split(sep)] for a separator of one code unit. *)
Fixpoint split (sep : Z) (s : JSString) : list JSString :=
  match s with
  | [] => [[]]
  | c :: rest =>
      if c =? sep then [] :: split sep rest
      else match split sep rest with
           | piece :: pieces => (c :: piece) :: pieces
           | [] => [[c]]
           end
  end.

Definition comma : Z := 44.

(** [upscaleImage]; the image data may be [undefined]. *)
Definition upscaleImage (provideUpscale : option JSString -> Z -> ProviderOutcome)
           (imageBase64 : option JSString) (factor : Z) : JSError + JSString :=
  let caught := wrapError "Failed to upscale image: "
                          "An unknown error occurred while upscaling the image." in
  match provideUpscale imageBase64 factor with
  | Rejects e => inl (caught e)
  | Responds parts =>
      match firstInlineData parts with
      | Some d => inr d
      | None =>
          inl (caught (ErrorObj
                         (jsstr "No upscaled image data found in the API response.")))
      end
  end.

(** [handleUpscale], with the calls it made to the provider. *)
Definition handleUpscale (provideUpscale : option JSString -> Z -> ProviderOutcome)
           (s : EditorState) : EditorState * list (option JSString * Z) :=
  let missing :=
    (setError (Some (jsstr "Generate an image before upscaling.")) s,
     @nil (option JSString * Z)) in
  match editedImage s with
  | None => missing
  | Some edited =>
      if negb (truthyStr edited) then missing
      else
        let s1 := setError None (setIsUpscaling true s) in
        let base64Data := split comma edited !! 1%nat in
        let calls := [(base64Data, upscaleFactor s)] in
        match upscaleImage provideUpscale base64Data (upscaleFactor s) with
        | inr resultBase64 =>
            (setIsUpscaling false
               (setUpscaledImage
                  (Some (jsstr "data:image/png;base64," ++ resultBase64)) s1),
             calls)
        | inl e =>
            (setIsUpscaling false
               (setError
                  (Some (messageOr "An unknown error occurred during upscaling." e))
                  s1),
             calls)
        end
  end.

(** The image the result panel shows and the download link points to:
    [upscaledImage || editedImage]. *)
Definition shownImage (s : EditorState) : option JSString :=
  match upscaledImage s with
  | Some upscaled => if truthyStr upscaled then Some upscaled else editedImage s
  | None => editedImage s
  end.

(** ** The editor under a sequence of user actions *)

Definition setBrushSize (v : Z) (s : EditorState) : EditorState :=
  mkEditorState (prompt s) (negativePrompt s) (style s) (editedImage s)
    (isLoading s) (error s) v (brushOpacity s) (activeTool s) (isMasking s)
    (upscaleFactor s) (isUpscaling s) (upscaledImage s) (imageCanvasRef s)
    (drawingCanvasRef s) (isDrawing s) (lastPoint s) (shapeStartPoint s)
    (canvasSnapshot s).

(** What the user can do to the mounted editor: the pointer handlers of
    the drawing canvas, the tool buttons, the two sliders, the clear
    button, the auto-mask button and the generate button. *)
Inductive Action :=
| PointerDown (pos : Point)
| PointerMove (pos : Point)
| PointerUp
| SelectTool (tool : Tool)
| SlideSize (size : Z)
| SlideOpacity (opacity : Q)
| ClearMask
| AutoMask (env : Env)
| Generate (env : Env).

Definition act (rz : Rasterizer) (s : EditorState) (a : Action) : EditorState :=
  match a with
  | PointerDown pos => handleMouseDown s pos
  | PointerMove pos => handleMouseMove rz s pos
  | PointerUp => handleMouseUp s
  | SelectTool tool => setActiveTool tool s
  | SlideSize size => setBrushSize size s
  | SlideOpacity opacity => setBrushOpacity opacity s
  | ClearMask => clearDrawing s
  | AutoMask env => fst (handleAutoMask env s)
  | Generate env => fst (handleSubmit env s)
  end.

(** ** Vocabulary *)

(** The bitmap of a canvas has four entries per pixel of its size. *)
Definition wellFormed (c : Canvas) : Prop :=
  0 <= cv_width c /\ 0 <= cv_height c /\
  length (cv_bitmap c) = Z.to_nat (4 * cv_width c * cv_height c).

(** The size of the drawing canvas and the length of its bitmap. *)
Definition maskShape (s : EditorState) : option (Z * Z * nat) :=
  match drawingCanvasRef s with
  | Some c => Some (cv_width c, cv_height c, length (cv_bitmap c))
  | None => None
  end.

(** The free-hand path through [moves] from [p]: one segment between
    each two consecutive pointer positions. *)
Fixpoint polyline (rz : Rasterizer) (s : EditorState) (p : Point)
         (moves : list Point) : EditorState :=
  match moves with
  | [] => s
  | q :: rest => polyline rz (drawLine rz s p q) q rest
  end.

(** The colour of the pixel [(x, y)] of the image is within the
    tolerance of the start colour of a fill, channel by channel. *)
Definition similar (P : FillParams) (x y : Z) : bool :=
  let i := (y * fp_width P + x) * 4 in
  withinTolerance (getIdx (fp_image P) i) (fp_startR P) tolerance
  && withinTolerance (getIdx (fp_image P) (i + 1)) (fp_startG P) tolerance
  && withinTolerance (getIdx (fp_image P) (i + 2)) (fp_startB P) tolerance.

(** The four bytes a fill writes on a pixel. *)
Definition fillBytes (P : FillParams) (k : Z) : Z :=
  let c := fp_fillColor P in
  clamp8 (if k =? 0 then pr c else if k =? 1 then pg c
          else if k =? 2 then pb c else pa c).

(** Where the pointer is after [moves], having been at [p]. *)
Fixpoint lastPosition (p : Point) (moves : list Point) : Point :=
  match moves with
  | [] => p
  | q :: rest => lastPosition q rest
  end.

(** What a stroke with coverage [c] does to one pixel. *)
Definition strokePixel (op : CompositeOp) (color : Pixel) (c : Z) (p : Pixel) : Pixel :=
  if c <=? 0 then p
  else composite op
         (mkPixel (pr color) (pg color) (pb color) (div255 (pa color * c))) p.

(** What holds of the seeds while a fill runs on a mask of [n] entries:
    the visited map has one entry per pixel; no pixel is a seed twice;
    every seed lies in the buffer, is marked visited, has an image
    colour similar to the start colour, and, where the mask has room
    for it, carries the four bytes of the fill colour. *)
Definition FillState (P : FillParams) (n : nat) (visited data : list Z)
           (seeds : list (Z * Z)) : Prop :=
  length visited = Z.to_nat (fp_width P * fp_height P) /\
  length data = n /\
  NoDup seeds /\
  forall x y : Z,
    In (x, y) seeds ->
    (0 <= x < fp_width P /\ 0 <= y < fp_height P) /\
    truthy (getIdx visited (y * fp_width P + x)) = true /\
    similar P x y = true /\
    ((Z.to_nat (4 * fp_width P * fp_height P) <= n)%nat ->
     forall k, 0 <= k < 4 ->
       getIdx data ((y * fp_width P + x) * 4 + k) = Some (fillBytes P k)).

(** The mask data and the seeds of the fill of [centrePaintedState] at
    its top left corner. *)
Definition cornerFillData : list Z :=
  [192; 132; 252; 179; 192; 132; 252; 179; 192; 132; 252; 179;
   192; 132; 252; 179; 192; 132; 252; 179; 192; 132; 252; 179;
   192; 132; 252; 179; 192; 132; 252; 179; 192; 132; 252; 179].

Definition cornerFillSeeds : list (Z * Z) :=
  [(0, 0); (0, 1); (0, 2); (1, 2); (2, 2); (2, 1); (2, 0); (1, 0)].

(** The snapshot of a shape gesture, when there is one, has the length
    of the drawing canvas's bitmap. *)
Definition snapshotFits (s : EditorState) : Prop :=
  forall snapshot c,
    canvasSnapshot s = Some snapshot ->
    drawingCanvasRef s = Some c ->
    length snapshot = length (cv_bitmap c).

(** A session on the 3 by 3 editor that uses every action. *)
Definition sampleSession : list Action :=
  [SelectTool rectangle; PointerDown (mkPoint 0 0); PointerMove (mkPoint 2 2);
   PointerMove (mkPoint 1 3); PointerUp; SelectTool eraser; SlideSize 1;
   SlideOpacity 1; PointerDown (mkPoint 0 0); PointerMove (mkPoint 3 3);
   PointerUp; AutoMask autoMaskEnv; Generate failingEnv; ClearMask;
   SelectTool fill; PointerDown (mkPoint 1 1)].

(** An editor whose last submission succeeded with the result [AAAA]
    and whose earlier upscaled image is still stored. *)
Definition editedState : EditorState :=
  mkEditorState (jsstr "make the sky red") [] (jsstr "Default")
    (Some (jsstr "data:image/png;base64,AAAA")) false None
    40 (7 # 10) brush false 4 false
    (Some (jsstr "data:image/png;base64,BBBB"))
    (Some (createCanvas 2 2)) (Some (createCanvas 2 2)) false None None None.

(** A provider that answers every request with the image [CCCC], and two
    that fail. *)
Definition answeringEnv : Env :=
  mkEnv (inr (jsstr "QUJD")) (jsstr "image/png")
        (fun _ => Responds [None; Some (jsstr "CCCC")])
        (fun _ _ => Responds [Some (jsstr "CCCC")])
        (fun _ => Some whiteImage) true.

Definition rejectingUpscaler : option JSString -> Z -> ProviderOutcome :=
  fun _ _ => Rejects (ErrorObj (jsstr "quota exceeded")).

Definition answeringUpscaler : option JSString -> Z -> ProviderOutcome :=
  fun _ _ => Responds [Some (jsstr "DDDD")].

(** * Properties *)

(** ** Resizing *)

Lemma roundHalfEven_error (n d : Z) :
  0 < d -> 2 * Z.abs (roundHalfEven n d * d - n) <= d.
Proof.
  intros Hd. unfold roundHalfEven.
  assert (H := Z.div_mod n d ltac:(lia)).
  assert (Hr := Z.mod_pos_bound n d Hd).
  destruct (2 * (n mod d) ?= d) eqn:E.
  - apply Z.compare_eq in E. destruct (Z.even (n / d)); nia.
  - rewrite Z.compare_lt_iff in E. nia.
  - rewrite Z.compare_gt_iff in E. nia.
Qed.

(** The significand has its 53 bits. *)
Lemma exponent_normal (n d : positive) :
  let (N, D) := scaled n d (exponent n d) in 2 ^ 52 * D <= N.
Proof.
  unfold exponent.
  set (a := Z.log2 (Z.pos n)). set (b := Z.log2 (Z.pos d)).
  assert (Ha := Z.log2_spec (Z.pos n) ltac:(lia)). fold a in Ha.
  assert (Hb := Z.log2_spec (Z.pos d) ltac:(lia)). fold b in Hb.
  assert (Ha0 : 0 <= a) by apply Z.log2_nonneg.
  assert (Hb0 : 0 <= b) by apply Z.log2_nonneg.
  set (e := a - b - 53).
  unfold scaled.
  destruct (Z.le_gt_cases 0 e) as [He|He].
  - rewrite !(Z.max_l 0 (- e)) by lia. rewrite !(Z.max_r 0 e) by lia.
    rewrite Z.pow_0_r, Z.mul_1_r.
    assert (Hp : 2 ^ a = 2 ^ 52 * (2 ^ Z.succ b * 2 ^ e)).
    { rewrite <- !Z.pow_add_r by lia. f_equal. lia. }
    destruct (2 ^ 53 * (Z.pos d * 2 ^ e) <=? Z.pos n) eqn:E.
    + rewrite (Z.max_l 0 (- (e + 1))) by lia. rewrite (Z.max_r 0 (e + 1)) by lia.
      rewrite Z.pow_0_r, Z.mul_1_r.
      apply Z.leb_le in E. rewrite Z.pow_add_r by lia.
      change (2 ^ 1) with 2. change (2 ^ 53) with (2 ^ 52 * 2) in E. lia.
    + rewrite (Z.max_l 0 (- e)) by lia. rewrite (Z.max_r 0 e) by lia.
      rewrite Z.pow_0_r, Z.mul_1_r.
      assert (H2e : 0 < 2 ^ e) by (apply Z.pow_pos_nonneg; lia).
      nia.
  - rewrite !(Z.max_r 0 (- e)) by lia. rewrite !(Z.max_l 0 e) by lia.
    rewrite Z.pow_0_r, Z.mul_1_r.
    assert (Hp : 2 ^ a * 2 ^ (- e) = 2 ^ 52 * 2 ^ Z.succ b).
    { rewrite <- !Z.pow_add_r by lia. f_equal. lia. }
    assert (H2e : 0 < 2 ^ (- e)) by (apply Z.pow_pos_nonneg; lia).
    destruct (2 ^ 53 * Z.pos d <=? Z.pos n * 2 ^ (- e)) eqn:E.
    + apply Z.leb_le in E.
      rewrite (Z.max_r 0 (- (e + 1))) by lia. rewrite (Z.max_l 0 (e + 1)) by lia.
      rewrite Z.pow_0_r, Z.mul_1_r.
      assert (Hs : 2 ^ (- e) = 2 * 2 ^ (- (e + 1))).
      { replace (- e) with (1 + - (e + 1)) by lia.
        rewrite Z.pow_add_r by lia. reflexivity. }
      rewrite Hs in E. change (2 ^ 53) with (2 * 2 ^ 52) in E. lia.
    + rewrite (Z.max_r 0 (- e)) by lia. rewrite (Z.max_l 0 e) by lia.
      rewrite Z.pow_0_r, Z.mul_1_r. nia.
Qed.

(** The relative error of one rounding is at most [2 ^ -53]. *)
Lemma nearest_error (n d : positive) :
  ((Z.pos n # d) * inject_Z (2 ^ 53 - 1) <= nearest n d * inject_Z (2 ^ 53) /\
   nearest n d * inject_Z (2 ^ 53) <= (Z.pos n # d) * inject_Z (2 ^ 53 + 1))%Q.
Proof.
  assert (Hn := exponent_normal n d).
  unfold nearest. destruct (scaled n d (exponent n d)) as [N D] eqn:Es.
  unfold scaled in Es. injection Es as EN ED.
  set (e := exponent n d) in *.
  set (P := 2 ^ Z.max 0 e) in *. set (R := 2 ^ Z.max 0 (- e)) in *.
  assert (HP : 0 < P) by (apply Z.pow_pos_nonneg; lia).
  assert (HR : 0 < R) by (apply Z.pow_pos_nonneg; lia).
  assert (HD : 0 < D) by lia.
  assert (Herr := roundHalfEven_error N D HD).
  set (m := roundHalfEven N D) in *.
  set (c := 2 ^ 53) in *. assert (Hc : c = 2 * 2 ^ 52) by reflexivity.
  set (c' := 2 ^ 52) in *.
  unfold Qle, Qmult, inject_Z. cbn [Qnum Qden].
  rewrite !Pos.mul_1_r, Z2Pos.id by exact HR.
  assert (E : m * P * Z.pos d = m * D) by (subst D; ring).
  split.
  - replace (m * P * c * Z.pos d) with (m * D * c) by (rewrite <- E; ring).
    replace (Z.pos n * (c - 1) * R) with (N * (c - 1)) by (subst N; ring).
    nia.
  - replace (m * P * c * Z.pos d) with (m * D * c) by (rewrite <- E; ring).
    replace (Z.pos n * (c + 1) * R) with (N * (c + 1)) by (subst N; ring).
    nia.
Qed.

Lemma binary64_error (x : Q) :
  (0 <= x)%Q ->
  (x * inject_Z (2 ^ 53 - 1) <= binary64 x * inject_Z (2 ^ 53) /\
   binary64 x * inject_Z (2 ^ 53) <= x * inject_Z (2 ^ 53 + 1))%Q.
Proof.
  intros Hx. destruct x as [n d]. unfold binary64. cbn [Qnum Qden].
  destruct n as [|n|n].
  - split; vm_compute; discriminate.
  - apply nearest_error.
  - exfalso. unfold Qle in Hx. cbn in Hx. lia.
Qed.

(** For every position of the opacity slider (0.1, 0.2, ..., 1) the
    product [255 * brushOpacity] is the same in binary64 as in exact
    arithmetic. *)
Lemma slider_products_exact (k : Z) :
  1 <= k <= 10 ->
  (binary64 (255 * binary64 (inject_Z k / 10)) == 255 * (inject_Z k / 10))%Q.
Proof.
  intros Hk.
  assert (E : k = 1 \/ k = 2 \/ k = 3 \/ k = 4 \/ k = 5 \/
              k = 6 \/ k = 7 \/ k = 8 \/ k = 9 \/ k = 10) by lia.
  destruct E as [-> | [-> | [-> | [-> | [-> | [-> | [-> | [-> | [-> | ->]]]]]]]]];
    vm_compute; reflexivity.
Qed.

Lemma Math_round_spec (q : Q) :
  (inject_Z (Math_round q) <= q + (1 # 2) /\
   q + (1 # 2) < inject_Z (Math_round q) + 1)%Q.
Proof.
  unfold Math_round. split; [apply Qfloor_le|].
  assert (H := Qlt_floor (q + (1 # 2))).
  rewrite inject_Z_plus in H. exact H.
Qed.

(** The side that is scaled down becomes the nearest integer to its
    exact scaled length: for sides below [2 ^ 32] the two roundings of
    the floating-point computation are too small to change that, except
    that they decide which way an exact half goes. *)
Lemma resize_round (a c : Z) :
  0 <= a <= c -> 0 < c < 4294967296 ->
  let k := Math_round (binary64 (inject_Z a * binary64 (inject_Z 1024 / inject_Z c))) in
  2 * Z.abs (k * c - 1024 * a) <= c.
Proof.
  intros Ha Hc k.
  set (A := inject_Z a). set (C := inject_Z c).
  set (T := (inject_Z 1024 / C)%Q) in *.
  set (t := binary64 T) in *. set (r := binary64 (A * t)) in *.
  assert (HA : (0 <= A)%Q).
  { unfold A. change 0%Q with (inject_Z 0). rewrite <- Zle_Qle. lia. }
  assert (HC : (0 < C)%Q).
  { unfold C. change 0%Q with (inject_Z 0). rewrite <- Zlt_Qlt. lia. }
  assert (HAC : (A <= C)%Q) by (unfold A, C; rewrite <- Zle_Qle; lia).
  assert (HCmax : (C <= inject_Z 4294967296)%Q) by (unfold C; rewrite <- Zle_Qle; lia).
  assert (HT : (T * C == inject_Z 1024)%Q).
  { unfold T. field. intros H0. rewrite H0 in HC. apply (Qlt_irrefl _ HC). }
  assert (HT0 : (0 <= T)%Q).
  { unfold T. apply Qle_shift_div_l; [exact HC|]. vm_compute. discriminate. }
  destruct (binary64_error T HT0) as [Ht1 Ht2]. fold t in Ht1, Ht2.
  assert (Ht0 : (0 <= t)%Q).
  { assert (H : (0 <= T * inject_Z (2 ^ 53 - 1))%Q).
    { apply Qmult_le_0_compat; [exact HT0|]. vm_compute. discriminate. }
    change (inject_Z (2 ^ 53)) with (9007199254740992 # 1)%Q in Ht1. lra. }
  assert (Hp0 : (0 <= A * t)%Q) by (apply Qmult_le_0_compat; assumption).
  destruct (binary64_error (A * t) Hp0) as [Hr1 Hr2]. fold r in Hr1, Hr2.
  destruct (Math_round_spec r) as [Hk1 Hk2].
  change (Math_round r) with k in Hk1, Hk2. clearbody k.
  set (K := inject_Z k) in *.
  change (inject_Z (2 ^ 53)) with (9007199254740992 # 1)%Q in *.
  change (inject_Z (2 ^ 53 - 1)) with (9007199254740991 # 1)%Q in *.
  change (inject_Z (2 ^ 53 + 1)) with (9007199254740993 # 1)%Q in *.
  change (inject_Z 4294967296) with (4294967296 # 1)%Q in *.
  change (inject_Z 1024) with (1024 # 1)%Q in *.
  assert (Hv1 : (A * 1024 * (9007199254740991 # 1)
                 <= A * t * C * (9007199254740992 # 1))%Q).
  { assert (H := Qmult_le_compat_r _ _ (A * C) Ht1
                   ltac:(apply Qmult_le_0_compat; lra)).
    assert (E1 : (T * (9007199254740991 # 1) * (A * C)
                  == A * (T * C) * (9007199254740991 # 1))%Q) by ring.
    assert (E2 : (t * (9007199254740992 # 1) * (A * C)
                  == A * t * C * (9007199254740992 # 1))%Q) by ring.
    rewrite E1, E2, HT in H. exact H. }
  assert (Hv2 : (A * t * C * (9007199254740992 # 1)
                 <= A * 1024 * (9007199254740993 # 1))%Q).
  { assert (H := Qmult_le_compat_r _ _ (A * C) Ht2
                   ltac:(apply Qmult_le_0_compat; lra)).
    assert (E1 : (T * (9007199254740993 # 1) * (A * C)
                  == A * (T * C) * (9007199254740993 # 1))%Q) by ring.
    assert (E2 : (t * (9007199254740992 # 1) * (A * C)
                  == A * t * C * (9007199254740992 # 1))%Q) by ring.
    rewrite E1, E2, HT in H. exact H. }
  assert (Hw1 : (A * t * C * (9007199254740991 # 1)
                 <= r * C * (9007199254740992 # 1))%Q).
  { assert (H := Qmult_le_compat_r _ _ C Hr1 ltac:(lra)).
    assert (E1 : (A * t * (9007199254740991 # 1) * C
                  == A * t * C * (9007199254740991 # 1))%Q) by ring.
    assert (E2 : (r * (9007199254740992 # 1) * C
                  == r * C * (9007199254740992 # 1))%Q) by ring.
    rewrite E1, E2 in H. exact H. }
  assert (Hw2 : (r * C * (9007199254740992 # 1)
                 <= A * t * C * (9007199254740993 # 1))%Q).
  { assert (H := Qmult_le_compat_r _ _ C Hr2 ltac:(lra)).
    assert (E1 : (A * t * (9007199254740993 # 1) * C
                  == A * t * C * (9007199254740993 # 1))%Q) by ring.
    assert (E2 : (r * (9007199254740992 # 1) * C
                  == r * C * (9007199254740992 # 1))%Q) by ring.
    rewrite E1, E2 in H. exact H. }
  assert (Hk1' : (K * C <= r * C + (1 # 2) * C)%Q).
  { assert (H := Qmult_le_compat_r _ _ C Hk1 ltac:(lra)).
    assert (E : ((r + (1 # 2)) * C == r * C + (1 # 2) * C)%Q) by ring.
    rewrite E in H. exact H. }
  assert (Hk2' : (r * C + (1 # 2) * C < K * C + C)%Q).
  { assert (H := Qmult_lt_compat_r _ _ C HC Hk2).
    assert (E1 : ((r + (1 # 2)) * C == r * C + (1 # 2) * C)%Q) by ring.
    assert (E2 : ((K + 1) * C == K * C + C)%Q) by ring.
    rewrite <- E1, <- E2. exact H. }
  set (W := (r * C)%Q) in *. set (P := (A * t * C)%Q) in *. set (KC := (K * C)%Q) in *.
  assert (Hlow : (2 * KC - C < 2048 * A + 1)%Q) by lra.
  assert (Hhigh : (2048 * A - 1 < 2 * KC + C)%Q) by lra.
  assert (Zlow : 2 * (k * c) - c < 2048 * a + 1).
  { rewrite Zlt_Qlt. rewrite inject_Z_plus, !inject_Z_mult.
    unfold Zminus. rewrite inject_Z_plus, inject_Z_opp, !inject_Z_mult.
    fold A C K. unfold KC in Hlow.
    change (inject_Z 2) with 2%Q. change (inject_Z 2048) with 2048%Q.
    change (inject_Z 1) with 1%Q. lra. }
  assert (Zhigh : 2048 * a - 1 < 2 * (k * c) + c).
  { rewrite Zlt_Qlt. rewrite inject_Z_plus, !inject_Z_mult.
    unfold Zminus. rewrite inject_Z_plus, inject_Z_opp, !inject_Z_mult.
    fold A C K. unfold KC in Hhigh.
    change (inject_Z 2) with 2%Q. change (inject_Z 2048) with 2048%Q.
    change (inject_Z 1) with 1%Q. lra. }
  lia.
Qed.

Lemma resizeImage_small (a b : Z) :
  a <= 1024 -> b <= 1024 -> resizeImage a b = mkSize a b.
Proof.
  intros Ha Hb. unfold resizeImage, MAX_DIMENSION.
  destruct (a >? 1024) eqn:E1; [lia|]. destruct (b >? 1024) eqn:E2; [lia|].
  reflexivity.
Qed.

(** What [resizeImage] returns for an image of positive size. *)
Lemma resizeImage_bounds (w h : Z) :
  0 < w < 4294967296 -> 0 < h < 4294967296 ->
  let r := resizeImage w h in
  if (w <=? 1024) && (h <=? 1024) then r = mkSize w h
  else if w >? h then
    sz_width r = 1024 /\
    2 * Z.abs (sz_height r * w - 1024 * h) <= w /\
    0 <= sz_height r <= 1024
  else
    sz_height r = 1024 /\
    2 * Z.abs (sz_width r * h - 1024 * w) <= h /\
    0 <= sz_width r <= 1024.
Proof.
  intros Hw Hh. cbv zeta.
  destruct ((w <=? 1024) && (h <=? 1024)) eqn:Efit.
  { rewrite andb_true_iff in Efit. apply resizeImage_small; lia. }
  rewrite andb_false_iff in Efit.
  unfold resizeImage, MAX_DIMENSION.
  assert (Ebig : (w >? 1024) || (h >? 1024) = true).
  { rewrite orb_true_iff. lia. }
  rewrite Ebig.
  destruct (w >? h) eqn:Ewh; cbn [sz_width sz_height].
  - assert (B := resize_round h w ltac:(lia) ltac:(lia)). cbv zeta in B.
    split; [reflexivity|]. split; [exact B|]. nia.
  - assert (B := resize_round w h ltac:(lia) ltac:(lia)). cbv zeta in B.
    split; [reflexivity|]. split; [exact B|]. nia.
Qed.

Lemma loadedEditor_sizes (w h : Z) (picture : Image) :
  canvasSize (imageCanvasRef (loadedEditor w h picture)) = Some (resizeImage w h) /\
  canvasSize (drawingCanvasRef (loadedEditor w h picture)) = Some (resizeImage w h).
Proof.
  unfold loadedEditor, canvasSize.
  cbn [imageCanvasRef drawingCanvasRef option_map withBitmap createCanvas
       cv_width cv_height].
  destruct (resizeImage w h). split; reflexivity.
Qed.

(** C9. Loading an image of 2000 by 1000 gives the image canvas and the
    drawing canvas the size 1024 by 512.  In general, loading an image
    whose sides are positive and below [2 ^ 32] gives both canvases the
    size [resizeImage] returns: when both sides are at most 1024 the
    size is kept; otherwise the longer side becomes 1024 and the other
    side is the nearest integer to its length times the same ratio (so
    the aspect ratio is kept up to that rounding) and does not exceed
    1024. *)
Theorem loading_fits_1024 (w h : Z) (picture : Image)
        (Hw : 0 < w < 4294967296) (Hh : 0 < h < 4294967296) :
  canvasSize (imageCanvasRef (loadedEditor 2000 1000 picture))
  = Some (mkSize 1024 512) /\
  canvasSize (drawingCanvasRef (loadedEditor 2000 1000 picture))
  = Some (mkSize 1024 512) /\
  let r := resizeImage w h in
  canvasSize (imageCanvasRef (loadedEditor w h picture)) = Some r /\
  canvasSize (drawingCanvasRef (loadedEditor w h picture)) = Some r /\
  if (w <=? 1024) && (h <=? 1024) then r = mkSize w h
  else if w >? h then
    sz_width r = 1024 /\
    2 * Z.abs (sz_height r * w - 1024 * h) <= w /\
    0 <= sz_height r <= 1024
  else
    sz_height r = 1024 /\
    2 * Z.abs (sz_width r * h - 1024 * w) <= h /\
    0 <= sz_width r <= 1024.
Proof.
  assert (E : resizeImage 2000 1000 = mkSize 1024 512) by (vm_compute; reflexivity).
  destruct (loadedEditor_sizes 2000 1000 picture) as [H1 H2].
  rewrite E in H1, H2.
  destruct (loadedEditor_sizes w h picture) as [H3 H4].
  split; [exact H1|]. split; [exact H2|]. cbv zeta.
  split; [exact H3|]. split; [exact H4|].
  exact (resizeImage_bounds w h Hw Hh).
Qed.

Lemma loading_fits_1024_witness :
  canvasSize (imageCanvasRef (loadedEditor 2000 1000 whiteImage))
  = Some (mkSize 1024 512) /\
  canvasSize (drawingCanvasRef (loadedEditor 2000 1000 whiteImage))
  = Some (mkSize 1024 512) /\
  let r := resizeImage 2000 1000 in
  canvasSize (imageCanvasRef (loadedEditor 2000 1000 whiteImage)) = Some r /\
  canvasSize (drawingCanvasRef (loadedEditor 2000 1000 whiteImage)) = Some r /\
  sz_width r = 1024 /\
  2 * Z.abs (sz_height r * 2000 - 1024 * 1000) <= 2000 /\
  0 <= sz_height r <= 1024.
Proof.
  exact (loading_fits_1024 2000 1000 whiteImage ltac:(lia) ltac:(lia)).
Defined.

(** ** Submission: validation and remote failure *)

Lemma trimStart_blank (s : JSString) :
  Forall (fun c => isWhiteSpace c = true) s -> trimStart s = [].
Proof.
  induction 1 as [|c s Hc _ IH]; simpl; [reflexivity|].
  rewrite Hc. exact IH.
Qed.

Lemma trim_blank (s : JSString) :
  Forall (fun c => isWhiteSpace c = true) s -> trim s = [].
Proof.
  intros H. unfold trim. rewrite (trimStart_blank s H). reflexivity.
Qed.

(** C3. A submission with a prompt made of whitespace only is rejected
    with the local validation message and without any remote call; the
    mask buffer is left as it was, while the stored edited and upscaled
    results have been reset to empty by then. *)
Theorem handleSubmit_blank_prompt (env : Env) (s : EditorState)
        (Hblank : Forall (fun c => isWhiteSpace c = true) (prompt s)) :
  let r := handleSubmit env s in
  snd r = [] /\
  error (fst r) = Some (jsstr "Please draw a mask and enter a prompt.") /\
  isLoading (fst r) = false /\
  drawingCanvasRef (fst r) = drawingCanvasRef s /\
  editedImage (fst r) = None /\
  upscaledImage (fst r) = None.
Proof.
  unfold handleSubmit. cbn [prompt setUpscaledImage setEditedImage setError
    setIsLoading imageCanvasRef drawingCanvasRef].
  rewrite (trim_blank _ Hblank). cbn [truthyStr negb].
  destruct (imageCanvasRef s) eqn:E1, (drawingCanvasRef s) eqn:E2;
    repeat split; first [reflexivity | exact E2].
Qed.

Lemma handleSubmit_blank_prompt_witness :
  let r := handleSubmit failingEnv blankPromptState in
  snd r = [] /\
  error (fst r) = Some (jsstr "Please draw a mask and enter a prompt.") /\
  isLoading (fst r) = false /\
  drawingCanvasRef (fst r) = drawingCanvasRef blankPromptState /\
  editedImage (fst r) = None /\
  upscaledImage (fst r) = None.
Proof.
  apply (handleSubmit_blank_prompt failingEnv blankPromptState).
  repeat constructor.
Defined.

(** The stored result does not survive a rejected submission, so C3
    fails where it promises that the result is left unchanged. *)
Lemma handleSubmit_blank_prompt_clears_result :
  ~ (forall (env : Env) (s : EditorState),
        Forall (fun c => isWhiteSpace c = true) (prompt s) ->
        snd (handleSubmit env s) = [] /\
        editedImage (fst (handleSubmit env s)) = editedImage s).
Proof.
  intros H.
  destruct (H failingEnv blankPromptState ltac:(repeat constructor)) as [_ E].
  vm_compute in E. discriminate E.
Qed.





(** ** The mask serializer *)

Lemma div255_mul (k : Z) : div255 (255 * k) = k.
Proof.
  unfold div255.
  replace (255 * k + 127) with (127 + k * 255) by ring.
  rewrite Z.div_add by lia. reflexivity.
Qed.

Lemma composite_over_opaque (src : Pixel) (r g b : Z) :
  pa (composite SourceOver src (mkPixel r g b 255)) = 255.
Proof.
  unfold composite. cbn [pa].
  rewrite div255_mul.
  replace (pa src + (255 - pa src)) with 255 by ring.
  reflexivity.
Qed.

Lemma paint_black_opaque (w : Z) (n : nat) (i : Z) :
  AllOpaque (paint SourceOver (mkPixel 0 0 0 255) (fun _ _ => 255) w i
                   (replicate (n * 4) 0)).
Proof.
  revert i. induction n as [|n IH]; intros i; simpl.
  - constructor.
  - constructor. apply IH.
Qed.

Lemma drawImageData_opaque (src dst : list Z) :
  AllOpaque dst -> AllOpaque (drawImageData SourceOver src dst).
Proof.
  intros H. revert src.
  induction H as [|r g b rest H IH]; intros src.
  - destruct src; constructor.
  - destruct src as [|sr [|sg [|sb [|sa srest]]]];
      try (constructor; assumption).
    cbn [drawImageData].
    rewrite composite_over_opaque. constructor. apply IH.
Qed.

Lemma binarize_opaque (data : list Z) :
  AllOpaque data -> binarize data = replicate (length data) 255.
Proof.
  induction 1 as [|r g b rest H IH]; simpl; [reflexivity|].
  rewrite IH. reflexivity.
Qed.

(** Induction over a bitmap, one pixel of four entries at a time. *)
Lemma pixels_ind (P : list Z -> Prop) :
  (forall l, (length l < 4)%nat -> P l) ->
  (forall r g b a rest, P rest -> P (r :: g :: b :: a :: rest)) ->
  forall l, P l.
Proof.
  intros Hshort Hstep l.
  assert (H : forall n l, (length l <= n)%nat -> P l).
  { clear l. induction n as [|n IH]; intros l Hl.
    - apply Hshort. lia.
    - destruct l as [|r [|g [|b [|a rest]]]];
        try (apply Hshort; simpl; lia).
      apply Hstep, IH. simpl in Hl. lia. }
  apply (H (length l)). lia.
Qed.

Lemma paint_length op color cov w (data : list Z) :
  forall i, length (paint op color cov w i data) = length data.
Proof.
  induction data as [l Hl|r g b a rest IH] using pixels_ind; intros i.
  - destruct l as [|r [|g [|b [|a rest]]]]; try reflexivity. simpl in Hl. lia.
  - cbn [paint length]. rewrite IH. reflexivity.
Qed.

Lemma drawImageData_length op (dst : list Z) :
  forall src, length (drawImageData op src dst) = length dst.
Proof.
  induction dst as [l Hl|r g b a rest IH] using pixels_ind; intros src.
  - destruct l as [|r [|g [|b [|a rest]]]];
      try (destruct src as [|sr [|sg [|sb [|sa srest]]]]; reflexivity).
    simpl in Hl. lia.
  - destruct src as [|sr [|sg [|sb [|sa srest]]]]; try reflexivity.
    cbn [drawImageData length]. rewrite IH. reflexivity.
Qed.

Lemma to_nat_4 (w h : Z) : Z.to_nat (4 * w * h) = (Z.to_nat (w * h) * 4)%nat.
Proof.
  replace (4 * w * h) with (4 * (w * h)) by ring. lia.
Qed.

(** Whatever the drawing layer holds, the serialized mask is opaque
    white everywhere: over the black fill every pixel is opaque, drawn
    on or not, and the loop whitens every pixel that is not
    transparent. *)
Lemma serializeMask_all_white (drawingCanvas : Canvas) :
  cv_bitmap (serializeMask drawingCanvas) =
  replicate (Z.to_nat (4 * cv_width drawingCanvas * cv_height drawingCanvas)) 255.
Proof.
  unfold serializeMask, putImageData, getImageData, drawImage, fillBlack,
    createCanvas, withBitmap, withCtx.
  cbn [cv_bitmap cv_ctx cv_width cv_height globalCompositeOperation fillStyle
       defaultContext].
  rewrite to_nat_4.
  rewrite binarize_opaque
    by (apply drawImageData_opaque, paint_black_opaque).
  rewrite drawImageData_length, paint_length, length_replicate.
  reflexivity.
Qed.

(** C1. In the scenario of the rectangle the drawing layer is painted
    inside the rectangle and untouched outside it: opaque accent colour
    at (10,10) and (49,49), transparent at (0,0), (9,10) and (50,50).
    The serialized mask does not tell the two apart: all of its 10000
    pixels are (255,255,255,255), those outside the rectangle included,
    where the specification has (0,0,0,0). *)
Theorem serializeMask_rectangle_scenario (picture : Image) :
  let drawn := maskBuffer (rectangleScenario picture) in
  let mask := serializedScenario picture in
  pixelXY drawn 100 10 10 = Some (mkPixel 192 132 252 255) /\
  pixelXY drawn 100 49 49 = Some (mkPixel 192 132 252 255) /\
  pixelXY drawn 100 0 0 = Some transparentBlack /\
  pixelXY drawn 100 9 10 = Some transparentBlack /\
  pixelXY drawn 100 50 50 = Some transparentBlack /\
  mask = replicate (Z.to_nat 40000) 255 /\
  pixelXY mask 100 10 10 = Some (mkPixel 255 255 255 255) /\
  pixelXY mask 100 0 0 = Some (mkPixel 255 255 255 255) /\
  pixelXY mask 100 50 50 = Some (mkPixel 255 255 255 255).
Proof.
  intros drawn mask.
  assert (Hmask : mask = replicate (Z.to_nat 40000) 255).
  { subst mask. unfold serializedScenario.
    assert (Hw : option_map cv_width (drawingCanvasRef (rectangleScenario picture))
                 = Some 100) by (vm_compute; reflexivity).
    assert (Hh : option_map cv_height (drawingCanvasRef (rectangleScenario picture))
                 = Some 100) by (vm_compute; reflexivity).
    destruct (drawingCanvasRef (rectangleScenario picture)) as [c|];
      [|discriminate Hw].
    rewrite serializeMask_all_white.
    injection Hw as Hw. injection Hh as Hh. rewrite Hw, Hh. reflexivity. }
  split; [subst drawn; vm_compute; reflexivity|].
  split; [subst drawn; vm_compute; reflexivity|].
  split; [subst drawn; vm_compute; reflexivity|].
  split; [subst drawn; vm_compute; reflexivity|].
  split; [subst drawn; vm_compute; reflexivity|].
  split; [exact Hmask|].
  rewrite Hmask. clear.
  split; [vm_compute; reflexivity|].
  split; vm_compute; reflexivity.
Qed.

(** ** The auto-mask normalizer *)

Lemma pixelAt_cons (r g b a : Z) (rest : list Z) (i : nat) :
  pixelAt (r :: g :: b :: a :: rest) (S i) = pixelAt rest i.
Proof. reflexivity. Qed.

Lemma pixelAt_short (l : list Z) (i : nat) :
  (length l < 4)%nat -> pixelAt l i = None.
Proof.
  intros H. unfold pixelAt.
  assert (Hd : (length (drop (i * 4) l) < 4)%nat) by (rewrite length_drop; lia).
  destruct (drop (i * 4) l) as [|r [|g [|b [|a rest]]]]; try reflexivity.
  simpl in Hd. lia.
Qed.

Lemma normalizeMask_pixelAt (opacity : Q) (data : list Z) :
  forall (i : nat) (p : Pixel),
    pixelAt data i = Some p ->
    pixelAt (normalizeMask opacity data) i =
    Some (if isBackground p
          then mkPixel 192 132 252 (toUint8Clamp (255 * opacity))
          else mkPixel (pr p) (pg p) (pb p) 0).
Proof.
  induction data as [l Hl|r g b a rest IH] using pixels_ind; intros i p Hp.
  - rewrite pixelAt_short in Hp by exact Hl. discriminate Hp.
  - destruct i as [|i].
    + injection Hp as <-. unfold isBackground. cbn [normalizeMask pr pg pb].
      destruct ((r >? 200) && (g >? 200) && (b >? 200)); reflexivity.
    + rewrite pixelAt_cons in Hp. cbn [normalizeMask].
      destruct ((r >? 200) && (g >? 200) && (b >? 200));
        cbn [app]; rewrite pixelAt_cons; apply IH; exact Hp.
Qed.

(** The byte that stores a fraction between 0 and 255 is a nearest
    integer to it. *)
Lemma toUint8Clamp_nearest (q : Q) :
  (0 <= q)%Q -> (q <= 255)%Q ->
  (Qabs (inject_Z (toUint8Clamp q) - q) <= 1 # 2)%Q.
Proof.
  intros H0 H255. unfold toUint8Clamp.
  apply Qabs_Qle_condition.
  destruct (Qle_bool q 0) eqn:E0.
  { apply Qle_bool_iff in E0. change (inject_Z 0) with 0%Q. split; lra. }
  destruct (Qle_bool 255 q) eqn:E1.
  { apply Qle_bool_iff in E1. change (inject_Z 255) with 255%Q. split; lra. }
  assert (Hlo := Qfloor_le q). assert (Hhi := Qlt_floor q).
  rewrite inject_Z_plus in Hhi. change (inject_Z 1) with 1%Q in Hhi.
  destruct (q - inject_Z (Qfloor q) ?= 1 # 2)%Q eqn:Ec.
  - apply Qeq_alt in Ec.
    destruct (Z.even (Qfloor q));
      rewrite ?inject_Z_plus; change (inject_Z 1) with 1%Q; split; lra.
  - apply Qlt_alt in Ec. split; lra.
  - apply Qgt_alt in Ec.
    rewrite inject_Z_plus; change (inject_Z 1) with 1%Q. split; lra.
Qed.

(** C8. The normalizer classifies a pixel of the segmentation image as
    background exactly when its red, green and blue channels are all
    strictly above 200.  A background pixel becomes the accent colour
    (192,132,252) with the alpha byte that holds 255 times the
    configured opacity (a nearest integer to it); any other pixel keeps
    its colour and gets alpha 0. *)
Theorem normalizeMask_classifies (opacity : Q) (data : list Z) (i : nat) (p : Pixel)
        (Hlow : (0 <= opacity)%Q) (Hhigh : (opacity <= 1)%Q)
        (Hp : pixelAt data i = Some p) :
  (isBackground p = true <-> 200 < pr p /\ 200 < pg p /\ 200 < pb p) /\
  pixelAt (normalizeMask opacity data) i =
    Some (if isBackground p
          then mkPixel 192 132 252 (toUint8Clamp (255 * opacity))
          else mkPixel (pr p) (pg p) (pb p) 0) /\
  (Qabs (inject_Z (toUint8Clamp (255 * opacity)) - 255 * opacity) <= 1 # 2)%Q.
Proof.
  split; [|split].
  - unfold isBackground. rewrite !andb_true_iff. lia.
  - apply normalizeMask_pixelAt, Hp.
  - apply toUint8Clamp_nearest; lra.
Qed.

Lemma normalizeMask_classifies_witness :
  pixelAt (normalizeMask (7 # 10) [250; 251; 252; 255; 250; 200; 252; 255]) 1 =
    Some (mkPixel 250 200 252 0) /\
  pixelAt (normalizeMask (7 # 10) [250; 251; 252; 255; 250; 200; 252; 255]) 0 =
    Some (mkPixel 192 132 252 178).
Proof.
  split.
  - exact (proj1 (proj2 (normalizeMask_classifies (7 # 10)
             [250; 251; 252; 255; 250; 200; 252; 255] 1 (mkPixel 250 200 252 255)
             ltac:(discriminate) ltac:(discriminate) ltac:(reflexivity)))).
  - exact (proj1 (proj2 (normalizeMask_classifies (7 # 10)
             [250; 251; 252; 255; 250; 200; 252; 255] 0 (mkPixel 250 251 252 255)
             ltac:(discriminate) ltac:(discriminate) ltac:(reflexivity)))).
Defined.

(** ** Auto-mask and the mask buffer *)

(** The mask buffer a successful run leaves: the normalized image
    composited, with the drawing context's current operation, onto the
    cleared buffer. *)
Lemma handleAutoMask_maskBuffer (env : Env) (s : EditorState) (canvas : Canvas)
      (maskImage : Image) :
  autoMaskSucceeds env s maskImage ->
  drawingCanvasRef s = Some canvas ->
  maskBuffer (fst (handleAutoMask env s)) =
  drawImageData (globalCompositeOperation (cv_ctx canvas))
    (normalizeMask (brushOpacity s)
       (maskImage (cv_width canvas) (cv_height canvas)))
    (List.map (fun _ => 0) (cv_bitmap canvas)).
Proof.
  intros (b64 & parts & m & Hfile & Hprov & Hpart & Hload & Hctx) Hc.
  unfold handleAutoMask, generateBackgroundMask.
  rewrite Hfile, Hprov, Hpart, Hload.
  cbn [drawingCanvasRef setError setIsMasking]. rewrite Hc, Hctx.
  cbn [negb]. unfold clearDrawing.
  cbn [drawingCanvasRef setError setIsMasking]. rewrite Hc.
  reflexivity.
Qed.

Lemma toUint8Clamp_range (q : Q) : 0 <= toUint8Clamp q <= 255.
Proof.
  unfold toUint8Clamp.
  destruct (Qle_bool q 0) eqn:E0; [lia|].
  destruct (Qle_bool 255 q) eqn:E1; [lia|].
  assert (E0' : ~ (q <= 0)%Q) by (rewrite <- Qle_bool_iff, E0; discriminate).
  assert (E1' : ~ (255 <= q)%Q) by (rewrite <- Qle_bool_iff, E1; discriminate).
  assert (Hf : 0 <= Qfloor q).
  { change 0 with (Qfloor 0). apply Qfloor_resp_le. lra. }
  assert (Hc : Qfloor q + 1 <= 255).
  { assert (H : Qfloor q < 255); [|lia].
    rewrite Zlt_Qlt. apply Qle_lt_trans with q; [apply Qfloor_le|].
    change (inject_Z 255) with 255%Q. lra. }
  destruct (q - inject_Z (Qfloor q) ?= 1 # 2)%Q;
    [destruct (Z.even (Qfloor q))| |]; lia.
Qed.

Lemma composite_over_clear (r g b a : Z) :
  0 <= r <= 255 -> 0 <= g <= 255 -> 0 <= b <= 255 -> 0 < a <= 255 ->
  composite SourceOver (mkPixel r g b a) transparentBlack = mkPixel r g b a.
Proof.
  intros Hr Hg Hb Ha. unfold composite, transparentBlack. cbn [pa pr pg pb].
  replace (0 * (255 - a)) with 0 by ring.
  change (div255 0) with 0. rewrite Z.add_0_r.
  assert (Ec : clamp8 a = a) by (unfold clamp8; lia). rewrite Ec.
  destruct (a =? 0) eqn:E; [lia|].
  assert (Hch : forall c, 0 <= c <= 255 ->
            clamp8 ((c * a * 255 + 0 * 0 * (255 - a) + 255 * a / 2) / (255 * a)) = c).
  { intros c Hc.
    replace (c * a * 255 + 0 * 0 * (255 - a) + 255 * a / 2)
      with (255 * a / 2 + c * (255 * a)) by ring.
    rewrite Z.div_add by lia.
    rewrite Z.div_small; [unfold clamp8; lia|].
    split; [apply Z.div_pos; lia|].
    apply Z.div_lt_upper_bound; lia. }
  rewrite !Hch by assumption. reflexivity.
Qed.

(** With source-over the cleared buffer receives the normalized image
    (up to the colour of transparent pixels), whatever it held before. *)
Lemma drawImageData_over_cleared (opacity : Q) (Y : list Z) :
  forall X : list Z,
    length X = length Y ->
    (exists n, length Y = (n * 4)%nat) ->
    drawImageData SourceOver (normalizeMask opacity Y) (List.map (fun _ => 0) X)
    = canonical (normalizeMask opacity Y).
Proof.
  induction Y as [l Hl|r g b a rest IH] using pixels_ind; intros X HX [n Hn].
  - assert (l = []) as -> by (destruct l; [reflexivity|simpl in *; lia]).
    destruct X; [reflexivity|discriminate HX].
  - destruct X as [|x0 [|x1 [|x2 [|x3 X]]]]; try discriminate HX.
    assert (HX' : length X = length rest) by (simpl in HX; lia).
    assert (Hn' : exists m, length rest = (m * 4)%nat).
    { destruct n as [|n]; [discriminate Hn|]. exists n. simpl in Hn. lia. }
    specialize (IH X HX' Hn').
    assert (Ha := toUint8Clamp_range (255 * opacity)).
    cbn [normalizeMask List.map].
    destruct ((r >? 200) && (g >? 200) && (b >? 200)); cbn [app canonical drawImageData].
    + destruct (toUint8Clamp (255 * opacity) <=? 0) eqn:E.
      * assert (E0 : toUint8Clamp (255 * opacity) = 0) by lia.
        rewrite E0. cbn. f_equal. f_equal. f_equal. f_equal. exact IH.
      * fold transparentBlack.
        rewrite composite_over_clear by lia. cbn [pr pg pb pa app].
        do 4 f_equal. exact IH.
    + cbn [composite pa pr pg pb]. cbn. do 4 f_equal. exact IH.
Qed.

(** With destination-out the cleared buffer stays empty. *)
Lemma drawImageData_out_cleared (src : list Z) :
  forall X : list Z,
    drawImageData DestinationOut src (List.map (fun _ => 0) X)
    = List.map (fun _ => 0) X.
Proof.
  intros X. revert src.
  induction X as [l Hl|r g b a rest IH] using pixels_ind; intros src.
  - destruct l as [|r [|g [|b [|a rest]]]];
      try (destruct src as [|sr [|sg [|sb [|sa srest]]]]; reflexivity).
    simpl in Hl. lia.
  - destruct src as [|sr [|sg [|sb [|sa srest]]]]; try reflexivity.
    cbn [List.map drawImageData composite pa].
    replace (0 * (255 - sa)) with 0 by ring. cbn. do 4 f_equal. apply IH.
Qed.

(** A successful run while the drawing context composites with
    source-over replaces the mask buffer by the normalized image. *)
Lemma handleAutoMask_source_over (env : Env) (s : EditorState) (canvas : Canvas)
      (maskImage : Image) (n : nat) :
  autoMaskSucceeds env s maskImage ->
  drawingCanvasRef s = Some canvas ->
  globalCompositeOperation (cv_ctx canvas) = SourceOver ->
  length (cv_bitmap canvas) = (n * 4)%nat ->
  length (maskImage (cv_width canvas) (cv_height canvas)) = (n * 4)%nat ->
  maskBuffer (fst (handleAutoMask env s)) =
  canonical (normalizeMask (brushOpacity s)
               (maskImage (cv_width canvas) (cv_height canvas))).
Proof.
  intros Hok Hc Hop HX HY.
  rewrite (handleAutoMask_maskBuffer env s canvas maskImage Hok Hc), Hop.
  apply drawImageData_over_cleared; [congruence|].
  exists n. exact HY.
Qed.

(** A successful run while the drawing context composites with
    destination-out, as the eraser leaves it, empties the mask buffer. *)
Lemma handleAutoMask_destination_out (env : Env) (s : EditorState) (canvas : Canvas)
      (maskImage : Image) :
  autoMaskSucceeds env s maskImage ->
  drawingCanvasRef s = Some canvas ->
  globalCompositeOperation (cv_ctx canvas) = DestinationOut ->
  maskBuffer (fst (handleAutoMask env s)) = List.map (fun _ => 0) (cv_bitmap canvas).
Proof.
  intros Hok Hc Hop.
  rewrite (handleAutoMask_maskBuffer env s canvas maskImage Hok Hc), Hop.
  apply drawImageData_out_cleared.
Qed.

(** C7. After an eraser stroke the drawing context is still in
    destination-out when the auto-mask composites its result: the run
    succeeds, the normalization of the white segmentation image is the
    accent colour everywhere, and yet the mask buffer ends up empty.
    After a brush stroke the same run leaves the normalized image. *)
Theorem handleAutoMask_after_eraser_scenario (picture : Image) :
  let Y := normalizeMask (7 # 10) (whiteImage 2 2) in
  let erased := fst (handleAutoMask autoMaskEnv (erasedState picture)) in
  let brushed := fst (handleAutoMask autoMaskEnv (brushedState picture)) in
  autoMaskSucceeds autoMaskEnv (erasedState picture) whiteImage /\
  error erased = None /\
  Y = [192; 132; 252; 178; 192; 132; 252; 178;
       192; 132; 252; 178; 192; 132; 252; 178] /\
  maskBuffer erased = [0; 0; 0; 0; 0; 0; 0; 0; 0; 0; 0; 0; 0; 0; 0; 0] /\
  maskBuffer brushed = Y.
Proof.
  intros Y erased brushed.
  split.
  { exists (jsstr "QUJD"), [None; Some (jsstr "TUFTSw==")], (jsstr "TUFTSw==").
    repeat split. }
  repeat split; vm_compute; reflexivity.
Qed.

(** ** The eraser *)

Lemma paint_pixelAt op color cov w (data : list Z) :
  forall (i0 : Z) (i : nat) (p : Pixel),
    pixelAt data i = Some p ->
    pixelAt (paint op color cov w i0 data) i =
    Some (let c := cov ((i0 + Z.of_nat i) mod w) ((i0 + Z.of_nat i) / w) in
          if c <=? 0 then p
          else composite op
                 (mkPixel (pr color) (pg color) (pb color) (div255 (pa color * c)))
                 p).
Proof.
  induction data as [l Hl|r g b a rest IH] using pixels_ind; intros i0 i p Hp.
  - rewrite pixelAt_short in Hp by exact Hl. discriminate Hp.
  - destruct i as [|i].
    + injection Hp as <-. cbn [paint]. rewrite Z.add_0_r.
      cbv zeta. destruct (cov (i0 mod w) (i0 / w) <=? 0); [reflexivity|].
      destruct (composite op _ _); reflexivity.
    + rewrite pixelAt_cons in Hp. cbn [paint]. rewrite pixelAt_cons.
      rewrite (IH (i0 + 1) i p Hp).
      replace (i0 + 1 + Z.of_nat i) with (i0 + Z.of_nat (S i)) by lia.
      reflexivity.
Qed.

Lemma composite_out_alpha (src dst : Pixel) :
  pa (composite DestinationOut src dst) =
  clamp8 (div255 (pa dst * (255 - pa src))).
Proof.
  unfold composite.
  destruct (clamp8 (div255 (pa dst * (255 - pa src))) =? 0) eqn:E.
  - cbn [pa transparentBlack]. lia.
  - reflexivity.
Qed.

Lemma accent_opaque (rz : Rasterizer) (opacity : Q) :
  (1 <= opacity)%Q -> pa (accent rz opacity) = 255.
Proof.
  intros H. unfold accent. cbn [pa].
  apply Qle_bool_iff in H. rewrite H. reflexivity.
Qed.

(** What [drawLine] does to a pixel the eraser stroke covers entirely. *)
Lemma drawLine_eraser_pixel (rz : Rasterizer) (s : EditorState) (c : Canvas)
      (start finish : Point) (i : nat) (p : Pixel) :
  drawingCanvasRef s = Some c ->
  activeTool s = eraser ->
  pixelAt (cv_bitmap c) i = Some p ->
  strokeCoverage rz (inject_Z (brushSize s)) start finish
                 (Z.of_nat i mod cv_width c) (Z.of_nat i / cv_width c) = 255 ->
  exists p',
    pixelAt (maskBuffer (drawLine rz s start finish)) i = Some p' /\
    pa p' = clamp8 (div255 (pa p * (255 - pa (accent rz (brushOpacity s))))).
Proof.
  intros Hc Htool Hp Hcov.
  unfold drawLine. rewrite Hc, Htool.
  unfold maskBuffer, stroke, withCtx, withBitmap.
  cbn [drawingCanvasRef setDrawingCanvas cv_bitmap cv_ctx cv_width
       globalCompositeOperation strokeStyle lineWidth].
  rewrite (paint_pixelAt _ _ _ _ _ 0 i p Hp).
  rewrite Z.add_0_l, Hcov. cbv zeta. cbn [Z.leb Z.compare].
  eexists. split; [reflexivity|].
  rewrite composite_out_alpha. cbn [pa].
  rewrite (Z.mul_comm (pa (accent rz (brushOpacity s))) 255), div255_mul.
  reflexivity.
Qed.

(** C4. At the configured opacity 1 an eraser stroke leaves alpha 0 on
    every pixel it covers entirely, whatever was painted there before.
    At a lower opacity the alpha does not return to 0 in general: at the
    initial opacity 0.7 a pixel painted by one brush stroke keeps an
    alpha above 0 under an eraser stroke that covers it entirely. *)
Theorem drawLine_eraser_clears_at_full_opacity
        (rz : Rasterizer) (s : EditorState) (c : Canvas)
        (start finish : Point) (i : nat) (p : Pixel)
        (Hc : drawingCanvasRef s = Some c)
        (Htool : activeTool s = eraser)
        (Hp : pixelAt (cv_bitmap c) i = Some p)
        (Hcov : strokeCoverage rz (inject_Z (brushSize s)) start finish
                  (Z.of_nat i mod cv_width c) (Z.of_nat i / cv_width c) = 255)
        (Hfull : (1 <= brushOpacity s)%Q) :
  (exists p',
      pixelAt (maskBuffer (drawLine rz s start finish)) i = Some p' /\
      pa p' = 0) /\
  (brushOpacity sameOpacityEraserState == 7 # 10)%Q /\
  activeTool sameOpacityEraserState = eraser /\
  strokeCoverage Sampling.rasterizer (inject_Z (brushSize sameOpacityEraserState))
    (mkPoint 0 1) (mkPoint 2 1) 0 0 = 255 /\
  exists q q',
    pixelAt (maskBuffer sameOpacityEraserState) 0 = Some q /\
    pixelAt (maskBuffer (drawLine Sampling.rasterizer sameOpacityEraserState
                           (mkPoint 0 1) (mkPoint 2 1))) 0 = Some q' /\
    0 < pa q' < pa q.
Proof.
  split.
  - destruct (drawLine_eraser_pixel rz s c start finish i p Hc Htool Hp Hcov)
      as (p' & Hp' & Ha).
    exists p'. split; [exact Hp'|].
    rewrite Ha, (accent_opaque _ _ Hfull), Z.sub_diag, Z.mul_0_r. reflexivity.
  - split; [reflexivity|]. split; [reflexivity|].
    split; [vm_compute; reflexivity|].
    eexists. eexists.
    split; [vm_compute; reflexivity|]. split; [vm_compute; reflexivity|].
    cbn [pa]. lia.
Qed.

Lemma drawLine_eraser_clears_at_full_opacity_witness :
  (exists p',
      pixelAt (maskBuffer (drawLine Sampling.rasterizer fullEraserState
                                    (mkPoint 0 1) (mkPoint 2 1))) 0 = Some p' /\
      pa p' = 0) /\
  (brushOpacity sameOpacityEraserState == 7 # 10)%Q /\
  activeTool sameOpacityEraserState = eraser /\
  strokeCoverage Sampling.rasterizer (inject_Z (brushSize sameOpacityEraserState))
    (mkPoint 0 1) (mkPoint 2 1) 0 0 = 255 /\
  exists q q',
    pixelAt (maskBuffer sameOpacityEraserState) 0 = Some q /\
    pixelAt (maskBuffer (drawLine Sampling.rasterizer sameOpacityEraserState
                           (mkPoint 0 1) (mkPoint 2 1))) 0 = Some q' /\
    0 < pa q' < pa q.
Proof.
  apply (drawLine_eraser_clears_at_full_opacity Sampling.rasterizer fullEraserState
           (drawingCanvasOf fullEraserState) (mkPoint 0 1) (mkPoint 2 1) 0%nat
           (mkPixel 192 132 252 179)).
  - vm_compute; reflexivity.
  - vm_compute; reflexivity.
  - vm_compute; reflexivity.
  - vm_compute; reflexivity.
  - vm_compute. discriminate.
Defined.

(** At the opacity the brush stroke was painted with (0.7) a full
    eraser stroke over it leaves an alpha above 0, so C4 fails where it
    promises alpha 0 at any configured opacity. *)
Lemma drawLine_eraser_leaves_paint :
  ~ (forall (rz : Rasterizer) (s : EditorState) (c : Canvas)
            (start finish : Point) (i : nat) (p : Pixel),
        drawingCanvasRef s = Some c ->
        activeTool s = eraser ->
        pixelAt (cv_bitmap c) i = Some p ->
        strokeCoverage rz (inject_Z (brushSize s)) start finish
          (Z.of_nat i mod cv_width c) (Z.of_nat i / cv_width c) = 255 ->
        exists p',
          pixelAt (maskBuffer (drawLine rz s start finish)) i = Some p' /\
          pa p' = 0).
Proof.
  intros H.
  destruct (H Sampling.rasterizer sameOpacityEraserState
              (drawingCanvasOf sameOpacityEraserState)
              (mkPoint 0 1) (mkPoint 2 1) 0%nat (mkPixel 192 132 252 179)
              ltac:(vm_compute; reflexivity) ltac:(vm_compute; reflexivity)
              ltac:(vm_compute; reflexivity) ltac:(vm_compute; reflexivity))
    as (p' & Hp' & Ha).
  vm_compute in Hp'. injection Hp' as <-. discriminate Ha.
Qed.

(** ** Flood fill *)

Lemma getIdx_setIdx_ne (data : list Z) (i j v : Z) :
  i <> j -> getIdx (setIdx data i v) j = getIdx data j.
Proof.
  intros Hij. unfold getIdx, setIdx.
  destruct (j <? 0) eqn:Ej; [reflexivity|].
  destruct (i <? 0) eqn:Ei; [reflexivity|].
  apply list_lookup_insert_ne. lia.
Qed.

Lemma setIdx_length (data : list Z) (i v : Z) :
  length (setIdx data i v) = length data.
Proof.
  unfold setIdx. destruct (i <? 0); [reflexivity|]. apply length_insert.
Qed.

Lemma Kept_paint (data0 data : list Z) (v : Z) (c : Pixel) :
  Kept data0 data ->
  gt0 (getIdx data (v * 4 + 3)) = false ->
  Kept data0 (setIdx (setIdx (setIdx (setIdx data (v * 4) (pr c))
                                     (v * 4 + 1) (pg c))
                             (v * 4 + 2) (pb c))
                     (v * 4 + 3) (pa c)).
Proof.
  intros HK Hv j k Hj Hk.
  assert (Hne : j <> v).
  { intros ->. rewrite (HK v 3 Hj ltac:(lia)) in Hv. congruence. }
  rewrite !getIdx_setIdx_ne by lia.
  apply HK; assumption.
Qed.

Lemma Unpainted_snoc (P : FillParams) (data0 data : list Z)
      (seeds : list (Z * Z)) (x y : Z) :
  Kept data0 data ->
  Unpainted P data0 seeds ->
  gt0 (getIdx data ((y * fp_width P + x) * 4 + 3)) = false ->
  Unpainted P data0 (seeds ++ [(x, y)]).
Proof.
  intros HK HU Hv x' y' Hin.
  apply in_app_or in Hin. destruct Hin as [Hin|[Heq|[]]].
  - apply HU, Hin.
  - injection Heq as <- <-.
    destruct (gt0 (getIdx data0 ((y * fp_width P + x) * 4 + 3))) eqn:E;
      [|reflexivity].
    rewrite <- (HK _ 3 E ltac:(lia)) in E. congruence.
Qed.

(** The loop keeps both. *)
Lemma floodFillLoop_invariant (P : FillParams) (data0 : list Z) (fuel : nat) :
  forall pixelStack visited data seeds data' seeds',
    Kept data0 data -> Unpainted P data0 seeds ->
    floodFillLoop fuel P pixelStack visited data seeds = Some (data', seeds') ->
    Kept data0 data' /\ Unpainted P data0 seeds'.
Proof.
  induction fuel as [|fuel IH]; intros stack visited data seeds data' seeds' HK HU;
    destruct stack as [|[x y] rest]; cbn [floodFillLoop]; intros Hrun;
    try (injection Hrun as <- <-; split; assumption);
    try discriminate Hrun.
  destruct ((x <? 0) || (x >=? fp_width P) || (y <? 0) || (y >=? fp_height P));
    [exact (IH _ _ _ _ _ _ HK HU Hrun)|].
  destruct (truthy (getIdx visited (y * fp_width P + x)));
    [exact (IH _ _ _ _ _ _ HK HU Hrun)|].
  destruct (gt0 (getIdx data ((y * fp_width P + x) * 4 + 3))) eqn:Ealpha;
    [exact (IH _ _ _ _ _ _ HK HU Hrun)|].
  destruct (withinTolerance _ _ _ && withinTolerance _ _ _ && withinTolerance _ _ _);
    [|exact (IH _ _ _ _ _ _ HK HU Hrun)].
  refine (IH _ _ _ _ _ _ _ _ Hrun).
  - apply Kept_paint; assumption.
  - apply (Unpainted_snoc P data0 data); assumption.
Qed.

(** *** The filled region *)

Lemma OnlySeeds_paint (P : FillParams) (data0 data : list Z)
      (seeds : list (Z * Z)) (x y : Z) (c : Pixel) :
  OnlySeeds P data0 data seeds ->
  OnlySeeds P data0
    (setIdx (setIdx (setIdx (setIdx data ((y * fp_width P + x) * 4) (pr c))
                            ((y * fp_width P + x) * 4 + 1) (pg c))
                    ((y * fp_width P + x) * 4 + 2) (pb c))
            ((y * fp_width P + x) * 4 + 3) (pa c))
    (seeds ++ [(x, y)]).
Proof.
  intros HO j k Hk Hne.
  destruct (Z.eq_dec j (y * fp_width P + x)) as [->|Hj].
  - exists x, y. split; [apply in_or_app; right; left|]; reflexivity.
  - rewrite !getIdx_setIdx_ne in Hne by lia.
    destruct (HO j k Hk Hne) as (x' & y' & Hin & E).
    exists x', y'. split; [apply in_or_app; left; exact Hin|exact E].
Qed.

Lemma Grown_snoc (start : Z * Z) (seeds rest : list (Z * Z)) (q : Z * Z) :
  Grown start seeds ->
  Reachable start seeds (q :: rest) ->
  Grown start (seeds ++ [q]).
Proof.
  intros HG HR i q' Hi.
  destruct (Nat.lt_ge_cases i (length seeds)) as [Hlt|Hge].
  - rewrite lookup_app_l in Hi by exact Hlt.
    destruct (HG i q' Hi) as [E|(j & p & Hj & Hp & Hadj)]; [left; exact E|].
    right. exists j, p. split; [exact Hj|]. split; [|exact Hadj].
    rewrite lookup_app_l by lia. exact Hp.
  - rewrite lookup_app_r in Hi by exact Hge.
    destruct (i - length seeds)%nat as [|m] eqn:Em; [|destruct m; discriminate Hi].
    injection Hi as <-.
    destruct (HR q ltac:(left; reflexivity)) as [E|(j & p & Hp & Hadj)];
      [left; exact E|].
    right. exists j, p.
    assert (Hj := lookup_lt_Some _ _ _ Hp).
    split; [lia|]. split; [|exact Hadj].
    rewrite lookup_app_l by exact Hj. exact Hp.
Qed.

Lemma Reachable_push (start : Z * Z) (seeds rest : list (Z * Z)) (x y : Z) :
  Reachable start seeds ((x, y) :: rest) ->
  Reachable start (seeds ++ [(x, y)])
            ((x, y - 1) :: (x, y + 1) :: (x - 1, y) :: (x + 1, y) :: rest).
Proof.
  intros HR q Hq.
  assert (Hlast : (seeds ++ [(x, y)]) !! length seeds = Some (x, y)).
  { rewrite lookup_app_r by lia. rewrite Nat.sub_diag. reflexivity. }
  destruct Hq as [<-|[<-|[<-|[<-|Hq]]]];
    try (right; exists (length seeds), (x, y); split; [exact Hlast|];
         unfold adjacent; cbn [fst snd]; tauto).
  destruct (HR q ltac:(right; exact Hq)) as [E|(j & p & Hp & Hadj)];
    [left; exact E|].
  right. exists j, p. split; [|exact Hadj].
  rewrite lookup_app_l by exact (lookup_lt_Some _ _ _ Hp). exact Hp.
Qed.

Lemma Reachable_pop (start : Z * Z) (seeds rest : list (Z * Z)) (q : Z * Z) :
  Reachable start seeds (q :: rest) -> Reachable start seeds rest.
Proof. intros HR q' Hq'. apply HR. right. exact Hq'. Qed.

(** The region the fill paints: the data changes at seeds only, and the
    seeds grow from the start pixel through neighbours. *)
Lemma floodFillLoop_region (P : FillParams) (data0 : list Z) (start : Z * Z)
      (fuel : nat) :
  forall pixelStack visited data seeds data' seeds',
    OnlySeeds P data0 data seeds ->
    Grown start seeds ->
    Reachable start seeds pixelStack ->
    floodFillLoop fuel P pixelStack visited data seeds = Some (data', seeds') ->
    OnlySeeds P data0 data' seeds' /\ Grown start seeds'.
Proof.
  induction fuel as [|fuel IH];
    intros stack visited data seeds data' seeds' HO HG HR;
    destruct stack as [|[x y] rest]; cbn [floodFillLoop]; intros Hrun;
    try (injection Hrun as <- <-; split; assumption);
    try discriminate Hrun.
  assert (HR' := Reachable_pop _ _ _ _ HR).
  destruct ((x <? 0) || (x >=? fp_width P) || (y <? 0) || (y >=? fp_height P));
    [exact (IH _ _ _ _ _ _ HO HG HR' Hrun)|].
  destruct (truthy (getIdx visited (y * fp_width P + x)));
    [exact (IH _ _ _ _ _ _ HO HG HR' Hrun)|].
  destruct (gt0 (getIdx data ((y * fp_width P + x) * 4 + 3)));
    [exact (IH _ _ _ _ _ _ HO HG HR' Hrun)|].
  destruct (withinTolerance _ _ _ && withinTolerance _ _ _ && withinTolerance _ _ _);
    [|exact (IH _ _ _ _ _ _ HO HG HR' Hrun)].
  refine (IH _ _ _ _ _ _ _ _ _ Hrun).
  - apply OnlySeeds_paint, HO.
  - apply (Grown_snoc start seeds rest), HR. exact HG.
  - apply Reachable_push, HR.
Qed.

(** For a whole fill: whatever it changes in the mask buffer lies on a
    seed, and the seeds form a 4-connected region around the start
    pixel.  As no seed was painted before the fill, the region stops at
    painted pixels. *)
Lemma floodFillRun_region (imageCanvas drawingCanvas : Canvas) (opacity : Q)
      (startPos : Point) (data : list Z) (seeds : list (Z * Z)) :
  floodFillRun imageCanvas drawingCanvas opacity startPos = Some (data, seeds) ->
  let start := (Math_floor (pt_x startPos), Math_floor (pt_y startPos)) in
  let P := fillParams imageCanvas opacity (fst start) (snd start) in
  OnlySeeds P (cv_bitmap drawingCanvas) data seeds /\
  Grown start seeds /\
  Unpainted P (cv_bitmap drawingCanvas) seeds.
Proof.
  intros Hrun start P. unfold floodFillRun in Hrun.
  assert (HO0 : OnlySeeds P (cv_bitmap drawingCanvas) (cv_bitmap drawingCanvas) []).
  { intros j k _ Hne. exfalso. apply Hne. reflexivity. }
  assert (HG0 : Grown start []).
  { intros i q Hi. rewrite lookup_nil in Hi. discriminate Hi. }
  assert (HR0 : Reachable start [] [start]).
  { intros q Hq. left. destruct Hq as [E|[]]. symmetry. exact E. }
  assert (HK0 : Kept (cv_bitmap drawingCanvas) (cv_bitmap drawingCanvas)).
  { intros j k _ _. reflexivity. }
  assert (HU0 : Unpainted P (cv_bitmap drawingCanvas) []).
  { intros x y []. }
  destruct (floodFillLoop_region P _ start _ _ _ _ _ _ _ HO0 HG0 HR0 Hrun)
    as [HO HG].
  destruct (floodFillLoop_invariant P _ _ _ _ _ _ _ _ HK0 HU0 Hrun) as [_ HU].
  split; [exact HO|]. split; [exact HG|exact HU].
Qed.

(** *** Termination *)

Lemma unvisited_replicate (n : nat) : unvisited (replicate n 0) = n.
Proof. induction n as [|n IH]; simpl; [reflexivity|]. rewrite IH. reflexivity. Qed.

Lemma unvisited_mark (visited : list Z) :
  forall n : nat,
    visited !! n = Some 0 ->
    (unvisited (<[n := 1%Z]> visited) + 1 = unvisited visited)%nat.
Proof.
  induction visited as [|v rest IH]; intros n Hn; [discriminate Hn|].
  destruct n as [|n].
  - injection Hn as ->. simpl. lia.
  - simpl in Hn. simpl. rewrite <- (IH n Hn). lia.
Qed.

Lemma unvisited_setIdx (visited : list Z) (i : Z) :
  0 <= i -> (Z.to_nat i < length visited)%nat ->
  truthy (getIdx visited i) = false ->
  (unvisited (setIdx visited i 1%Z) + 1 = unvisited visited)%nat.
Proof.
  intros Hi Hlen Hfalse. unfold getIdx in Hfalse. unfold setIdx.
  destruct (i <? 0) eqn:E; [lia|].
  destruct (lookup_lt_is_Some_2 visited (Z.to_nat i) Hlen) as [v Hv].
  rewrite Hv in Hfalse. cbn [truthy] in Hfalse.
  assert (v = 0) as -> by (destruct (v =? 0) eqn:Ev; [lia|discriminate Hfalse]).
  change (clamp8 1) with 1. apply unvisited_mark, Hv.
Qed.

(** The loop ends within the fuel: every iteration takes one entry off
    the stack, and puts four on it only when it marks a pixel. *)
Lemma floodFillLoop_terminates (P : FillParams) (fuel : nat) :
  forall pixelStack visited data seeds,
    length visited = Z.to_nat (fp_width P * fp_height P) ->
    (length pixelStack + 4 * unvisited visited <= fuel)%nat ->
    exists result, floodFillLoop fuel P pixelStack visited data seeds = Some result.
Proof.
  induction fuel as [|fuel IH]; intros stack visited data seeds Hlen Hfuel;
    destruct stack as [|[x y] rest]; cbn [floodFillLoop];
    try (eexists; reflexivity);
    cbn [length] in Hfuel; try lia.
  destruct ((x <? 0) || (x >=? fp_width P) || (y <? 0) || (y >=? fp_height P))
    eqn:Ebounds; [apply IH; [assumption|lia]|].
  destruct (truthy (getIdx visited (y * fp_width P + x))) eqn:Evisited;
    [apply IH; [assumption|lia]|].
  assert (Hx : 0 <= x < fp_width P) by lia.
  assert (Hy : 0 <= y < fp_height P) by lia.
  assert (Hidx : 0 <= y * fp_width P + x < fp_width P * fp_height P) by nia.
  assert (Hmark := unvisited_setIdx visited (y * fp_width P + x)
                     ltac:(lia) ltac:(lia) Evisited).
  assert (Hlen' : length (setIdx visited (y * fp_width P + x) 1)
                  = Z.to_nat (fp_width P * fp_height P))
    by (rewrite setIdx_length; exact Hlen).
  destruct (gt0 (getIdx data ((y * fp_width P + x) * 4 + 3)));
    [apply IH; [assumption|lia]|].
  destruct (withinTolerance _ _ _ && withinTolerance _ _ _ && withinTolerance _ _ _);
    apply IH; try assumption; cbn [length]; lia.
Qed.

(** [floodFill] always reaches the end of its loop. *)
Lemma floodFillRun_total (imageCanvas drawingCanvas : Canvas) (opacity : Q)
      (startPos : Point) :
  exists data seeds,
    floodFillRun imageCanvas drawingCanvas opacity startPos = Some (data, seeds).
Proof.
  unfold floodFillRun.
  destruct (floodFillLoop_terminates
              (fillParams imageCanvas opacity (Math_floor (pt_x startPos))
                          (Math_floor (pt_y startPos)))
              (fillFuel (fillParams imageCanvas opacity (Math_floor (pt_x startPos))
                          (Math_floor (pt_y startPos))))
              [(Math_floor (pt_x startPos), Math_floor (pt_y startPos))]
              (replicate (Z.to_nat (cv_width imageCanvas * cv_height imageCanvas)) 0)
              (getImageData drawingCanvas) [])
    as [[data seeds] Hrun].
  - apply length_replicate.
  - rewrite unvisited_replicate. unfold fillFuel.
    cbn [fillParams fp_width fp_height length]. lia.
  - exists data, seeds. exact Hrun.
Qed.

(** *** The start point and the boundary *)

Lemma floodFillRun_out_of_bounds (imageCanvas drawingCanvas : Canvas) (opacity : Q)
      (startPos : Point) :
  outOfBounds imageCanvas startPos ->
  floodFillRun imageCanvas drawingCanvas opacity startPos
  = Some (cv_bitmap drawingCanvas, []).
Proof.
  intros Hout. unfold floodFillRun, fillFuel.
  cbn [floodFillLoop fillParams fp_width fp_height].
  replace ((Math_floor (pt_x startPos) <? 0)
           || (Math_floor (pt_x startPos) >=? cv_width imageCanvas)
           || (Math_floor (pt_y startPos) <? 0)
           || (Math_floor (pt_y startPos) >=? cv_height imageCanvas)) with true.
  - destruct (4 * _)%nat; reflexivity.
  - symmetry. unfold outOfBounds in Hout. rewrite !orb_true_iff. lia.
Qed.

Lemma putImageData_same (c : Canvas) : putImageData c (cv_bitmap c) = c.
Proof. destruct c. reflexivity. Qed.

Lemma setDrawingCanvas_same (s : EditorState) (c : Canvas) :
  drawingCanvasRef s = Some c -> setDrawingCanvas (Some c) s = s.
Proof. destruct s. cbn. intros ->. reflexivity. Qed.

(** [floodFill] writes the result of its loop to the drawing canvas and
    touches nothing else. *)
Lemma floodFill_result (s : EditorState) (imageCanvas drawingCanvas : Canvas)
      (startPos : Point) (data : list Z) (seeds : list (Z * Z)) :
  imageCanvasRef s = Some imageCanvas ->
  drawingCanvasRef s = Some drawingCanvas ->
  floodFillRun imageCanvas drawingCanvas (brushOpacity s) startPos
  = Some (data, seeds) ->
  floodFill s startPos = setDrawingCanvas (Some (putImageData drawingCanvas data)) s.
Proof.
  intros Himg Hdrw Hrun. unfold floodFill. rewrite Himg, Hdrw.
  destruct ((cv_width imageCanvas <=? 0) || (cv_height imageCanvas <=? 0)) eqn:E.
  - assert (Hout : outOfBounds imageCanvas startPos).
    { unfold outOfBounds. rewrite orb_true_iff in E. lia. }
    rewrite (floodFillRun_out_of_bounds _ drawingCanvas (brushOpacity s) _ Hout)
      in Hrun.
    injection Hrun as <- <-.
    rewrite putImageData_same. symmetry. apply setDrawingCanvas_same, Hdrw.
  - rewrite Hrun. reflexivity.
Qed.

(** C5. The fill always completes, and for every pixel [(x, y)] whose
    mask alpha was above 0 before the call: its four channels in the
    mask buffer are what they were, and it is not among the seeds, the
    pixels on whose account neighbours were pushed. *)
Theorem floodFill_respects_painted
        (s : EditorState) (imageCanvas drawingCanvas : Canvas)
        (startPos : Point) (x y : Z)
        (Himg : imageCanvasRef s = Some imageCanvas)
        (Hdrw : drawingCanvasRef s = Some drawingCanvas)
        (Hpainted : gt0 (getIdx (cv_bitmap drawingCanvas)
                           ((y * cv_width imageCanvas + x) * 4 + 3)) = true) :
  exists data seeds,
    floodFillRun imageCanvas drawingCanvas (brushOpacity s) startPos
    = Some (data, seeds) /\
    maskBuffer (floodFill s startPos) = data /\
    (forall k, 0 <= k < 4 ->
       getIdx data ((y * cv_width imageCanvas + x) * 4 + k)
       = getIdx (cv_bitmap drawingCanvas) ((y * cv_width imageCanvas + x) * 4 + k)) /\
    ~ In (x, y) seeds.
Proof.
  destruct (floodFillRun_total imageCanvas drawingCanvas (brushOpacity s) startPos)
    as (data & seeds & Hrun).
  exists data, seeds. split; [exact Hrun|].
  split.
  { rewrite (floodFill_result s _ _ _ _ _ Himg Hdrw Hrun). reflexivity. }
  unfold floodFillRun in Hrun.
  apply (floodFillLoop_invariant _ (cv_bitmap drawingCanvas)) in Hrun.
  - destruct Hrun as [HK HU]. split.
    + intros k Hk. apply HK; assumption.
    + intros Hin. apply HU in Hin.
      cbn [fillParams fp_width] in Hin. congruence.
  - intros j k _ _. reflexivity.
  - intros x' y' [].
Qed.

Lemma floodFill_respects_painted_witness :
  exists data seeds,
    floodFillRun (imageCanvasOf centrePaintedState)
                 (drawingCanvasOf centrePaintedState) (7 # 10) (mkPoint 0 0)
    = Some (data, seeds) /\
    maskBuffer (floodFill centrePaintedState (mkPoint 0 0)) = data /\
    (forall k, 0 <= k < 4 ->
       getIdx data ((1 * 3 + 1) * 4 + k)
       = getIdx (cv_bitmap (drawingCanvasOf centrePaintedState))
                ((1 * 3 + 1) * 4 + k)) /\
    ~ In (1, 1) seeds.
Proof.
  apply (floodFill_respects_painted centrePaintedState
           (imageCanvasOf centrePaintedState) (drawingCanvasOf centrePaintedState)
           (mkPoint 0 0) 1 1); vm_compute; reflexivity.
Defined.

(** C6. A fill whose start point, floored, lies outside the buffer
    changes nothing: the editor's state is what it was, and the loop
    ends with the mask data it started from and without any seed. *)
Theorem floodFill_out_of_bounds_noop
        (s : EditorState) (imageCanvas : Canvas) (startPos : Point)
        (Himg : imageCanvasRef s = Some imageCanvas)
        (Hout : outOfBounds imageCanvas startPos) :
  floodFill s startPos = s /\
  forall drawingCanvas,
    drawingCanvasRef s = Some drawingCanvas ->
    floodFillRun imageCanvas drawingCanvas (brushOpacity s) startPos
    = Some (cv_bitmap drawingCanvas, []).
Proof.
  split.
  - destruct (drawingCanvasRef s) as [drawingCanvas|] eqn:Hdrw.
    + rewrite (floodFill_result s imageCanvas drawingCanvas startPos
                 (cv_bitmap drawingCanvas) [] Himg Hdrw
                 (floodFillRun_out_of_bounds _ _ _ _ Hout)).
      rewrite putImageData_same. apply setDrawingCanvas_same, Hdrw.
    + unfold floodFill. rewrite Himg, Hdrw. reflexivity.
  - intros drawingCanvas _. apply floodFillRun_out_of_bounds, Hout.
Qed.

Lemma floodFill_out_of_bounds_noop_witness :
  floodFill centrePaintedState (mkPoint 3 1) = centrePaintedState /\
  forall drawingCanvas,
    drawingCanvasRef centrePaintedState = Some drawingCanvas ->
    floodFillRun (imageCanvasOf centrePaintedState) drawingCanvas (7 # 10)
                 (mkPoint 3 1)
    = Some (cv_bitmap drawingCanvas, []).
Proof.
  apply (floodFill_out_of_bounds_noop centrePaintedState
           (imageCanvasOf centrePaintedState) (mkPoint 3 1)).
  - vm_compute; reflexivity.
  - right; left. vm_compute. discriminate.
Defined.

(** ** The fill tool and the pointer *)

Lemma floodFill_frame (s : EditorState) (startPos : Point) :
  floodFill s startPos = s \/
  exists c, floodFill s startPos = setDrawingCanvas (Some c) s.
Proof.
  unfold floodFill.
  destruct (imageCanvasRef s) as [ic|]; [|left; reflexivity].
  destruct (drawingCanvasRef s) as [dc|]; [|left; reflexivity].
  destruct ((cv_width ic <=? 0) || (cv_height ic <=? 0)); [left; reflexivity|].
  destruct (floodFillRun ic dc (brushOpacity s) startPos) as [[data seeds]|];
    [right; eexists; reflexivity|left; reflexivity].
Qed.

Lemma handleMouseMove_fill (rz : Rasterizer) (s : EditorState) (p : Point) :
  activeTool s = fill -> handleMouseMove rz s p = s.
Proof.
  intros Htool. unfold handleMouseMove. rewrite Htool.
  destruct (isDrawing s); reflexivity.
Qed.

(** C10. With the fill tool active a pointer-down is one flood fill and
    nothing more: the drawing flag, the last point, the shape origin
    and the snapshot are what they were.  Every pointer-move that
    follows, however many, leaves the whole state, and so the mask
    buffer, as the fill left it. *)
Theorem fill_tool_has_no_drag
        (rz : Rasterizer) (s : EditorState) (pos : Point) (moves : list Point)
        (Htool : activeTool s = fill) :
  let s1 := handleMouseDown s pos in
  s1 = floodFill s pos /\
  isDrawing s1 = isDrawing s /\
  lastPoint s1 = lastPoint s /\
  shapeStartPoint s1 = shapeStartPoint s /\
  canvasSnapshot s1 = canvasSnapshot s /\
  fold_left (handleMouseMove rz) moves s1 = s1 /\
  maskBuffer (fold_left (handleMouseMove rz) moves s1) = maskBuffer s1.
Proof.
  intros s1.
  assert (E : s1 = floodFill s pos).
  { subst s1. unfold handleMouseDown. rewrite Htool. reflexivity. }
  assert (Hframe : activeTool s1 = fill /\ isDrawing s1 = isDrawing s /\
                   lastPoint s1 = lastPoint s /\
                   shapeStartPoint s1 = shapeStartPoint s /\
                   canvasSnapshot s1 = canvasSnapshot s).
  { rewrite E. destruct (floodFill_frame s pos) as [->|[c ->]];
      repeat split; try exact Htool; reflexivity. }
  destruct Hframe as (Htool1 & H1 & H2 & H3 & H4).
  assert (Hmoves : fold_left (handleMouseMove rz) moves s1 = s1).
  { clear -Htool1. induction moves as [|p moves IH]; [reflexivity|].
    cbn [fold_left]. rewrite (handleMouseMove_fill rz s1 p Htool1). exact IH. }
  repeat split; try assumption. rewrite Hmoves. reflexivity.
Qed.

Lemma fill_tool_has_no_drag_witness :
  let s1 := handleMouseDown centrePaintedState (mkPoint 0 0) in
  s1 = floodFill centrePaintedState (mkPoint 0 0) /\
  isDrawing s1 = isDrawing centrePaintedState /\
  lastPoint s1 = lastPoint centrePaintedState /\
  shapeStartPoint s1 = shapeStartPoint centrePaintedState /\
  canvasSnapshot s1 = canvasSnapshot centrePaintedState /\
  fold_left (handleMouseMove Sampling.rasterizer)
            [mkPoint 1 1; mkPoint 2 0] s1 = s1 /\
  maskBuffer (fold_left (handleMouseMove Sampling.rasterizer)
                        [mkPoint 1 1; mkPoint 2 0] s1) = maskBuffer s1.
Proof.
  apply (fill_tool_has_no_drag Sampling.rasterizer centrePaintedState
           (mkPoint 0 0) [mkPoint 1 1; mkPoint 2 0]).
  vm_compute; reflexivity.
Defined.

(** * Further properties *)

(** ** Pointer positions *)

Lemma scale_inside (c lo hi : Q) (n : Z) :
  (lo < hi)%Q -> (lo <= c)%Q -> (c <= hi)%Q -> 0 <= n ->
  (0 <= (c - lo) / (hi - lo) * inject_Z n)%Q /\
  ((c - lo) / (hi - lo) * inject_Z n <= inject_Z n)%Q.
Proof.
  intros Hlt Hlo Hhi Hn.
  assert (Hd : (0 < hi - lo)%Q) by lra.
  assert (Hn' : (inject_Z 0 <= inject_Z n)%Q) by (rewrite <- Zle_Qle; exact Hn).
  change (inject_Z 0) with 0%Q in Hn'.
  assert (H0 : (0 <= (c - lo) / (hi - lo))%Q).
  { apply Qle_shift_div_l; [exact Hd|]. lra. }
  assert (H1 : ((c - lo) / (hi - lo) <= 1)%Q).
  { apply Qle_shift_div_r; [exact Hd|]. lra. }
  split.
  - apply Qmult_le_0_compat; assumption.
  - rewrite <- (Qmult_1_l (inject_Z n)) at 2.
    apply Qmult_le_compat_r; assumption.
Qed.

(** X1. A pointer inside the canvas's bounding rectangle is mapped to a
    position inside the buffer, and of a touch event only the first
    touch counts. *)
Theorem getMousePos_inside (canvas : Canvas) (rect : DOMRect) (t : Touch)
        (others : list Touch)
        (Hw : 0 <= cv_width canvas) (Hh : 0 <= cv_height canvas)
        (Hx : (rect_left rect < rect_right rect)%Q)
        (Hy : (rect_top rect < rect_bottom rect)%Q)
        (Hcx : (rect_left rect <= clientX t)%Q /\ (clientX t <= rect_right rect)%Q)
        (Hcy : (rect_top rect <= clientY t)%Q /\ (clientY t <= rect_bottom rect)%Q) :
  exists p,
    getMousePos canvas rect (MouseInput (clientX t) (clientY t)) = Some p /\
    getMousePos canvas rect (TouchInput (t :: others)) = Some p /\
    (0 <= pt_x p)%Q /\ (pt_x p <= inject_Z (cv_width canvas))%Q /\
    (0 <= pt_y p)%Q /\ (pt_y p <= inject_Z (cv_height canvas))%Q.
Proof.
  unfold getMousePos. cbn [head clientX clientY].
  assert (E1 : Qeq_bool (rect_right rect - rect_left rect) 0 = false).
  { apply not_true_is_false. intros E. apply Qeq_bool_iff in E. lra. }
  assert (E2 : Qeq_bool (rect_bottom rect - rect_top rect) 0 = false).
  { apply not_true_is_false. intros E. apply Qeq_bool_iff in E. lra. }
  rewrite E1, E2. cbn [orb].
  eexists. split; [reflexivity|]. split; [destruct t; reflexivity|].
  cbn [pt_x pt_y].
  destruct (scale_inside (clientX t) _ _ _ Hx (proj1 Hcx) (proj2 Hcx) Hw).
  destruct (scale_inside (clientY t) _ _ _ Hy (proj1 Hcy) (proj2 Hcy) Hh).
  repeat split; assumption.
Qed.

Lemma getMousePos_inside_witness :
  exists p,
    getMousePos (createCanvas 100 50) (mkDOMRect 10 210 20 120)
                (MouseInput 110 70) = Some p /\
    getMousePos (createCanvas 100 50) (mkDOMRect 10 210 20 120)
                (TouchInput [mkTouch 110 70; mkTouch 0 0]) = Some p /\
    (0 <= pt_x p)%Q /\ (pt_x p <= inject_Z 100)%Q /\
    (0 <= pt_y p)%Q /\ (pt_y p <= inject_Z 50)%Q.
Proof.
  apply (getMousePos_inside (createCanvas 100 50) (mkDOMRect 10 210 20 120)
           (mkTouch 110 70) [mkTouch 0 0]);
    cbn; try split; try lia; reflexivity || discriminate.
Defined.

(** ** Gestures *)

Lemma handleMouseMove_idle (rz : Rasterizer) (s : EditorState) (p : Point) :
  isDrawing s = false -> handleMouseMove rz s p = s.
Proof. intros H. unfold handleMouseMove. rewrite H. reflexivity. Qed.

(** X2. Pressing and releasing the pointer without moving it paints
    nothing with the brush, the eraser, the rectangle or the circle, and
    the pointer-moves that follow the release, however many and with
    whatever tool, change nothing at all. *)
Theorem click_without_move_paints_nothing
        (rz : Rasterizer) (s : EditorState) (pos : Point) (moves : list Point)
        (Htool : activeTool s <> fill) :
  let released := handleMouseUp (handleMouseDown s pos) in
  drawingCanvasRef released = drawingCanvasRef s /\
  isDrawing released = false /\
  lastPoint released = None /\
  shapeStartPoint released = None /\
  canvasSnapshot released = None /\
  fold_left (handleMouseMove rz) moves released = released.
Proof.
  intros released.
  assert (Hc : drawingCanvasRef released = drawingCanvasRef s).
  { subst released. unfold handleMouseDown.
    destruct (activeTool s); try contradiction; cbn;
      try reflexivity; destruct (drawingCanvasRef s) eqn:E; cbn;
      first [exact E | reflexivity]. }
  assert (Hidle : isDrawing released = false) by reflexivity.
  repeat split; try assumption; try reflexivity.
  induction moves as [|p moves IH]; [reflexivity|].
  cbn [fold_left]. rewrite (handleMouseMove_idle rz released p Hidle). exact IH.
Qed.

Lemma click_without_move_paints_nothing_witness :
  let released := handleMouseUp
                    (handleMouseDown (brushedState whiteImage) (mkPoint 1 1)) in
  drawingCanvasRef released = drawingCanvasRef (brushedState whiteImage) /\
  isDrawing released = false /\
  lastPoint released = None /\
  shapeStartPoint released = None /\
  canvasSnapshot released = None /\
  fold_left (handleMouseMove Sampling.rasterizer) [mkPoint 0 0; mkPoint 2 2] released
  = released.
Proof.
  apply (click_without_move_paints_nothing Sampling.rasterizer
           (brushedState whiteImage) (mkPoint 1 1) [mkPoint 0 0; mkPoint 2 2]).
  vm_compute. discriminate.
Defined.

Lemma drawLine_setLastPoint (rz : Rasterizer) (s : EditorState) (v : option Point)
      (a b : Point) :
  drawLine rz (setLastPoint v s) a b = setLastPoint v (drawLine rz s a b).
Proof.
  unfold drawLine. cbn [drawingCanvasRef setLastPoint activeTool brushSize brushOpacity].
  destruct (drawingCanvasRef s); reflexivity.
Qed.

Lemma polyline_setLastPoint (rz : Rasterizer) (moves : list Point) :
  forall (s : EditorState) (v : option Point) (p : Point),
    polyline rz (setLastPoint v s) p moves = setLastPoint v (polyline rz s p moves).
Proof.
  induction moves as [|q rest IH]; intros s v p; [reflexivity|].
  cbn [polyline]. rewrite drawLine_setLastPoint. apply IH.
Qed.

Lemma drawLine_frame (rz : Rasterizer) (s : EditorState) (a b : Point) :
  activeTool (drawLine rz s a b) = activeTool s /\
  isDrawing (drawLine rz s a b) = isDrawing s /\
  lastPoint (drawLine rz s a b) = lastPoint s.
Proof.
  unfold drawLine. destruct (drawingCanvasRef s); repeat split.
Qed.

Lemma setLastPoint_same (s : EditorState) (p : option Point) :
  lastPoint s = p -> setLastPoint p s = s.
Proof. destruct s. cbn. intros ->. reflexivity. Qed.

(** X3. While the brush or the eraser is down, a sequence of
    pointer-moves draws the chain of segments between consecutive
    pointer positions, starting at the point of the pointer-down, and
    leaves the last position as the point to continue from. *)
Theorem freehand_path_is_polyline
        (rz : Rasterizer) (moves : list Point) (s : EditorState) (p : Point)
        (Htool : activeTool s = brush \/ activeTool s = eraser)
        (Hdown : isDrawing s = true)
        (Hlast : lastPoint s = Some p) :
  fold_left (handleMouseMove rz) moves s
  = setLastPoint (Some (lastPosition p moves)) (polyline rz s p moves).
Proof.
  revert s p Htool Hdown Hlast.
  induction moves as [|q rest IH]; intros s p Htool Hdown Hlast.
  - cbn. symmetry. apply setLastPoint_same, Hlast.
  - cbn [fold_left polyline lastPosition].
    assert (E : handleMouseMove rz s q = setLastPoint (Some q) (drawLine rz s p q)).
    { unfold handleMouseMove. rewrite Hdown, Hlast.
      destruct Htool as [-> | ->]; reflexivity. }
    rewrite E.
    destruct (drawLine_frame rz s p q) as (F1 & F2 & F3).
    rewrite (IH _ q).
    + rewrite polyline_setLastPoint. destruct (polyline rz _ q rest); reflexivity.
    + cbn [activeTool setLastPoint]. rewrite F1. exact Htool.
    + cbn [isDrawing setLastPoint]. rewrite F2. exact Hdown.
    + reflexivity.
Qed.

Lemma freehand_path_is_polyline_witness :
  fold_left (handleMouseMove Sampling.rasterizer)
            [mkPoint 2 1; mkPoint 2 2; mkPoint 0 2]
            (handleMouseDown (loadedEditor 3 3 whiteImage) (mkPoint 0 1))
  = setLastPoint (Some (mkPoint 0 2))
      (polyline Sampling.rasterizer
         (handleMouseDown (loadedEditor 3 3 whiteImage) (mkPoint 0 1))
         (mkPoint 0 1) [mkPoint 2 1; mkPoint 2 2; mkPoint 0 2]).
Proof.
  apply (freehand_path_is_polyline Sampling.rasterizer
           [mkPoint 2 1; mkPoint 2 2; mkPoint 0 2]
           (handleMouseDown (loadedEditor 3 3 whiteImage) (mkPoint 0 1))
           (mkPoint 0 1)).
  - left. reflexivity.
  - reflexivity.
  - reflexivity.
Defined.

Lemma shape_move_twice (rz : Rasterizer) (s : EditorState) (origin p q : Point)
      (c : Canvas) (snapshot : list Z) :
  activeTool s = rectangle \/ activeTool s = circle ->
  isDrawing s = true ->
  shapeStartPoint s = Some origin ->
  drawingCanvasRef s = Some c ->
  canvasSnapshot s = Some snapshot ->
  handleMouseMove rz (handleMouseMove rz s p) q = handleMouseMove rz s q.
Proof.
  intros Htool Hdown Horigin Hc Hsnap.
  destruct s; cbn in Htool, Hdown, Horigin, Hc, Hsnap. subst.
  destruct c as [w h bitmap k].
  destruct Htool as [-> | ->]; reflexivity.
Qed.

Lemma shape_move_keeps (rz : Rasterizer) (s : EditorState) (origin p : Point)
      (c : Canvas) (snapshot : list Z) :
  activeTool s = rectangle \/ activeTool s = circle ->
  isDrawing s = true ->
  shapeStartPoint s = Some origin ->
  drawingCanvasRef s = Some c ->
  canvasSnapshot s = Some snapshot ->
  let s1 := handleMouseMove rz s p in
  activeTool s1 = activeTool s /\ isDrawing s1 = true /\
  shapeStartPoint s1 = Some origin /\ canvasSnapshot s1 = Some snapshot /\
  exists c1, drawingCanvasRef s1 = Some c1.
Proof.
  intros Htool Hdown Horigin Hc Hsnap.
  destruct s; cbn in Htool, Hdown, Horigin, Hc, Hsnap. subst.
  destruct Htool as [-> | ->]; cbn; repeat split; eexists; reflexivity.
Qed.

(** X4. While the rectangle or the circle is being dragged, every
    pointer-move restores the snapshot of the pointer-down before it
    draws: after any number of moves the state is the one a single move
    to the last position gives, so previews do not pile up. *)
Theorem shape_preview_not_cumulative
        (rz : Rasterizer) (moves : list Point) (s : EditorState)
        (origin q : Point) (c : Canvas) (snapshot : list Z)
        (Htool : activeTool s = rectangle \/ activeTool s = circle)
        (Hdown : isDrawing s = true)
        (Horigin : shapeStartPoint s = Some origin)
        (Hc : drawingCanvasRef s = Some c)
        (Hsnap : canvasSnapshot s = Some snapshot) :
  fold_left (handleMouseMove rz) (moves ++ [q]) s = handleMouseMove rz s q.
Proof.
  revert s c Htool Hdown Horigin Hc Hsnap.
  induction moves as [|p rest IH]; intros s c Htool Hdown Horigin Hc Hsnap;
    [reflexivity|].
  cbn [app fold_left].
  destruct (shape_move_keeps rz s origin p c snapshot Htool Hdown Horigin Hc Hsnap)
    as (K1 & K2 & K3 & K4 & c1 & K5).
  rewrite (IH (handleMouseMove rz s p) c1); try assumption.
  - apply (shape_move_twice rz s origin p q c snapshot); assumption.
  - rewrite K1. exact Htool.
Qed.

Lemma shape_preview_not_cumulative_witness :
  fold_left (handleMouseMove Sampling.rasterizer)
            ([mkPoint 3 3; mkPoint 1 2] ++ [mkPoint 2 2])
            (handleMouseDown (setActiveTool rectangle (loadedEditor 3 3 whiteImage))
                             (mkPoint 1 1))
  = handleMouseMove Sampling.rasterizer
      (handleMouseDown (setActiveTool rectangle (loadedEditor 3 3 whiteImage))
                       (mkPoint 1 1))
      (mkPoint 2 2).
Proof.
  apply (shape_preview_not_cumulative Sampling.rasterizer
           [mkPoint 3 3; mkPoint 1 2]
           (handleMouseDown (setActiveTool rectangle (loadedEditor 3 3 whiteImage))
                            (mkPoint 1 1))
           (mkPoint 1 1) (mkPoint 2 2) (createCanvas 3 3)
           (getImageData (createCanvas 3 3)));
    first [left; reflexivity | reflexivity].
Defined.

(** ** Strokes, pixel by pixel *)

Lemma paint_pixelAt_map op color cov w (data : list Z) :
  forall (i0 : Z) (i : nat),
    pixelAt (paint op color cov w i0 data) i =
    option_map
      (strokePixel op color
         (cov ((i0 + Z.of_nat i) mod w) ((i0 + Z.of_nat i) / w)))
      (pixelAt data i).
Proof.
  induction data as [l Hl|r g b a rest IH] using pixels_ind; intros i0 i.
  - rewrite !pixelAt_short; [reflexivity|exact Hl|].
    destruct l as [|r [|g [|b [|a rest]]]]; try exact Hl. simpl in Hl. lia.
  - destruct i as [|i].
    + cbn [paint]. rewrite Z.add_0_r. unfold strokePixel.
      change (pixelAt (r :: g :: b :: a :: rest) 0) with (Some (mkPixel r g b a)).
      cbn [option_map].
      destruct (cov (i0 mod w) (i0 / w) <=? 0); [reflexivity|].
      destruct (composite op _ _); reflexivity.
    + cbn [paint]. rewrite !pixelAt_cons, (IH (i0 + 1) i).
      replace (i0 + 1 + Z.of_nat i) with (i0 + Z.of_nat (S i)) by lia.
      reflexivity.
Qed.

(** What [drawLine] does to each pixel of the mask buffer. *)
Lemma drawLine_pixelAt (rz : Rasterizer) (s : EditorState) (c : Canvas)
      (start finish : Point) (i : nat) :
  drawingCanvasRef s = Some c ->
  pixelAt (maskBuffer (drawLine rz s start finish)) i =
  option_map
    (strokePixel
       (match activeTool s with eraser => DestinationOut | _ => SourceOver end)
       (accent rz (brushOpacity s))
       (strokeCoverage rz (inject_Z (brushSize s)) start finish
          (Z.of_nat i mod cv_width c) (Z.of_nat i / cv_width c)))
    (pixelAt (cv_bitmap c) i).
Proof.
  intros Hc. unfold drawLine. rewrite Hc.
  unfold maskBuffer, stroke, withCtx, withBitmap.
  cbn [drawingCanvasRef setDrawingCanvas cv_bitmap cv_ctx cv_width
       globalCompositeOperation strokeStyle lineWidth].
  rewrite paint_pixelAt_map, Z.add_0_l. reflexivity.
Qed.

(** X5. A stroke of the brush or the eraser leaves every pixel it does
    not cover exactly as it was. *)
Theorem drawLine_leaves_uncovered_pixels
        (rz : Rasterizer) (s : EditorState) (c : Canvas)
        (start finish : Point) (i : nat)
        (Hc : drawingCanvasRef s = Some c)
        (Hcov : strokeCoverage rz (inject_Z (brushSize s)) start finish
                  (Z.of_nat i mod cv_width c) (Z.of_nat i / cv_width c) <= 0) :
  pixelAt (maskBuffer (drawLine rz s start finish)) i = pixelAt (cv_bitmap c) i.
Proof.
  rewrite (drawLine_pixelAt rz s c start finish i Hc).
  unfold strokePixel.
  destruct (_ <=? 0) eqn:E; [|lia].
  destruct (pixelAt (cv_bitmap c) i); reflexivity.
Qed.

Lemma drawLine_leaves_uncovered_pixels_witness :
  pixelAt (maskBuffer (drawLine Sampling.rasterizer
                         (setBrushSize 1 (loadedEditor 3 3 whiteImage))
                         (mkPoint 0 (1 # 2)) (mkPoint 3 (1 # 2)))) 4
  = pixelAt (cv_bitmap (createCanvas 3 3)) 4.
Proof.
  apply (drawLine_leaves_uncovered_pixels Sampling.rasterizer
           (setBrushSize 1 (loadedEditor 3 3 whiteImage)) (createCanvas 3 3)
           (mkPoint 0 (1 # 2)) (mkPoint 3 (1 # 2)) 4%nat).
  - reflexivity.
  - vm_compute. discriminate.
Defined.

Lemma div255_range (a c : Z) :
  0 <= a <= 255 -> 0 <= c <= 255 -> 0 <= div255 (a * c) <= 255.
Proof.
  intros Ha Hc. unfold div255. split.
  - apply Z.div_pos; nia.
  - assert (H : (a * c + 127) / 255 < 256); [|lia].
    apply Z.div_lt_upper_bound; nia.
Qed.

Lemma clamp8_range (v : Z) : 0 <= clamp8 v <= 255.
Proof. unfold clamp8. lia. Qed.

Lemma accent_range (rz : Rasterizer) (opacity : Q) :
  0 <= pa (accent rz opacity) <= 255.
Proof.
  unfold accent. cbn [pa].
  destruct (Qle_bool 1 opacity); [lia|].
  destruct (Qle_bool opacity 0); [lia|]. apply clamp8_range.
Qed.

Lemma composite_over_alpha (src dst : Pixel) :
  0 <= pa src <= 255 -> 0 <= pa dst <= 255 ->
  pa dst <= pa (composite SourceOver src dst) <= 255.
Proof.
  intros Hs Hd. unfold composite.
  assert (Hlow : pa dst - pa src <= div255 (pa dst * (255 - pa src))).
  { unfold div255. apply Z.div_le_lower_bound; nia. }
  assert (Hr := clamp8_range (pa src + div255 (pa dst * (255 - pa src)))).
  assert (Hge : pa dst <= clamp8 (pa src + div255 (pa dst * (255 - pa src)))).
  { unfold clamp8. lia. }
  destruct (clamp8 (pa src + div255 (pa dst * (255 - pa src))) =? 0) eqn:E;
    cbn [pa transparentBlack]; lia.
Qed.

Lemma composite_out_alpha_le (src dst : Pixel) :
  0 <= pa src <= 255 -> 0 <= pa dst <= 255 ->
  0 <= pa (composite DestinationOut src dst) <= pa dst.
Proof.
  intros Hs Hd. rewrite composite_out_alpha.
  assert (H0 : 0 <= div255 (pa dst * (255 - pa src))).
  { unfold div255. apply Z.div_pos; nia. }
  assert (H1 : div255 (pa dst * (255 - pa src)) < pa dst + 1).
  { unfold div255. apply Z.div_lt_upper_bound; nia. }
  unfold clamp8. lia.
Qed.

(** X6. The brush never lowers the alpha of a pixel and the eraser never
    raises it, and either leaves it a byte: a brush stroke cannot unmask
    and an eraser stroke cannot mask. *)
Theorem drawLine_alpha_monotone
        (rz : Rasterizer) (s : EditorState) (c : Canvas)
        (start finish : Point) (i : nat) (p : Pixel)
        (Hc : drawingCanvasRef s = Some c)
        (Hp : pixelAt (cv_bitmap c) i = Some p)
        (Hbyte : 0 <= pa p <= 255)
        (Hcov : 0 <= strokeCoverage rz (inject_Z (brushSize s)) start finish
                       (Z.of_nat i mod cv_width c) (Z.of_nat i / cv_width c) <= 255) :
  exists p',
    pixelAt (maskBuffer (drawLine rz s start finish)) i = Some p' /\
    0 <= pa p' <= 255 /\
    match activeTool s with
    | eraser => pa p' <= pa p
    | _ => pa p <= pa p'
    end.
Proof.
  rewrite (drawLine_pixelAt rz s c start finish i Hc), Hp. cbn [option_map].
  eexists. split; [reflexivity|].
  unfold strokePixel.
  set (cov := strokeCoverage _ _ _ _ _ _) in *.
  destruct (cov <=? 0) eqn:E.
  { split; [exact Hbyte|]. destruct (activeTool s); lia. }
  assert (Hsrc : 0 <= div255 (pa (accent rz (brushOpacity s)) * cov) <= 255).
  { apply div255_range; [apply accent_range|exact Hcov]. }
  set (src := mkPixel _ _ _ _).
  assert (Hsrc' : 0 <= pa src <= 255) by exact Hsrc.
  assert (Hover := composite_over_alpha src p Hsrc' Hbyte).
  assert (Hout := composite_out_alpha_le src p Hsrc' Hbyte).
  destruct (activeTool s); lia.
Qed.

Lemma drawLine_alpha_monotone_witness :
  exists p',
    pixelAt (maskBuffer (drawLine Sampling.rasterizer sameOpacityEraserState
                                  (mkPoint 0 1) (mkPoint 2 1))) 0 = Some p' /\
    0 <= pa p' <= 255 /\
    pa p' <= 179.
Proof.
  apply (drawLine_alpha_monotone Sampling.rasterizer sameOpacityEraserState
           (drawingCanvasOf sameOpacityEraserState)
           (mkPoint 0 1) (mkPoint 2 1) 0%nat (mkPixel 192 132 252 179)).
  - reflexivity.
  - vm_compute; reflexivity.
  - cbn; lia.
  - vm_compute. split; discriminate.
Defined.

(** ** More on the flood fill *)

Lemma getIdx_setIdx_eq (data : list Z) (i v : Z) :
  0 <= i -> (Z.to_nat i < length data)%nat ->
  getIdx (setIdx data i v) i = Some (clamp8 v).
Proof.
  intros Hi Hlen. unfold getIdx, setIdx.
  destruct (i <? 0) eqn:E; [lia|].
  apply list_lookup_insert_eq. exact Hlen.
Qed.

Lemma truthy_setIdx_mark (visited : list Z) (i j : Z) :
  truthy (getIdx visited j) = true ->
  truthy (getIdx (setIdx visited i 1) j) = true.
Proof.
  intros H. destruct (Z.eq_dec i j) as [->|Hne].
  - unfold getIdx in H. destruct (j <? 0) eqn:E; [discriminate H|].
    destruct (visited !! Z.to_nat j) eqn:El; [|discriminate H].
    rewrite getIdx_setIdx_eq; [reflexivity|lia|].
    apply lookup_lt_Some in El. exact El.
  - rewrite getIdx_setIdx_ne by exact Hne. exact H.
Qed.

Lemma getIdx_paint (P : FillParams) (data : list Z) (v j k : Z) :
  0 <= v -> (Z.to_nat (v * 4 + 3) < length data)%nat -> 0 <= k < 4 ->
  getIdx data (j * 4 + k) = Some (fillBytes P k) \/ j = v ->
  let c := fp_fillColor P in
  getIdx (setIdx (setIdx (setIdx (setIdx data (v * 4) (pr c))
                                 (v * 4 + 1) (pg c))
                         (v * 4 + 2) (pb c))
                 (v * 4 + 3) (pa c))
         (j * 4 + k) = Some (fillBytes P k).
Proof.
  intros Hv Hlen Hk Hold c.
  destruct (Z.eq_dec j v) as [->|Hne].
  - assert (Hcases : k = 0 \/ k = 1 \/ k = 2 \/ k = 3) by lia.
    destruct Hcases as [-> | [-> | [-> | ->]]]; unfold fillBytes; cbn [Z.eqb].
    + rewrite Z.add_0_r, !getIdx_setIdx_ne by lia.
      apply getIdx_setIdx_eq; lia.
    + rewrite !getIdx_setIdx_ne by lia.
      apply getIdx_setIdx_eq; [lia|]. rewrite setIdx_length. lia.
    + rewrite !getIdx_setIdx_ne by lia.
      apply getIdx_setIdx_eq; [lia|]. rewrite !setIdx_length. lia.
    + apply getIdx_setIdx_eq; [lia|]. rewrite !setIdx_length. lia.
  - destruct Hold as [Hold|E]; [|contradiction].
    rewrite !getIdx_setIdx_ne by lia. exact Hold.
Qed.

Lemma FillState_mark (P : FillParams) (n : nat) (visited data : list Z)
      (seeds : list (Z * Z)) (i : Z) :
  FillState P n visited data seeds ->
  FillState P n (setIdx visited i 1) data seeds.
Proof.
  intros (Hv & Hd & Hnd & Hs).
  split; [rewrite setIdx_length; exact Hv|].
  split; [exact Hd|]. split; [exact Hnd|].
  intros x y Hin. destruct (Hs x y Hin) as (B & T & S & C).
  split; [exact B|]. split; [apply truthy_setIdx_mark, T|].
  split; [exact S|exact C].
Qed.

Lemma FillState_seed (P : FillParams) (n : nat) (visited data : list Z)
      (seeds : list (Z * Z)) (x y : Z) :
  FillState P n visited data seeds ->
  0 <= x < fp_width P -> 0 <= y < fp_height P ->
  truthy (getIdx visited (y * fp_width P + x)) = false ->
  similar P x y = true ->
  let v := y * fp_width P + x in
  let c := fp_fillColor P in
  FillState P n (setIdx visited v 1)
    (setIdx (setIdx (setIdx (setIdx data (v * 4) (pr c)) (v * 4 + 1) (pg c))
                    (v * 4 + 2) (pb c))
            (v * 4 + 3) (pa c))
    (seeds ++ [(x, y)]).
Proof.
  intros (Hv & Hd & Hnd & Hs) Hx Hy Hfresh Hsim v c.
  assert (Hrange : 0 <= v < fp_width P * fp_height P) by (subst v; nia).
  split; [rewrite setIdx_length; exact Hv|].
  split; [rewrite !setIdx_length; exact Hd|].
  split.
  { apply NoDup_app. split; [exact Hnd|]. split; [|apply NoDup_singleton].
    intros q Hq Hq'. apply list_elem_of_singleton in Hq'. subst q.
    apply list_elem_of_In in Hq.
    destruct (Hs x y Hq) as (_ & T & _). rewrite Hfresh in T. discriminate T. }
  intros x' y' Hin. apply in_app_or in Hin.
  assert (Hroom : (Z.to_nat (4 * fp_width P * fp_height P) <= n)%nat ->
                  (Z.to_nat (v * 4 + 3) < length data)%nat).
  { intros Hn. rewrite Hd. nia. }
  destruct Hin as [Hin|[Heq|[]]].
  - destruct (Hs x' y' Hin) as (B & T & S & C).
    split; [exact B|]. split; [apply truthy_setIdx_mark, T|].
    split; [exact S|].
    intros Hn k Hk. specialize (Hroom Hn).
    apply getIdx_paint; try lia.
    left. apply C; assumption.
  - injection Heq as <- <-. fold v.
    split; [split; assumption|].
    split; [rewrite getIdx_setIdx_eq; [reflexivity|lia|rewrite Hv; lia]|].
    split; [exact Hsim|].
    intros Hn k Hk. specialize (Hroom Hn).
    apply getIdx_paint; lia.
Qed.

(** The loop keeps [FillState] and only ever adds seeds. *)
Lemma floodFillLoop_FillState (P : FillParams) (n : nat) (fuel : nat) :
  forall pixelStack visited data seeds data' seeds',
    FillState P n visited data seeds ->
    floodFillLoop fuel P pixelStack visited data seeds = Some (data', seeds') ->
    (exists visited', FillState P n visited' data' seeds') /\
    (exists added, seeds' = seeds ++ added).
Proof.
  induction fuel as [|fuel IH]; intros stack visited data seeds data' seeds' HF;
    destruct stack as [|[x y] rest]; cbn [floodFillLoop]; intros Hrun;
    try discriminate Hrun;
    try (injection Hrun as <- <-; split;
         [exists visited; exact HF|exists []; symmetry; apply app_nil_r]).
  destruct ((x <? 0) || (x >=? fp_width P) || (y <? 0) || (y >=? fp_height P))
    eqn:Ebounds; [exact (IH _ _ _ _ _ _ HF Hrun)|].
  destruct (truthy (getIdx visited (y * fp_width P + x))) eqn:Evisited;
    [exact (IH _ _ _ _ _ _ HF Hrun)|].
  assert (HF' := FillState_mark P n visited data seeds (y * fp_width P + x) HF).
  destruct (gt0 (getIdx data ((y * fp_width P + x) * 4 + 3)));
    [exact (IH _ _ _ _ _ _ HF' Hrun)|].
  destruct (withinTolerance _ _ _ && withinTolerance _ _ _ && withinTolerance _ _ _)
    eqn:Esim; [|exact (IH _ _ _ _ _ _ HF' Hrun)].
  assert (HF'' := FillState_seed P n visited data seeds x y HF
                    ltac:(lia) ltac:(lia) Evisited Esim).
  destruct (IH _ _ _ _ _ _ HF'' Hrun) as [Hstate [added Hadded]].
  split; [exact Hstate|].
  exists ((x, y) :: added). rewrite Hadded, <- app_assoc. reflexivity.
Qed.

Lemma FillState_initial (P : FillParams) (data : list Z) :
  FillState P (length data)
            (replicate (Z.to_nat (fp_width P * fp_height P)) 0) data [].
Proof.
  split; [apply length_replicate|]. split; [reflexivity|].
  split; [apply NoDup_nil; exact I|]. intros x y [].
Qed.

Lemma withinTolerance_spec (c start : option Z) :
  withinTolerance c start tolerance = true <->
  exists a b, c = Some a /\ start = Some b /\ Z.abs (a - b) <= 30.
Proof.
  unfold withinTolerance, tolerance. split.
  - destruct c as [a|], start as [b|]; try discriminate.
    intros H. exists a, b. repeat split. lia.
  - intros (a & b & -> & -> & H). lia.
Qed.

(** X7. Every pixel a fill paints lies inside the buffer and has, in the
    image, red, green and blue each within 30 of the start pixel's; and
    no pixel is painted twice. *)
Theorem floodFill_paints_similar_pixels_once
        (imageCanvas drawingCanvas : Canvas) (opacity : Q) (startPos : Point)
        (data : list Z) (seeds : list (Z * Z))
        (Hrun : floodFillRun imageCanvas drawingCanvas opacity startPos
                = Some (data, seeds)) :
  let w := cv_width imageCanvas in
  let image := cv_bitmap imageCanvas in
  let start := (Math_floor (pt_y startPos) * w + Math_floor (pt_x startPos)) * 4 in
  NoDup seeds /\
  forall x y, In (x, y) seeds ->
    0 <= x < w /\ 0 <= y < cv_height imageCanvas /\
    exists r g b r0 g0 b0,
      getIdx image ((y * w + x) * 4) = Some r /\
      getIdx image ((y * w + x) * 4 + 1) = Some g /\
      getIdx image ((y * w + x) * 4 + 2) = Some b /\
      getIdx image start = Some r0 /\
      getIdx image (start + 1) = Some g0 /\
      getIdx image (start + 2) = Some b0 /\
      Z.abs (r - r0) <= 30 /\ Z.abs (g - g0) <= 30 /\ Z.abs (b - b0) <= 30.
Proof.
  intros w image start. unfold floodFillRun in Hrun.
  destruct (floodFillLoop_FillState _ _ _ _ _ _ _ _ _
              (FillState_initial _ (getImageData drawingCanvas)) Hrun)
    as [[visited' (_ & _ & Hnd & Hs)] _].
  split; [exact Hnd|].
  intros x y Hin. destruct (Hs x y Hin) as ((Bx & By) & _ & S & _).
  split; [exact Bx|]. split; [exact By|].
  unfold similar in S. rewrite !andb_true_iff in S.
  destruct S as [[Sr Sg] Sb].
  apply withinTolerance_spec in Sr, Sg, Sb.
  destruct Sr as (r & r0 & Hr & Hr0 & Dr).
  destruct Sg as (g & g0 & Hg & Hg0 & Dg).
  destruct Sb as (b & b0 & Hb & Hb0 & Db).
  exists r, g, b, r0, g0, b0. repeat split; assumption.
Qed.

Lemma floodFill_paints_similar_pixels_once_witness :
  NoDup [(0, 0); (0, 1); (0, 2); (1, 2); (2, 2); (2, 1); (2, 0); (1, 0)] /\
  forall x y,
    In (x, y) [(0, 0); (0, 1); (0, 2); (1, 2); (2, 2); (2, 1); (2, 0); (1, 0)] ->
    0 <= x < 3 /\ 0 <= y < 3 /\
    exists r g b r0 g0 b0,
      getIdx (whiteImage 3 3) ((y * 3 + x) * 4) = Some r /\
      getIdx (whiteImage 3 3) ((y * 3 + x) * 4 + 1) = Some g /\
      getIdx (whiteImage 3 3) ((y * 3 + x) * 4 + 2) = Some b /\
      getIdx (whiteImage 3 3) 0 = Some r0 /\
      getIdx (whiteImage 3 3) (0 + 1) = Some g0 /\
      getIdx (whiteImage 3 3) (0 + 2) = Some b0 /\
      Z.abs (r - r0) <= 30 /\ Z.abs (g - g0) <= 30 /\ Z.abs (b - b0) <= 30.
Proof.
  apply (floodFill_paints_similar_pixels_once
           (imageCanvasOf centrePaintedState) (drawingCanvasOf centrePaintedState)
           (7 # 10) (mkPoint 0 0)
           [192; 132; 252; 179; 192; 132; 252; 179; 192; 132; 252; 179;
            192; 132; 252; 179; 192; 132; 252; 179; 192; 132; 252; 179;
            192; 132; 252; 179; 192; 132; 252; 179; 192; 132; 252; 179]).
  vm_compute. reflexivity.
Defined.

Lemma cell_injective (w x y x' y' : Z) :
  0 <= x < w -> 0 <= x' < w -> y * w + x = y' * w + x' -> x = x' /\ y = y'.
Proof.
  intros Hx Hx' E.
  destruct (Z.div_mod_unique w y y' x x') as [Ey Ex]; [left; lia|left; lia|lia|].
  split; assumption.
Qed.

(** X8. On a mask buffer of the image's size a fill writes the accent
    colour, with the alpha byte of the configured opacity, on every seed
    and leaves every other pixel of the buffer as it was. *)
Theorem floodFill_writes_fill_colour
        (imageCanvas drawingCanvas : Canvas) (opacity : Q) (startPos : Point)
        (data : list Z) (seeds : list (Z * Z)) (x y : Z)
        (Hlen : length (cv_bitmap drawingCanvas)
                = Z.to_nat (4 * cv_width imageCanvas * cv_height imageCanvas))
        (Hrun : floodFillRun imageCanvas drawingCanvas opacity startPos
                = Some (data, seeds))
        (Hx : 0 <= x < cv_width imageCanvas)
        (Hy : 0 <= y < cv_height imageCanvas) :
  let i := (y * cv_width imageCanvas + x) * 4 in
  (In (x, y) seeds ->
   getIdx data i = Some 192 /\ getIdx data (i + 1) = Some 132 /\
   getIdx data (i + 2) = Some 252 /\
   getIdx data (i + 3) = Some (clamp8 (Math_round (255 * opacity)))) /\
  (~ In (x, y) seeds ->
   forall k, 0 <= k < 4 ->
     getIdx data (i + k) = getIdx (cv_bitmap drawingCanvas) (i + k)).
Proof.
  intros i. unfold floodFillRun in Hrun.
  set (P := fillParams imageCanvas opacity (Math_floor (pt_x startPos))
                       (Math_floor (pt_y startPos))) in *.
  destruct (floodFillLoop_FillState _ _ _ _ _ _ _ _ _
              (FillState_initial P (getImageData drawingCanvas)) Hrun)
    as [[visited' (_ & _ & _ & Hs)] _].
  split.
  - intros Hin. destruct (Hs x y Hin) as (_ & _ & _ & C).
    assert (Hroom : (Z.to_nat (4 * fp_width P * fp_height P)
                     <= length (getImageData drawingCanvas))%nat).
    { unfold getImageData. rewrite Hlen. reflexivity. }
    specialize (C Hroom).
    assert (C0 := C 0 ltac:(lia)). assert (C1 := C 1 ltac:(lia)).
    assert (C2 := C 2 ltac:(lia)). assert (C3 := C 3 ltac:(lia)).
    rewrite Z.add_0_r in C0.
    repeat split; assumption.
  - intros Hout k Hk.
    set (start := (Math_floor (pt_x startPos), Math_floor (pt_y startPos))).
    assert (HO0 : OnlySeeds P (cv_bitmap drawingCanvas) (cv_bitmap drawingCanvas) []).
    { intros j k' _ Hne. exfalso. apply Hne. reflexivity. }
    assert (HG0 : Grown start []).
    { intros n q Hn. rewrite lookup_nil in Hn. discriminate Hn. }
    assert (HR0 : Reachable start [] [start]).
    { intros q Hq. left. destruct Hq as [E|[]]. symmetry. exact E. }
    destruct (floodFillLoop_region P _ start _ _ _ _ _ _ _ HO0 HG0 HR0 Hrun)
      as [HO _].
    destruct (decide (getIdx data (i + k) = getIdx (cv_bitmap drawingCanvas) (i + k)))
      as [E|Hne]; [exact E|].
    destruct (HO (y * cv_width imageCanvas + x) k Hk Hne) as (x' & y' & Hin' & E').
    destruct (Hs x' y' Hin') as ((Bx & _) & _).
    destruct (cell_injective (cv_width imageCanvas) x' y' x y Bx Hx E') as [-> ->].
    contradiction.
Qed.

Lemma floodFill_writes_fill_colour_witness :
  (In (2, 1) cornerFillSeeds ->
   getIdx cornerFillData 20 = Some 192 /\ getIdx cornerFillData (20 + 1) = Some 132 /\
   getIdx cornerFillData (20 + 2) = Some 252 /\
   getIdx cornerFillData (20 + 3) = Some 179) /\
  (~ In (2, 1) cornerFillSeeds ->
   forall k, 0 <= k < 4 ->
     getIdx cornerFillData (20 + k)
     = getIdx (cv_bitmap (drawingCanvasOf centrePaintedState)) (20 + k)).
Proof.
  apply (floodFill_writes_fill_colour
           (imageCanvasOf centrePaintedState) (drawingCanvasOf centrePaintedState)
           (7 # 10) (mkPoint 0 0) cornerFillData cornerFillSeeds 2 1);
    first [reflexivity | cbn; lia].
Defined.

(** X9. The pixels a fill paints form one region grown from the start
    pixel: the mask data changes on seeds only, every seed is the start
    pixel or one of the four neighbours of an earlier seed, and no seed
    was painted before the fill. *)
Theorem floodFill_region_is_connected
        (imageCanvas drawingCanvas : Canvas) (opacity : Q)
        (startPos : Point) (data : list Z) (seeds : list (Z * Z))
        (Hrun : floodFillRun imageCanvas drawingCanvas opacity startPos
                = Some (data, seeds)) :
  let start := (Math_floor (pt_x startPos), Math_floor (pt_y startPos)) in
  let w := cv_width imageCanvas in
  (forall j k, 0 <= k < 4 ->
     getIdx data (j * 4 + k) <> getIdx (cv_bitmap drawingCanvas) (j * 4 + k) ->
     exists x y, In (x, y) seeds /\ y * w + x = j) /\
  (forall (i : nat) (q : Z * Z),
     seeds !! i = Some q ->
     q = start \/
     exists (j : nat) (p : Z * Z),
       (j < i)%nat /\ seeds !! j = Some p /\
       (q = (fst p + 1, snd p) \/ q = (fst p - 1, snd p) \/
        q = (fst p, snd p + 1) \/ q = (fst p, snd p - 1))) /\
  (forall x y, In (x, y) seeds ->
     gt0 (getIdx (cv_bitmap drawingCanvas) ((y * w + x) * 4 + 3)) = false).
Proof.
  intros start w. unfold floodFillRun in Hrun. fold start in Hrun.
  set (P := fillParams imageCanvas opacity (fst start) (snd start)) in *.
  assert (HO0 : OnlySeeds P (cv_bitmap drawingCanvas) (cv_bitmap drawingCanvas) []).
  { intros j k _ Hne. exfalso. apply Hne. reflexivity. }
  assert (HG0 : Grown start []).
  { intros i q Hi. rewrite lookup_nil in Hi. discriminate Hi. }
  assert (HR0 : Reachable start [] [start]).
  { intros q Hq. left. destruct Hq as [E|[]]. symmetry. exact E. }
  assert (HK0 : Kept (cv_bitmap drawingCanvas) (cv_bitmap drawingCanvas)).
  { intros j k _ _. reflexivity. }
  assert (HU0 : Unpainted P (cv_bitmap drawingCanvas) []).
  { intros x y []. }
  destruct (floodFillLoop_region P _ start _ _ _ _ _ _ _ HO0 HG0 HR0 Hrun)
    as [HO HG].
  destruct (floodFillLoop_invariant P _ _ _ _ _ _ _ _ HK0 HU0 Hrun) as [_ HU].
  split; [exact HO|]. split; [exact HG|exact HU].
Qed.

Lemma floodFill_region_is_connected_witness :
  (forall j k, 0 <= k < 4 ->
     getIdx cornerFillData (j * 4 + k)
     <> getIdx (cv_bitmap (drawingCanvasOf centrePaintedState)) (j * 4 + k) ->
     exists x y, In (x, y) cornerFillSeeds /\ y * 3 + x = j) /\
  (forall (i : nat) (q : Z * Z),
     cornerFillSeeds !! i = Some q ->
     q = (0, 0) \/
     exists (j : nat) (p : Z * Z),
       (j < i)%nat /\ cornerFillSeeds !! j = Some p /\
       (q = (fst p + 1, snd p) \/ q = (fst p - 1, snd p) \/
        q = (fst p, snd p + 1) \/ q = (fst p, snd p - 1))) /\
  (forall x y, In (x, y) cornerFillSeeds ->
     gt0 (getIdx (cv_bitmap (drawingCanvasOf centrePaintedState))
                 ((y * 3 + x) * 4 + 3)) = false).
Proof.
  apply (floodFill_region_is_connected
           (imageCanvasOf centrePaintedState) (drawingCanvasOf centrePaintedState)
           (7 # 10) (mkPoint 0 0) cornerFillData cornerFillSeeds).
  reflexivity.
Defined.

Lemma truthy_unvisited (n : nat) (i : Z) :
  truthy (getIdx (replicate n 0) i) = false.
Proof.
  unfold getIdx. destruct (i <? 0); [reflexivity|].
  destruct (replicate n 0 !! Z.to_nat i) as [v|] eqn:E; [|reflexivity].
  apply lookup_replicate in E. destruct E as [-> _]. reflexivity.
Qed.

Lemma floodFillRun_painted_start (imageCanvas drawingCanvas : Canvas) (opacity : Q)
      (startPos : Point) :
  gt0 (getIdx (cv_bitmap drawingCanvas)
         ((Math_floor (pt_y startPos) * cv_width imageCanvas
           + Math_floor (pt_x startPos)) * 4 + 3)) = true ->
  floodFillRun imageCanvas drawingCanvas opacity startPos
  = Some (cv_bitmap drawingCanvas, []).
Proof.
  intros Hpainted. unfold floodFillRun, fillFuel.
  cbn [floodFillLoop fillParams fp_width fp_height].
  destruct (_ || _ || _ || _); [destruct (4 * _)%nat; reflexivity|].
  rewrite truthy_unvisited. unfold getImageData. rewrite Hpainted.
  destruct (4 * _)%nat; reflexivity.
Qed.

(** X10. A fill started on a pixel that is already masked changes
    nothing: nothing is painted and the editor's state is what it
    was. *)
Theorem floodFill_on_masked_pixel_noop
        (s : EditorState) (imageCanvas drawingCanvas : Canvas) (startPos : Point)
        (Himg : imageCanvasRef s = Some imageCanvas)
        (Hdrw : drawingCanvasRef s = Some drawingCanvas)
        (Hpainted : gt0 (getIdx (cv_bitmap drawingCanvas)
                           ((Math_floor (pt_y startPos) * cv_width imageCanvas
                             + Math_floor (pt_x startPos)) * 4 + 3)) = true) :
  floodFill s startPos = s /\
  floodFillRun imageCanvas drawingCanvas (brushOpacity s) startPos
  = Some (cv_bitmap drawingCanvas, []).
Proof.
  assert (Hrun := floodFillRun_painted_start imageCanvas drawingCanvas
                    (brushOpacity s) startPos Hpainted).
  split; [|exact Hrun].
  rewrite (floodFill_result s _ _ _ _ _ Himg Hdrw Hrun), putImageData_same.
  apply setDrawingCanvas_same, Hdrw.
Qed.

Lemma floodFill_on_masked_pixel_noop_witness :
  floodFill centrePaintedState (mkPoint (3 # 2) (3 # 2)) = centrePaintedState /\
  floodFillRun (imageCanvasOf centrePaintedState)
               (drawingCanvasOf centrePaintedState) (7 # 10)
               (mkPoint (3 # 2) (3 # 2))
  = Some (cv_bitmap (drawingCanvasOf centrePaintedState), []).
Proof.
  apply (floodFill_on_masked_pixel_noop centrePaintedState
           (imageCanvasOf centrePaintedState) (drawingCanvasOf centrePaintedState)
           (mkPoint (3 # 2) (3 # 2))); vm_compute; reflexivity.
Defined.

Lemma floodFillLoop_extends (P : FillParams) (fuel : nat) :
  forall pixelStack visited data seeds data' seeds',
    floodFillLoop fuel P pixelStack visited data seeds = Some (data', seeds') ->
    exists added, seeds' = seeds ++ added.
Proof.
  induction fuel as [|fuel IH]; intros stack visited data seeds data' seeds';
    destruct stack as [|[x y] rest]; cbn [floodFillLoop]; intros Hrun;
    try discriminate Hrun;
    try (injection Hrun as <- <-; exists []; symmetry; apply app_nil_r).
  destruct (_ || _ || _ || _); [exact (IH _ _ _ _ _ _ Hrun)|].
  destruct (truthy _); [exact (IH _ _ _ _ _ _ Hrun)|].
  destruct (gt0 _); [exact (IH _ _ _ _ _ _ Hrun)|].
  destruct (_ && _ && _); [|exact (IH _ _ _ _ _ _ Hrun)].
  destruct (IH _ _ _ _ _ _ Hrun) as [added Hadded].
  exists ((x, y) :: added). rewrite Hadded, <- app_assoc. reflexivity.
Qed.

Lemma withinTolerance_same (c : option Z) :
  withinTolerance c c tolerance = false -> c = None.
Proof.
  destruct c as [a|]; [|reflexivity].
  cbn [withinTolerance]. rewrite Z.sub_diag. discriminate.
Qed.

(** The first iteration of a fill whose start pixel is in the buffer and
    not masked: the start pixel becomes the first seed when the image
    has a colour there, and the fill ends at once when it has not. *)
Lemma floodFillRun_first_step (imageCanvas drawingCanvas : Canvas) (opacity : Q)
      (startPos : Point) (data : list Z) (seeds : list (Z * Z)) :
  let sx := Math_floor (pt_x startPos) in
  let sy := Math_floor (pt_y startPos) in
  0 <= sx < cv_width imageCanvas -> 0 <= sy < cv_height imageCanvas ->
  gt0 (getIdx (cv_bitmap drawingCanvas)
         ((sy * cv_width imageCanvas + sx) * 4 + 3)) = false ->
  floodFillRun imageCanvas drawingCanvas opacity startPos = Some (data, seeds) ->
  (exists added, seeds = (sx, sy) :: added) \/
  (data = cv_bitmap drawingCanvas /\ seeds = [] /\
   exists k, 0 <= k < 3 /\
     getIdx (cv_bitmap imageCanvas) ((sy * cv_width imageCanvas + sx) * 4 + k) = None).
Proof.
  intros sx sy Hx Hy Hclear. unfold floodFillRun, fillFuel.
  fold sx sy. cbn [floodFillLoop fillParams fp_width fp_height fp_image
                   fp_startR fp_startG fp_startB].
  replace ((sx <? 0) || (sx >=? cv_width imageCanvas) || (sy <? 0)
           || (sy >=? cv_height imageCanvas)) with false
    by (symmetry; rewrite !orb_false_iff; lia).
  rewrite truthy_unvisited. unfold getImageData at 1. rewrite Hclear.
  unfold getImageData.
  set (i := (sy * cv_width imageCanvas + sx) * 4).
  destruct (withinTolerance _ _ _ && withinTolerance _ _ _ && withinTolerance _ _ _)
    eqn:Esim; intros Hrun.
  - left. destruct (floodFillLoop_extends _ _ _ _ _ _ _ _ Hrun) as [added ->].
    exists added. reflexivity.
  - right.
    assert (E : data = cv_bitmap drawingCanvas /\ seeds = []).
    { destruct (4 * _)%nat; injection Hrun as <- <-; split; reflexivity. }
    destruct E as [-> ->]. split; [reflexivity|]. split; [reflexivity|].
    rewrite !andb_false_iff in Esim.
    destruct Esim as [[E|E]|E]; apply withinTolerance_same in E.
    + exists 0. rewrite Z.add_0_r. split; [lia|exact E].
    + exists 1. split; [lia|exact E].
    + exists 2. split; [lia|exact E].
Qed.

Lemma getIdx_in_range (data : list Z) (i : Z) :
  0 <= i -> (Z.to_nat i < length data)%nat -> getIdx data i <> None.
Proof.
  intros Hi Hlen. unfold getIdx. destruct (i <? 0) eqn:E; [lia|].
  destruct (lookup_lt_is_Some_2 data (Z.to_nat i) Hlen) as [v ->]. discriminate.
Qed.

(** X11. A fill started on a pixel that lies in the buffer and is not
    masked yet paints at least that pixel: it is the first seed. *)
Theorem floodFill_paints_start_pixel
        (imageCanvas drawingCanvas : Canvas) (opacity : Q) (startPos : Point)
        (Hx : 0 <= Math_floor (pt_x startPos) < cv_width imageCanvas)
        (Hy : 0 <= Math_floor (pt_y startPos) < cv_height imageCanvas)
        (Hclear : gt0 (getIdx (cv_bitmap drawingCanvas)
                         ((Math_floor (pt_y startPos) * cv_width imageCanvas
                           + Math_floor (pt_x startPos)) * 4 + 3)) = false)
        (Himage : (Z.to_nat (4 * cv_width imageCanvas * cv_height imageCanvas)
                   <= length (cv_bitmap imageCanvas))%nat) :
  exists data added,
    floodFillRun imageCanvas drawingCanvas opacity startPos
    = Some (data, (Math_floor (pt_x startPos), Math_floor (pt_y startPos)) :: added).
Proof.
  destruct (floodFillRun_total imageCanvas drawingCanvas opacity startPos)
    as (data & seeds & Hrun).
  destruct (floodFillRun_first_step _ _ _ _ _ _ Hx Hy Hclear Hrun)
    as [[added ->]|(_ & _ & k & Hk & Hnone)].
  - exists data, added. exact Hrun.
  - exfalso. revert Hnone. apply getIdx_in_range; nia.
Qed.

Lemma floodFill_paints_start_pixel_witness :
  exists data added,
    floodFillRun (imageCanvasOf centrePaintedState)
                 (drawingCanvasOf centrePaintedState) (7 # 10) (mkPoint 0 0)
    = Some (data, (0, 0) :: added).
Proof.
  apply (floodFill_paints_start_pixel
           (imageCanvasOf centrePaintedState) (drawingCanvasOf centrePaintedState)
           (7 # 10) (mkPoint 0 0)).
  - vm_compute. split; [discriminate|reflexivity].
  - vm_compute. split; [discriminate|reflexivity].
  - reflexivity.
  - vm_compute. apply le_n.
Defined.

(** X12. Filling twice at the same point is filling once, on a mask
    buffer of the image's size and at an opacity whose alpha byte is
    not 0: the first fill masks the start pixel if it paints at all, and
    a fill started on a masked pixel does nothing. *)
Theorem floodFill_twice
        (s : EditorState) (imageCanvas drawingCanvas : Canvas) (startPos : Point)
        (Himg : imageCanvasRef s = Some imageCanvas)
        (Hdrw : drawingCanvasRef s = Some drawingCanvas)
        (Hlen : length (cv_bitmap drawingCanvas)
                = Z.to_nat (4 * cv_width imageCanvas * cv_height imageCanvas))
        (Hvisible : 1 <= Math_round (255 * brushOpacity s)) :
  floodFill (floodFill s startPos) startPos = floodFill s startPos.
Proof.
  destruct (floodFillRun_total imageCanvas drawingCanvas (brushOpacity s) startPos)
    as (data & seeds & Hrun).
  assert (Hnoop : data = cv_bitmap drawingCanvas ->
                  floodFill (floodFill s startPos) startPos = floodFill s startPos).
  { intros ->.
    assert (E : floodFill s startPos = s).
    { rewrite (floodFill_result s _ _ _ _ _ Himg Hdrw Hrun).
      rewrite putImageData_same. apply setDrawingCanvas_same, Hdrw. }
    rewrite !E. reflexivity. }
  assert (Hbounds :
            outOfBounds imageCanvas startPos \/
            (0 <= Math_floor (pt_x startPos) < cv_width imageCanvas /\
             0 <= Math_floor (pt_y startPos) < cv_height imageCanvas))
    by (unfold outOfBounds; lia).
  destruct Hbounds as [Hout|[Hx Hy]].
  { apply Hnoop.
    rewrite (floodFillRun_out_of_bounds _ drawingCanvas (brushOpacity s) _ Hout)
      in Hrun.
    injection Hrun as <- <-. reflexivity. }
  destruct (gt0 (getIdx (cv_bitmap drawingCanvas)
                   ((Math_floor (pt_y startPos) * cv_width imageCanvas
                     + Math_floor (pt_x startPos)) * 4 + 3))) eqn:Hmasked.
  { apply Hnoop.
    rewrite (floodFillRun_painted_start _ _ (brushOpacity s) _ Hmasked) in Hrun.
    injection Hrun as <- <-. reflexivity. }
  destruct (floodFillRun_first_step _ _ _ _ _ _ Hx Hy Hmasked Hrun)
    as [[added Hseeds]|(E & _ & _)]; [|apply Hnoop, E].
  assert (Hrun' := Hrun). unfold floodFillRun in Hrun'.
  destruct (floodFillLoop_FillState _ _ _ _ _ _ _ _ _
              (FillState_initial _ (getImageData drawingCanvas)) Hrun')
    as [[visited' (_ & _ & _ & Hs)] _].
  destruct (Hs _ _ ltac:(rewrite Hseeds; left; reflexivity)) as (_ & _ & _ & C).
  assert (Halpha := C ltac:(unfold getImageData; rewrite Hlen; reflexivity)
                      3 ltac:(lia)).
  assert (Halpha' :
            getIdx data
              ((Math_floor (pt_y startPos) * cv_width imageCanvas
                + Math_floor (pt_x startPos)) * 4 + 3)
            = Some (clamp8 (Math_round (255 * brushOpacity s)))) by exact Halpha.
  set (s1 := floodFill s startPos).
  assert (E1 : s1 = setDrawingCanvas (Some (putImageData drawingCanvas data)) s)
    by (apply (floodFill_result s _ _ _ _ _ Himg Hdrw Hrun)).
  assert (Himg1 : imageCanvasRef s1 = Some imageCanvas) by (rewrite E1; exact Himg).
  assert (Hdrw1 : drawingCanvasRef s1 = Some (putImageData drawingCanvas data))
    by (rewrite E1; reflexivity).
  assert (Hop1 : brushOpacity s1 = brushOpacity s) by (rewrite E1; reflexivity).
  assert (Hmasked1 : gt0 (getIdx (cv_bitmap (putImageData drawingCanvas data))
                            ((Math_floor (pt_y startPos) * cv_width imageCanvas
                              + Math_floor (pt_x startPos)) * 4 + 3)) = true).
  { cbn [putImageData withBitmap cv_bitmap]. rewrite Halpha'.
    cbn [gt0]. unfold clamp8. lia. }
  assert (Hrun1 := floodFillRun_painted_start imageCanvas
                     (putImageData drawingCanvas data) (brushOpacity s1)
                     startPos Hmasked1).
  rewrite (floodFill_result s1 _ _ _ _ _ Himg1 Hdrw1 Hrun1), putImageData_same.
  apply setDrawingCanvas_same, Hdrw1.
Qed.

Lemma floodFill_twice_witness :
  floodFill (floodFill centrePaintedState (mkPoint 0 0)) (mkPoint 0 0)
  = floodFill centrePaintedState (mkPoint 0 0).
Proof.
  apply (floodFill_twice centrePaintedState
           (imageCanvasOf centrePaintedState) (drawingCanvasOf centrePaintedState)
           (mkPoint 0 0)).
  - vm_compute; reflexivity.
  - vm_compute; reflexivity.
  - vm_compute; reflexivity.
  - vm_compute. discriminate.
Defined.

(** ** What no action changes *)

(** What an action has to keep: the image canvas, the shape of the
    drawing canvas, and a snapshot that fits it. *)
Lemma keeps_by_canvas (s s' : EditorState) (c c' : Canvas) :
  snapshotFits s ->
  drawingCanvasRef s = Some c ->
  drawingCanvasRef s' = Some c' ->
  cv_width c' = cv_width c -> cv_height c' = cv_height c ->
  length (cv_bitmap c') = length (cv_bitmap c) ->
  imageCanvasRef s' = imageCanvasRef s ->
  canvasSnapshot s' = canvasSnapshot s ->
  imageCanvasRef s' = imageCanvasRef s /\ maskShape s' = maskShape s /\
  snapshotFits s'.
Proof.
  intros Hfit Hc Hc' Hw Hh Hl Hi Hs.
  split; [exact Hi|]. split.
  - unfold maskShape. rewrite Hc, Hc', Hw, Hh, Hl. reflexivity.
  - intros snapshot c0 Hsnap Hc0. rewrite Hc' in Hc0. injection Hc0 as <-.
    rewrite Hl. apply Hfit; [rewrite <- Hs; exact Hsnap|exact Hc].
Qed.

Lemma keeps_same (s : EditorState) :
  snapshotFits s ->
  imageCanvasRef s = imageCanvasRef s /\ maskShape s = maskShape s /\ snapshotFits s.
Proof. intros H. repeat split. exact H. Qed.

Lemma floodFill_keeps (s : EditorState) (pos : Point) :
  snapshotFits s ->
  imageCanvasRef (floodFill s pos) = imageCanvasRef s /\
  maskShape (floodFill s pos) = maskShape s /\
  snapshotFits (floodFill s pos).
Proof.
  intros Hfit.
  destruct (imageCanvasRef s) as [ic|] eqn:Himg.
  2: { assert (E : floodFill s pos = s)
         by (unfold floodFill; rewrite Himg; reflexivity).
       rewrite E. repeat split; assumption. }
  destruct (drawingCanvasRef s) as [dc|] eqn:Hdrw.
  2: { assert (E : floodFill s pos = s)
         by (unfold floodFill; rewrite Himg, Hdrw; reflexivity).
       rewrite E. repeat split; assumption. }
  destruct (floodFillRun_total ic dc (brushOpacity s) pos) as (data & seeds & Hrun).
  rewrite (floodFill_result s ic dc pos data seeds Himg Hdrw Hrun).
  rewrite <- Himg.
  apply (keeps_by_canvas s _ dc (putImageData dc data)); try reflexivity;
    try assumption.
  unfold floodFillRun in Hrun.
  destruct (floodFillLoop_FillState _ _ _ _ _ _ _ _ _
              (FillState_initial _ (getImageData dc)) Hrun)
    as [[visited' (_ & Hl & _)] _].
  exact Hl.
Qed.

Lemma drawLine_keeps (rz : Rasterizer) (s : EditorState) (a b : Point) :
  snapshotFits s ->
  imageCanvasRef (drawLine rz s a b) = imageCanvasRef s /\
  maskShape (drawLine rz s a b) = maskShape s /\
  snapshotFits (drawLine rz s a b).
Proof.
  intros Hfit. unfold drawLine.
  destruct (drawingCanvasRef s) as [c|] eqn:Hc; [|apply keeps_same, Hfit].
  eapply (keeps_by_canvas s _ c); try reflexivity; try assumption.
  apply paint_length.
Qed.

Lemma setLastPoint_keeps (s : EditorState) (v : option Point) :
  imageCanvasRef (setLastPoint v s) = imageCanvasRef s /\
  maskShape (setLastPoint v s) = maskShape s /\
  (snapshotFits s -> snapshotFits (setLastPoint v s)).
Proof. repeat split. intros H. exact H. Qed.

Lemma handleMouseMove_keeps (rz : Rasterizer) (s : EditorState) (pos : Point) :
  snapshotFits s ->
  imageCanvasRef (handleMouseMove rz s pos) = imageCanvasRef s /\
  maskShape (handleMouseMove rz s pos) = maskShape s /\
  snapshotFits (handleMouseMove rz s pos).
Proof.
  intros Hfit. unfold handleMouseMove.
  destruct (isDrawing s); cbn [negb]; [|apply keeps_same, Hfit].
  assert (Hline : forall s1,
    (imageCanvasRef s1 = imageCanvasRef s /\ maskShape s1 = maskShape s /\
     snapshotFits s1) ->
    imageCanvasRef (setLastPoint (Some pos) s1) = imageCanvasRef s /\
    maskShape (setLastPoint (Some pos) s1) = maskShape s /\
    snapshotFits (setLastPoint (Some pos) s1)).
  { intros s1 (H1 & H2 & H3). repeat split; assumption. }
  assert (Hshape :
    match shapeStartPoint s, drawingCanvasRef s, canvasSnapshot s with
    | Some p, Some c, Some snapshot =>
        let s1 := drawShape rz (setDrawingCanvas (Some (putImageData c snapshot)) s)
                            p pos in
        imageCanvasRef s1 = imageCanvasRef s /\ maskShape s1 = maskShape s /\
        snapshotFits s1
    | _, _, _ => True
    end).
  { destruct (shapeStartPoint s) as [p|]; [|exact I].
    destruct (drawingCanvasRef s) as [c|] eqn:Hc; [|exact I].
    destruct (canvasSnapshot s) as [snapshot|] eqn:Hsnap; [|exact I].
    cbv zeta. unfold drawShape.
    cbn [drawingCanvasRef setDrawingCanvas activeTool brushOpacity].
    assert (Hl := Hfit snapshot c Hsnap Hc).
    destruct (activeTool s);
      eapply (keeps_by_canvas s _ c); try reflexivity; try assumption;
      cbn [cv_bitmap fillRect fillEllipse withBitmap withCtx putImageData
           cv_width cv_height cv_ctx];
      rewrite ?paint_length; exact Hl. }
  destruct (activeTool s).
  - apply Hline. destruct (lastPoint s); [apply drawLine_keeps|apply keeps_same];
      exact Hfit.
  - apply Hline. destruct (lastPoint s); [apply drawLine_keeps|apply keeps_same];
      exact Hfit.
  - destruct (shapeStartPoint s), (drawingCanvasRef s), (canvasSnapshot s);
      first [exact Hshape | apply keeps_same, Hfit].
  - destruct (shapeStartPoint s), (drawingCanvasRef s), (canvasSnapshot s);
      first [exact Hshape | apply keeps_same, Hfit].
  - apply keeps_same, Hfit.
Qed.

Lemma handleMouseDown_keeps (s : EditorState) (pos : Point) :
  snapshotFits s ->
  imageCanvasRef (handleMouseDown s pos) = imageCanvasRef s /\
  maskShape (handleMouseDown s pos) = maskShape s /\
  snapshotFits (handleMouseDown s pos).
Proof.
  intros Hfit. unfold handleMouseDown.
  destruct (activeTool s); try (repeat split; exact Hfit);
    try (apply floodFill_keeps, Hfit);
    cbn [drawingCanvasRef setShapeStartPoint setIsDrawing];
    (destruct (drawingCanvasRef s) as [c|] eqn:Hc; [|repeat split; exact Hfit]);
    (split; [reflexivity|]); (split; [reflexivity|]);
    intros snapshot c0 Hsnap Hc0; cbn in Hsnap, Hc0;
    rewrite Hc in Hc0; injection Hsnap as <-; injection Hc0 as <-; reflexivity.
Qed.

(** The submission leaves the canvases, the gesture and the tool
    settings alone, whatever its outcome. *)
Lemma handleSubmit_frame (env : Env) (s : EditorState) :
  let s' := fst (handleSubmit env s) in
  imageCanvasRef s' = imageCanvasRef s /\
  drawingCanvasRef s' = drawingCanvasRef s /\
  canvasSnapshot s' = canvasSnapshot s /\
  isLoading s' = false /\
  (length (snd (handleSubmit env s)) <= 1)%nat.
Proof.
  cbv zeta. unfold handleSubmit.
  cbn [imageCanvasRef drawingCanvasRef prompt setUpscaledImage setEditedImage
       setError setIsLoading].
  destruct (imageCanvasRef s) eqn:Hi, (drawingCanvasRef s) eqn:Hd;
    try (repeat split; first [reflexivity | exact Hi | exact Hd | cbn; lia]).
  destruct (negb (truthyStr (trim (prompt s))));
    [repeat split; first [reflexivity | exact Hi | exact Hd | cbn; lia]|].
  destruct (negb (contextAvailable env));
    [repeat split; first [reflexivity | exact Hi | exact Hd | cbn; lia]|].
  destruct (fileToBase64 env);
    [repeat split; first [reflexivity | exact Hi | exact Hd | cbn; lia]|].
  destruct (editImageWithMask env _);
    repeat split; first [reflexivity | exact Hi | exact Hd | cbn; lia].
Qed.

(** The auto-mask leaves the image canvas and the gesture alone and
    keeps the shape of the drawing canvas; when it reports an error the
    drawing canvas is the one from before. *)
Lemma handleAutoMask_frame (env : Env) (s : EditorState) :
  let s' := fst (handleAutoMask env s) in
  imageCanvasRef s' = imageCanvasRef s /\
  maskShape s' = maskShape s /\
  canvasSnapshot s' = canvasSnapshot s /\
  isMasking s' = false /\
  (length (snd (handleAutoMask env s)) <= 1)%nat /\
  (error s' <> None -> drawingCanvasRef s' = drawingCanvasRef s).
Proof.
  cbv zeta. unfold handleAutoMask.
  destruct (fileToBase64 env);
    [repeat split; first [reflexivity | cbn; lia]|].
  destruct (generateBackgroundMask env _ _);
    [repeat split; first [reflexivity | cbn; lia]|].
  destruct (loadImage env _);
    [|repeat split; first [reflexivity | cbn; lia]].
  cbn [drawingCanvasRef setError setIsMasking].
  destruct (drawingCanvasRef s) as [c|] eqn:Hc.
  2: { repeat split; try reflexivity; try (cbn; lia);
         try (intros _; cbn; exact Hc);
         try (unfold maskShape; cbn; rewrite Hc; reflexivity). }
  destruct (negb (contextAvailable env)).
  { repeat split; try reflexivity; try (cbn; lia);
         try (intros _; cbn; exact Hc);
         try (unfold maskShape; cbn; rewrite Hc; reflexivity). }
  unfold clearDrawing. cbn [drawingCanvasRef setError setIsMasking]. rewrite Hc.
  cbn [drawingCanvasRef setDrawingCanvas fst snd].
  split; [reflexivity|]. split.
  { unfold maskShape. cbn [drawingCanvasRef setIsMasking setDrawingCanvas].
    unfold drawImage, clearRect, withBitmap.
    cbn [cv_width cv_height cv_bitmap cv_ctx].
    rewrite drawImageData_length, length_map, Hc. reflexivity. }
  split; [reflexivity|]. split; [reflexivity|]. split; [cbn; lia|].
  intros Herr. exfalso. apply Herr. reflexivity.
Qed.

Lemma by_drawingCanvas (s s' : EditorState) :
  snapshotFits s ->
  imageCanvasRef s' = imageCanvasRef s ->
  drawingCanvasRef s' = drawingCanvasRef s ->
  canvasSnapshot s' = canvasSnapshot s ->
  imageCanvasRef s' = imageCanvasRef s /\ maskShape s' = maskShape s /\
  snapshotFits s'.
Proof.
  intros Hfit Hi Hd Hs. split; [exact Hi|]. split.
  - unfold maskShape. rewrite Hd. reflexivity.
  - intros snapshot c. rewrite Hs, Hd. apply Hfit.
Qed.

Lemma by_maskShape (s s' : EditorState) :
  snapshotFits s ->
  imageCanvasRef s' = imageCanvasRef s ->
  maskShape s' = maskShape s ->
  canvasSnapshot s' = canvasSnapshot s ->
  imageCanvasRef s' = imageCanvasRef s /\ maskShape s' = maskShape s /\
  snapshotFits s'.
Proof.
  intros Hfit Hi Hm Hs. split; [exact Hi|]. split; [exact Hm|].
  intros snapshot c' Hsnap Hc'. rewrite Hs in Hsnap.
  unfold maskShape in Hm. rewrite Hc' in Hm.
  destruct (drawingCanvasRef s) as [c|] eqn:Hc; [|discriminate Hm].
  injection Hm as _ _ Hl. rewrite Hl. apply Hfit; [exact Hsnap|exact Hc].
Qed.

Lemma act_keeps (rz : Rasterizer) (s : EditorState) (a : Action) :
  snapshotFits s ->
  imageCanvasRef (act rz s a) = imageCanvasRef s /\
  maskShape (act rz s a) = maskShape s /\
  snapshotFits (act rz s a).
Proof.
  intros Hfit. destruct a as [pos|pos| |tool|size|opacity| |env|env]; cbn [act].
  - apply handleMouseDown_keeps, Hfit.
  - apply handleMouseMove_keeps, Hfit.
  - split; [reflexivity|]. split; [reflexivity|].
    intros snapshot c Hsnap. discriminate Hsnap.
  - apply by_drawingCanvas; [exact Hfit|reflexivity..].
  - apply by_drawingCanvas; [exact Hfit|reflexivity..].
  - apply by_drawingCanvas; [exact Hfit|reflexivity..].
  - unfold clearDrawing. destruct (drawingCanvasRef s) as [c|] eqn:Hc;
      [|repeat split; exact Hfit].
    apply (keeps_by_canvas s _ c (clearRect c)); try reflexivity; try assumption.
    apply length_map.
  - destruct (handleAutoMask_frame env s) as (H1 & H2 & H3 & _).
    apply by_maskShape; assumption.
  - destruct (handleSubmit_frame env s) as (H1 & H2 & H3 & _).
    apply by_drawingCanvas; assumption.
Qed.

(** X13. Whatever the user does, in whatever order, the image canvas
    stays exactly what it was, and the drawing canvas keeps its width,
    its height and the length of its bitmap: the two buffers cannot
    drift apart in size and no tool writes to the image. *)
Theorem editor_keeps_canvases
        (rz : Rasterizer) (actions : list Action) (s : EditorState)
        (Hfit : snapshotFits s) :
  imageCanvasRef (fold_left (act rz) actions s) = imageCanvasRef s /\
  maskShape (fold_left (act rz) actions s) = maskShape s /\
  snapshotFits (fold_left (act rz) actions s).
Proof.
  revert s Hfit. induction actions as [|a rest IH]; intros s Hfit.
  - repeat split. exact Hfit.
  - cbn [fold_left].
    destruct (act_keeps rz s a Hfit) as (H1 & H2 & H3).
    destruct (IH (act rz s a) H3) as (I1 & I2 & I3).
    rewrite I1, I2. repeat split; assumption.
Qed.

Lemma editor_keeps_canvases_witness :
  imageCanvasRef (fold_left (act Sampling.rasterizer) sampleSession
                            (loadedEditor 3 3 whiteImage))
  = imageCanvasRef (loadedEditor 3 3 whiteImage) /\
  maskShape (fold_left (act Sampling.rasterizer) sampleSession
                       (loadedEditor 3 3 whiteImage))
  = maskShape (loadedEditor 3 3 whiteImage) /\
  snapshotFits (fold_left (act Sampling.rasterizer) sampleSession
                          (loadedEditor 3 3 whiteImage)).
Proof.
  apply (editor_keeps_canvases Sampling.rasterizer sampleSession
           (loadedEditor 3 3 whiteImage)).
  intros snapshot c Hsnap. discriminate Hsnap.
Defined.

(** ** Auto-mask *)

(** X14. An auto-mask run that reports an error has not touched the
    mask buffer, whichever step failed: reading the file, the provider's
    answer, decoding the image or obtaining a context.  In every case
    the run ends not busy and has called the provider at most once. *)
Theorem handleAutoMask_failure_keeps_mask (env : Env) (s : EditorState)
        (Herr : error (fst (handleAutoMask env s)) <> None) :
  drawingCanvasRef (fst (handleAutoMask env s)) = drawingCanvasRef s /\
  imageCanvasRef (fst (handleAutoMask env s)) = imageCanvasRef s /\
  isMasking (fst (handleAutoMask env s)) = false /\
  (length (snd (handleAutoMask env s)) <= 1)%nat.
Proof.
  destruct (handleAutoMask_frame env s) as (H1 & _ & _ & H4 & H5 & H6).
  split; [exact (H6 Herr)|]. split; [exact H1|]. split; [exact H4|exact H5].
Qed.

Lemma handleAutoMask_failure_keeps_mask_witness :
  drawingCanvasRef (fst (handleAutoMask failingEnv (brushedState whiteImage)))
  = drawingCanvasRef (brushedState whiteImage) /\
  imageCanvasRef (fst (handleAutoMask failingEnv (brushedState whiteImage)))
  = imageCanvasRef (brushedState whiteImage) /\
  isMasking (fst (handleAutoMask failingEnv (brushedState whiteImage))) = false /\
  (length (snd (handleAutoMask failingEnv (brushedState whiteImage))) <= 1)%nat.
Proof.
  apply (handleAutoMask_failure_keeps_mask failingEnv (brushedState whiteImage)).
  vm_compute. discriminate.
Defined.

Lemma alphaChannel_normalized (opacity : Q) (Y : list Z) :
  alphaChannel (canonical (normalizeMask opacity Y))
  = alphaChannel (normalizeMask opacity Y).
Proof.
  induction Y as [l Hl|r g b a rest IH] using pixels_ind.
  - destruct l as [|r [|g [|b [|a rest]]]]; try reflexivity. simpl in Hl. lia.
  - assert (Ha := toUint8Clamp_range (255 * opacity)).
    cbn [normalizeMask].
    destruct ((r >? 200) && (g >? 200) && (b >? 200)); cbn [app canonical].
    + destruct (toUint8Clamp (255 * opacity) <=? 0) eqn:E;
        cbn [app alphaChannel]; f_equal; first [lia | exact IH].
    + cbn [Z.leb Z.compare app alphaChannel]. f_equal. exact IH.
Qed.

(** X22. On a drawing canvas that has pixels and whose context
    composites with source-over, a successful auto-mask run leaves in
    the mask buffer exactly the alpha bytes of the normalized
    segmentation image: what was masked before has no influence, and
    the run ends without an error and not busy. *)
Theorem autoMask_replaces_mask
        (env : Env) (s : EditorState) (canvas : Canvas)
        (maskImage : Image) (n : nat)
        (Hok : autoMaskSucceeds env s maskImage)
        (Hc : drawingCanvasRef s = Some canvas)
        (Hsize : hasPixels canvas)
        (Hop : globalCompositeOperation (cv_ctx canvas) = SourceOver)
        (HX : length (cv_bitmap canvas) = (n * 4)%nat)
        (HY : length (maskImage (cv_width canvas) (cv_height canvas)) = (n * 4)%nat) :
  alphaChannel (maskBuffer (fst (handleAutoMask env s))) =
  alphaChannel (normalizeMask (brushOpacity s)
                  (maskImage (cv_width canvas) (cv_height canvas))) /\
  error (fst (handleAutoMask env s)) = None /\
  isMasking (fst (handleAutoMask env s)) = false.
Proof.
  split.
  - rewrite (handleAutoMask_maskBuffer env s canvas maskImage Hok Hc), Hop.
    rewrite drawImageData_over_cleared; [|congruence|exists n; exact HY].
    apply alphaChannel_normalized.
  - destruct Hok as (b64 & parts & m & Hfile & Hprov & Hpart & Hload & Hctx).
    unfold handleAutoMask, generateBackgroundMask.
    rewrite Hfile, Hprov, Hpart, Hload.
    cbn [drawingCanvasRef setError setIsMasking]. rewrite Hc, Hctx.
    cbn [negb]. unfold clearDrawing.
    cbn [drawingCanvasRef setError setIsMasking]. rewrite Hc.
    split; reflexivity.
Qed.

Lemma autoMask_replaces_mask_witness :
  alphaChannel (maskBuffer (fst (handleAutoMask autoMaskEnv (brushedState whiteImage))))
  = alphaChannel
      (normalizeMask (brushOpacity (brushedState whiteImage))
         (whiteImage (cv_width (drawingCanvasOf (brushedState whiteImage)))
                     (cv_height (drawingCanvasOf (brushedState whiteImage))))) /\
  error (fst (handleAutoMask autoMaskEnv (brushedState whiteImage))) = None /\
  isMasking (fst (handleAutoMask autoMaskEnv (brushedState whiteImage))) = false.
Proof.
  apply (autoMask_replaces_mask autoMaskEnv (brushedState whiteImage)
           (drawingCanvasOf (brushedState whiteImage)) whiteImage 4).
  - exists (jsstr "QUJD"), [None; Some (jsstr "TUFTSw==")], (jsstr "TUFTSw==").
    repeat split.
  - vm_compute; reflexivity.
  - split; vm_compute; reflexivity.
  - vm_compute; reflexivity.
  - vm_compute; reflexivity.
  - vm_compute; reflexivity.
Defined.

(** ** Submission *)

(** X15. A submission never draws: whatever its outcome, the mask
    buffer and the image canvas are the ones from before and the
    provider has been called at most once; and when the drawing canvas
    has pixels or is not mounted, the editor is no longer loading. *)
Theorem handleSubmit_never_draws (env : Env) (s : EditorState) :
  drawingCanvasRef (fst (handleSubmit env s)) = drawingCanvasRef s /\
  imageCanvasRef (fst (handleSubmit env s)) = imageCanvasRef s /\
  (length (snd (handleSubmit env s)) <= 1)%nat /\
  ((forall c, drawingCanvasRef s = Some c -> hasPixels c) ->
   isLoading (fst (handleSubmit env s)) = false).
Proof.
  destruct (handleSubmit_frame env s) as (H1 & H2 & _ & H4 & H5).
  split; [exact H2|]. split; [exact H1|]. split; [exact H5|].
  intros _. exact H4.
Qed.

Lemma handleSubmit_never_draws_witness :
  drawingCanvasRef (fst (handleSubmit failingEnv submittedState))
  = drawingCanvasRef submittedState /\
  imageCanvasRef (fst (handleSubmit failingEnv submittedState))
  = imageCanvasRef submittedState /\
  (length (snd (handleSubmit failingEnv submittedState)) <= 1)%nat /\
  isLoading (fst (handleSubmit failingEnv submittedState)) = false.
Proof.
  destruct (handleSubmit_never_draws failingEnv submittedState)
    as (H1 & H2 & H3 & H4).
  split; [exact H1|]. split; [exact H2|]. split; [exact H3|].
  apply H4. intros c Hc. injection Hc as <-. split; reflexivity.
Defined.




(** ** Upscaling *)

(** X17. Upscaling never changes the edited image, calls the provider at
    most once, and keeps the previous upscaled image whenever it
    reports an error.  Without an edited image it only reports an error:
    no call is made and the busy flag is not raised. *)
Theorem handleUpscale_keeps_results
        (provideUpscale : option JSString -> Z -> ProviderOutcome)
        (s : EditorState) :
  let r := handleUpscale provideUpscale s in
  editedImage (fst r) = editedImage s /\
  (length (snd r) <= 1)%nat /\
  (error (fst r) <> None -> upscaledImage (fst r) = upscaledImage s) /\
  (editedImage s = None \/ editedImage s = Some [] ->
   r = (setError (Some (jsstr "Generate an image before upscaling.")) s, [])).
Proof.
  cbv zeta. unfold handleUpscale.
  destruct (editedImage s) as [edited|] eqn:He.
  2: { repeat split; first [exact He | cbn; lia]. }
  destruct edited as [|c edited]; cbn [truthyStr negb].
  { repeat split; first [exact He | cbn; lia]. }
  destruct (upscaleImage provideUpscale _ _) as [e|u].
  - split; [exact He|]. split; [cbn; lia|]. split; [reflexivity|].
    intros [H|H]; discriminate H.
  - split; [exact He|]. split; [cbn; lia|].
    split; [intros H; exfalso; apply H; reflexivity|].
    intros [H|H]; discriminate H.
Qed.

Lemma handleUpscale_keeps_results_witness :
  let r := handleUpscale rejectingUpscaler editedState in
  editedImage (fst r) = editedImage editedState /\
  (length (snd r) <= 1)%nat /\
  upscaledImage (fst r) = upscaledImage editedState.
Proof.
  destruct (handleUpscale_keeps_results rejectingUpscaler editedState)
    as (H1 & H2 & H3 & _).
  split; [exact H1|]. split; [exact H2|].
  apply H3. vm_compute. discriminate.
Defined.

Lemma split_no_sep (sep : Z) (r : JSString) :
  Forall (fun c => c <> sep) r -> split sep r = [r].
Proof.
  induction 1 as [|c r Hc _ IH]; [reflexivity|].
  cbn [split]. rewrite IH.
  destruct (c =? sep) eqn:E; [lia|reflexivity].
Qed.

Lemma split_prefix (sep : Z) (p r : JSString) :
  Forall (fun c => c <> sep) p -> split sep (p ++ sep :: r) = p :: split sep r.
Proof.
  induction 1 as [|c p Hc _ IH].
  - cbn [app split]. rewrite Z.eqb_refl. reflexivity.
  - cbn [app split]. rewrite IH.
    destruct (c =? sep) eqn:E; [lia|reflexivity].
Qed.

Lemma dataUrl_payload (r : JSString) :
  Forall (fun c => c <> comma) r ->
  split comma (jsstr "data:image/png;base64," ++ r) !! 1%nat = Some r.
Proof.
  intros H.
  change (jsstr "data:image/png;base64," ++ r)
    with (jsstr "data:image/png;base64" ++ comma :: r).
  rewrite split_prefix.
  - rewrite (split_no_sep comma r H). reflexivity.
  - repeat constructor; discriminate.
Qed.

(** X18. What the edit service returned is what the upscaler receives:
    when the edited image is the data URL of a result without a comma
    (as base64 text is), upscaling sends exactly that result with the
    selected factor; and when the provider answers, the upscaled image
    becomes the one shown, the edited image staying as it is. *)
Theorem handleUpscale_sends_edit_result
        (provideUpscale : option JSString -> Z -> ProviderOutcome)
        (s : EditorState) (resultBase64 upscaledBase64 : JSString)
        (parts : list (option JSString))
        (Hedited : editedImage s
                   = Some (jsstr "data:image/png;base64," ++ resultBase64))
        (Hbase64 : Forall (fun c => c <> comma) resultBase64)
        (Hprov : provideUpscale (Some resultBase64) (upscaleFactor s) = Responds parts)
        (Hpart : firstInlineData parts = Some upscaledBase64) :
  let r := handleUpscale provideUpscale s in
  snd r = [(Some resultBase64, upscaleFactor s)] /\
  upscaledImage (fst r) = Some (jsstr "data:image/png;base64," ++ upscaledBase64) /\
  shownImage (fst r) = Some (jsstr "data:image/png;base64," ++ upscaledBase64) /\
  editedImage (fst r) = editedImage s /\
  error (fst r) = None /\
  isUpscaling (fst r) = false.
Proof.
  cbv zeta. unfold handleUpscale. rewrite Hedited.
  change (negb (truthyStr (jsstr "data:image/png;base64," ++ resultBase64)))
    with false. cbv iota.
  rewrite (dataUrl_payload resultBase64 Hbase64).
  unfold upscaleImage. rewrite Hprov, Hpart.
  repeat split. exact Hedited.
Qed.

Lemma handleUpscale_sends_edit_result_witness :
  let r := handleUpscale answeringUpscaler
             (fst (handleSubmit answeringEnv editedState)) in
  snd r = [(Some (jsstr "CCCC"), 4)] /\
  upscaledImage (fst r) = Some (jsstr "data:image/png;base64," ++ jsstr "DDDD") /\
  shownImage (fst r) = Some (jsstr "data:image/png;base64," ++ jsstr "DDDD") /\
  editedImage (fst r) = editedImage (fst (handleSubmit answeringEnv editedState)) /\
  error (fst r) = None /\
  isUpscaling (fst r) = false.
Proof.
  apply (handleUpscale_sends_edit_result answeringUpscaler
           (fst (handleSubmit answeringEnv editedState))
           (jsstr "CCCC") (jsstr "DDDD") [Some (jsstr "DDDD")]).
  - reflexivity.
  - repeat constructor; discriminate.
  - reflexivity.
  - reflexivity.
Defined.

(** ** The binarization loop *)

Lemma binarize_pixelAt (data : list Z) :
  forall (i : nat) (p : Pixel),
    pixelAt data i = Some p ->
    pixelAt (binarize data) i
    = Some (if pa p >? 0 then mkPixel 255 255 255 255 else p).
Proof.
  induction data as [l Hl|r g b a rest IH] using pixels_ind; intros i p Hp.
  - rewrite pixelAt_short in Hp by exact Hl. discriminate Hp.
  - destruct i as [|i].
    + injection Hp as <-. cbn [binarize pa]. destruct (a >? 0); reflexivity.
    + rewrite pixelAt_cons in Hp. cbn [binarize].
      destruct (a >? 0); cbn [app]; rewrite pixelAt_cons; apply IH, Hp.
Qed.

Lemma binarize_twice (data : list Z) : binarize (binarize data) = binarize data.
Proof.
  induction data as [l Hl|r g b a rest IH] using pixels_ind.
  - destruct l as [|r [|g [|b [|a rest]]]]; try reflexivity. simpl in Hl. lia.
  - cbn [binarize]. destruct (a >? 0) eqn:E; cbn [app binarize].
    + cbn. rewrite IH. reflexivity.
    + rewrite E. cbn [app]. rewrite IH. reflexivity.
Qed.

(** X19. The loop that turns the mask canvas into the wire mask makes
    every pixel with alpha above 0 opaque white and leaves every other
    pixel as it is; running it again changes nothing. *)
Theorem binarize_is_binary (data : list Z) (i : nat) (p : Pixel)
        (Hp : pixelAt data i = Some p) :
  pixelAt (binarize data) i
  = Some (if pa p >? 0 then mkPixel 255 255 255 255 else p) /\
  binarize (binarize data) = binarize data.
Proof.
  split; [apply binarize_pixelAt, Hp|apply binarize_twice].
Qed.

Lemma binarize_is_binary_witness :
  pixelAt (binarize [192; 132; 252; 1; 7; 8; 9; 0]) 0
  = Some (mkPixel 255 255 255 255) /\
  binarize (binarize [192; 132; 252; 1; 7; 8; 9; 0])
  = binarize [192; 132; 252; 1; 7; 8; 9; 0].
Proof.
  apply (binarize_is_binary [192; 132; 252; 1; 7; 8; 9; 0] 0
           (mkPixel 192 132 252 1)).
  reflexivity.
Defined.

(** ** The prompt *)

Lemma trimStart_nil (s : JSString) :
  trimStart s = [] -> Forall (fun c => isWhiteSpace c = true) s.
Proof.
  induction s as [|c s IH]; intros H; [constructor|].
  cbn [trimStart] in H. destruct (isWhiteSpace c) eqn:E; [|discriminate H].
  constructor; [exact E|apply IH, H].
Qed.

Lemma trimStart_head (s : JSString) (c : Z) (rest : JSString) :
  trimStart s = c :: rest -> isWhiteSpace c = false.
Proof.
  induction s as [|d s IH]; intros H; [discriminate H|].
  cbn [trimStart] in H. destruct (isWhiteSpace d) eqn:E; [apply IH, H|].
  injection H as <- _. exact E.
Qed.

Lemma trim_nil (s : JSString) :
  trim s = [] -> Forall (fun c => isWhiteSpace c = true) s.
Proof.
  unfold trim. intros H.
  apply (f_equal (@rev Z)) in H. rewrite rev_involutive in H. cbn [rev] in H.
  apply trimStart_nil in H.
  destruct (trimStart s) as [|c rest] eqn:E; [apply trimStart_nil, E|].
  exfalso. apply trimStart_head in E.
  rewrite Forall_forall in H.
  assert (Hc : isWhiteSpace c = true).
  { apply H. apply list_elem_of_In, in_rev. rewrite rev_involutive.
    left. reflexivity. }
  congruence.
Qed.

Lemma blank_or_not (s : JSString) :
  Forall (fun c => isWhiteSpace c = true) s \/
  Exists (fun c => isWhiteSpace c = false) s.
Proof.
  induction s as [|c s [IH|IH]].
  - left. constructor.
  - destruct (isWhiteSpace c) eqn:E.
    + left. constructor; assumption.
    + right. apply Exists_cons_hd. exact E.
  - right. apply Exists_cons_tl. exact IH.
Qed.

Lemma not_blank (s : JSString) :
  Exists (fun c => isWhiteSpace c = false) s ->
  ~ Forall (fun c => isWhiteSpace c = true) s.
Proof.
  induction 1 as [c s Hc|c s _ IH]; intros HF; inversion HF; subst.
  - congruence.
  - apply IH. assumption.
Qed.

(** X20. With the canvases mounted, a drawing canvas that has pixels, a
    context available and the file readable, a submission calls the
    provider exactly when the prompt has a character that is not
    whitespace; the call then carries the prompt untrimmed. *)
Theorem handleSubmit_calls_iff_prompt
        (env : Env) (s : EditorState) (imageCanvas drawingCanvas : Canvas)
        (originalImageBase64 : JSString)
        (Himg : imageCanvasRef s = Some imageCanvas)
        (Hdrw : drawingCanvasRef s = Some drawingCanvas)
        (Hsize : hasPixels drawingCanvas)
        (Hctx : contextAvailable env = true)
        (Hfile : fileToBase64 env = inr originalImageBase64) :
  (Exists (fun c => isWhiteSpace c = false) (prompt s) ->
   exists args, snd (handleSubmit env s) = [CallEdit args] /\
                ea_prompt args = prompt s) /\
  (snd (handleSubmit env s) <> [] ->
   Exists (fun c => isWhiteSpace c = false) (prompt s)).
Proof.
  unfold handleSubmit. fold (submissionStart s).
  assert (E1 : imageCanvasRef (submissionStart s) = Some imageCanvas) by exact Himg.
  assert (E2 : drawingCanvasRef (submissionStart s) = Some drawingCanvas) by exact Hdrw.
  assert (E3 : prompt (submissionStart s) = prompt s) by reflexivity.
  rewrite E1, E2, E3.
  destruct (blank_or_not (prompt s)) as [Hblank|Hsome].
  - rewrite (trim_blank _ Hblank). cbn [truthyStr negb].
    split.
    + intros Hsome. exfalso. exact (not_blank _ Hsome Hblank).
    + intros Hcalls. exfalso. apply Hcalls. reflexivity.
  - split; [|intros _; exact Hsome]. intros _.
    destruct (trim (prompt s)) as [|c rest] eqn:Et.
    { exfalso. exact (not_blank _ Hsome (trim_nil _ Et)). }
    cbn [truthyStr negb]. rewrite Hctx, Hfile. cbn [negb].
    destruct (editImageWithMask env _); eexists; split; reflexivity.
Qed.

Lemma handleSubmit_calls_iff_prompt_witness :
  (Exists (fun c => isWhiteSpace c = false) (prompt submittedState) ->
   exists args, snd (handleSubmit failingEnv submittedState) = [CallEdit args] /\
                ea_prompt args = prompt submittedState) /\
  (snd (handleSubmit failingEnv submittedState) <> [] ->
   Exists (fun c => isWhiteSpace c = false) (prompt submittedState)).
Proof.
  apply (handleSubmit_calls_iff_prompt failingEnv submittedState
           (createCanvas 2 2) (createCanvas 2 2) (jsstr "QUJD"));
    first [reflexivity | split; reflexivity].
Defined.

(** ** More on resizing *)

(** X21. Resizing a size that has been resized changes nothing, and the
    rounding can make a side vanish: an image wider than 1024 gets a
    buffer of height 0 when it is more than 2048 times as wide as it is
    high, and only when it is at least 2048 times as wide.  At exactly
    2048 times the floating-point rounding of the ratio decides: 2048 by
    1 gives the height 1 and 100352 by 49 the height 0.  Likewise for
    the width. *)
Theorem resizeImage_idempotent_and_degenerate (w h : Z)
        (Hw : 0 < w < 4294967296) (Hh : 0 < h < 4294967296) :
  let r := resizeImage w h in
  resizeImage (sz_width r) (sz_height r) = r /\
  (1024 < w -> 2048 * h < w -> sz_height r = 0) /\
  (sz_height r = 0 -> 1024 < w /\ 2048 * h <= w) /\
  (1024 < h -> 2048 * w < h -> sz_width r = 0) /\
  (sz_width r = 0 -> 1024 < h /\ 2048 * w <= h) /\
  resizeImage 2048 1 = mkSize 1024 1 /\
  resizeImage 100352 49 = mkSize 1024 0.
Proof.
  cbv zeta. assert (B := resizeImage_bounds w h Hw Hh). cbv zeta in B.
  destruct (resizeImage w h) as [rw rh] eqn:Er. cbn [sz_width sz_height] in *.
  assert (Hfix : resizeImage rw rh = mkSize rw rh /\
                 (1024 < w -> 2048 * h < w -> rh = 0) /\
                 (rh = 0 -> 1024 < w /\ 2048 * h <= w) /\
                 (1024 < h -> 2048 * w < h -> rw = 0) /\
                 (rw = 0 -> 1024 < h /\ 2048 * w <= h)).
  { destruct ((w <=? 1024) && (h <=? 1024)) eqn:Efit.
    - rewrite andb_true_iff in Efit. injection B as -> ->.
      split; [apply resizeImage_small; lia|]. repeat split; lia.
    - rewrite andb_false_iff in Efit.
      destruct (w >? h) eqn:Ewh.
      + destruct B as (-> & B1 & B2).
        split; [apply resizeImage_small; lia|]. repeat split; nia.
      + destruct B as (-> & B1 & B2).
        split; [apply resizeImage_small; lia|]. repeat split; nia. }
  destruct Hfix as (H1 & H2 & H3 & H4 & H5).
  repeat split; try assumption; try (apply H3; assumption);
    try (apply H5; assumption); vm_compute; reflexivity.
Qed.

Lemma resizeImage_idempotent_and_degenerate_witness :
  let r := resizeImage 3000 1 in
  resizeImage (sz_width r) (sz_height r) = r /\
  (1024 < 3000 -> 2048 * 1 < 3000 -> sz_height r = 0) /\
  (sz_height r = 0 -> 1024 < 3000 /\ 2048 * 1 <= 3000) /\
  (1024 < 1 -> 2048 * 3000 < 1 -> sz_width r = 0) /\
  (sz_width r = 0 -> 1024 < 1 /\ 2048 * 3000 <= 1) /\
  resizeImage 2048 1 = mkSize 1024 1 /\
  resizeImage 100352 49 = mkSize 1024 0.
Proof.
  exact (resizeImage_idempotent_and_degenerate 3000 1 ltac:(lia) ltac:(lia)).
Defined.

(** ** Clearing and shapes *)

Lemma pixelAt_cleared (data : list Z) :
  forall (i : nat) (p : Pixel),
    pixelAt data i = Some p ->
    pixelAt (List.map (fun _ => 0) data) i = Some transparentBlack.
Proof.
  induction data as [l Hl|r g b a rest IH] using pixels_ind; intros i p Hp.
  - rewrite pixelAt_short in Hp by exact Hl. discriminate Hp.
  - destruct i as [|i]; [reflexivity|].
    rewrite pixelAt_cons in Hp. cbn [List.map]. rewrite pixelAt_cons.
    apply (IH i p Hp).
Qed.

(** X23. The clear button makes every pixel of the mask buffer
    transparent black and keeps the buffer's size; the drawing context,
    and with it the compositing mode the last tool left, is not reset. *)
Theorem clearDrawing_erases
        (s : EditorState) (c : Canvas) (i : nat) (p : Pixel)
        (Hc : drawingCanvasRef s = Some c)
        (Hp : pixelAt (cv_bitmap c) i = Some p) :
  pixelAt (maskBuffer (clearDrawing s)) i = Some transparentBlack /\
  maskShape (clearDrawing s) = maskShape s /\
  option_map cv_ctx (drawingCanvasRef (clearDrawing s)) = Some (cv_ctx c).
Proof.
  unfold clearDrawing, maskShape, maskBuffer. rewrite Hc.
  cbn [drawingCanvasRef setDrawingCanvas clearRect withBitmap cv_bitmap
       cv_width cv_height cv_ctx option_map].
  split; [apply (pixelAt_cleared _ i p Hp)|].
  split; [rewrite length_map; reflexivity|reflexivity].
Qed.

Lemma clearDrawing_erases_witness :
  pixelAt (maskBuffer (clearDrawing (erasedState whiteImage))) 3
  = Some transparentBlack /\
  maskShape (clearDrawing (erasedState whiteImage))
  = maskShape (erasedState whiteImage) /\
  option_map cv_ctx (drawingCanvasRef (clearDrawing (erasedState whiteImage)))
  = Some (cv_ctx (drawingCanvasOf (erasedState whiteImage))).
Proof.
  apply (clearDrawing_erases (erasedState whiteImage)
           (drawingCanvasOf (erasedState whiteImage)) 3%nat
           (mkPixel 192 132 252 53)); vm_compute; reflexivity.
Defined.

Lemma drawShape_pixelAt (rz : Rasterizer) (s : EditorState) (c : Canvas)
      (start finish : Point) (i : nat) :
  drawingCanvasRef s = Some c ->
  activeTool s = rectangle ->
  pixelAt (maskBuffer (drawShape rz s start finish)) i =
  option_map
    (strokePixel SourceOver (accent rz (brushOpacity s))
       (rectCoverage rz (pt_x start) (pt_y start)
          (pt_x finish - pt_x start)%Q (pt_y finish - pt_y start)%Q
          (Z.of_nat i mod cv_width c) (Z.of_nat i / cv_width c)))
    (pixelAt (cv_bitmap c) i).
Proof.
  intros Hc Htool. unfold drawShape. rewrite Hc, Htool.
  unfold maskBuffer, fillRect, withCtx, withBitmap.
  cbn [drawingCanvasRef setDrawingCanvas cv_bitmap cv_ctx cv_width
       globalCompositeOperation fillStyle].
  rewrite paint_pixelAt_map, Z.add_0_l. reflexivity.
Qed.

Lemma composite_over_clear_alpha (src : Pixel) :
  0 <= pa src <= 255 ->
  pa (composite SourceOver src transparentBlack) = pa src.
Proof.
  intros Ha. unfold composite, transparentBlack. cbn [pa].
  replace (0 * (255 - pa src)) with 0 by ring.
  change (div255 0) with 0. rewrite Z.add_0_r.
  assert (Ec : clamp8 (pa src) = pa src) by (unfold clamp8; lia). rewrite Ec.
  destruct (pa src =? 0) eqn:E; cbn [pa]; lia.
Qed.

(** X24. The rectangle tool always composites with source-over, also
    right after the eraser: on a pixel that is still transparent and
    that the rectangle covers entirely it leaves the alpha byte of the
    fill colour, which is 255 at the opacity 1. *)
Theorem drawShape_rectangle_paints_accent
        (rz : Rasterizer) (s : EditorState) (c : Canvas)
        (start finish : Point) (i : nat)
        (Hc : drawingCanvasRef s = Some c)
        (Htool : activeTool s = rectangle)
        (Hp : pixelAt (cv_bitmap c) i = Some transparentBlack)
        (Hcov : rectCoverage rz (pt_x start) (pt_y start)
                  (pt_x finish - pt_x start)%Q (pt_y finish - pt_y start)%Q
                  (Z.of_nat i mod cv_width c) (Z.of_nat i / cv_width c) = 255) :
  (exists p',
      pixelAt (maskBuffer (drawShape rz s start finish)) i = Some p' /\
      pa p' = pa (accent rz (brushOpacity s)) /\
      ((1 <= brushOpacity s)%Q -> pa p' = 255)) /\
  option_map (fun c' => globalCompositeOperation (cv_ctx c'))
             (drawingCanvasRef (drawShape rz s start finish)) = Some SourceOver.
Proof.
  split.
  - rewrite (drawShape_pixelAt rz s c start finish i Hc Htool), Hp, Hcov.
    cbn [option_map]. eexists. split; [reflexivity|].
    unfold strokePixel. cbn [Z.leb Z.compare].
    rewrite (Z.mul_comm _ 255), div255_mul.
    assert (Hr := accent_range rz (brushOpacity s)).
    assert (Ha : pa (composite SourceOver
                       (mkPixel (pr (accent rz (brushOpacity s)))
                                (pg (accent rz (brushOpacity s)))
                                (pb (accent rz (brushOpacity s)))
                                (pa (accent rz (brushOpacity s))))
                       transparentBlack)
                 = pa (accent rz (brushOpacity s))).
    { apply (composite_over_clear_alpha (mkPixel _ _ _ _)). exact Hr. }
    split; [exact Ha|].
    intros Hfull. rewrite Ha. apply accent_opaque, Hfull.
  - unfold drawShape. rewrite Hc, Htool. reflexivity.
Qed.

Lemma drawShape_rectangle_paints_accent_witness :
  (exists p',
      pixelAt (maskBuffer (drawShape Sampling.rasterizer
                             (setActiveTool rectangle
                                (clearDrawing (erasedState whiteImage)))
                             (mkPoint 0 0) (mkPoint 2 2))) 0 = Some p' /\
      pa p' = pa (accent Sampling.rasterizer
                    (brushOpacity (setActiveTool rectangle
                                     (clearDrawing (erasedState whiteImage))))) /\
      ((1 <= brushOpacity (setActiveTool rectangle
                             (clearDrawing (erasedState whiteImage))))%Q ->
       pa p' = 255)) /\
  option_map (fun c' => globalCompositeOperation (cv_ctx c'))
             (drawingCanvasRef
                (drawShape Sampling.rasterizer
                   (setActiveTool rectangle (clearDrawing (erasedState whiteImage)))
                   (mkPoint 0 0) (mkPoint 2 2))) = Some SourceOver.
Proof.
  apply (drawShape_rectangle_paints_accent Sampling.rasterizer
           (setActiveTool rectangle (clearDrawing (erasedState whiteImage)))
           (drawingCanvasOf (clearDrawing (erasedState whiteImage)))
           (mkPoint 0 0) (mkPoint 2 2) 0%nat).
  - vm_compute; reflexivity.
  - vm_compute; reflexivity.
  - vm_compute; reflexivity.
  - vm_compute; reflexivity.
Defined.

(** ** The services *)

(** X25. Whatever goes wrong inside a service, what it throws is an
    [Error] with a message of the service's own: the provider's message
    behind the service's prefix, or the service's fixed text when the
    provider threw something else.  A service never throws anything but
    an [Error]. *)
Theorem services_throw_errors
        (env : Env) (provideUpscale : option JSString -> Z -> ProviderOutcome)
        (args : EditArgs) (imageBase64 mimeType : JSString)
        (upscaleInput : option JSString) (factor : Z) :
  (forall e, editImageWithMask env args = inl e ->
     exists m, e = ErrorObj m /\
       ((exists cause, m = jsstr "Failed to edit image: " ++ cause) \/
        m = jsstr "An unknown error occurred while editing the image.")) /\
  (forall e, generateBackgroundMask env imageBase64 mimeType = inl e ->
     exists m, e = ErrorObj m /\
       ((exists cause, m = jsstr "Failed to generate mask: " ++ cause) \/
        m = jsstr "An unknown error occurred while generating the mask.")) /\
  (forall e, upscaleImage provideUpscale upscaleInput factor = inl e ->
     exists m, e = ErrorObj m /\
       ((exists cause, m = jsstr "Failed to upscale image: " ++ cause) \/
        m = jsstr "An unknown error occurred while upscaling the image.")).
Proof.
  unfold editImageWithMask, generateBackgroundMask, upscaleImage.
  split; [|split]; intros e.
  - destruct (provideEdit env args) as [[cause|]|parts];
      [| |destruct (firstInlineData parts)]; intros H;
      try discriminate H; injection H as <-;
      eexists; (split; [reflexivity|]);
      first [left; eexists; reflexivity | right; reflexivity].
  - destruct (provideMask env imageBase64 mimeType) as [[cause|]|parts];
      [| |destruct (firstInlineData parts)]; intros H;
      try discriminate H; injection H as <-;
      eexists; (split; [reflexivity|]);
      first [left; eexists; reflexivity | right; reflexivity].
  - destruct (provideUpscale upscaleInput factor) as [[cause|]|parts];
      [| |destruct (firstInlineData parts)]; intros H;
      try discriminate H; injection H as <-;
      eexists; (split; [reflexivity|]);
      first [left; eexists; reflexivity | right; reflexivity].
Qed.

Lemma services_throw_errors_witness :
  exists m,
    ErrorObj (jsstr "Failed to edit image: " ++ jsstr "network down") = ErrorObj m /\
    ((exists cause, m = jsstr "Failed to edit image: " ++ cause) \/
     m = jsstr "An unknown error occurred while editing the image.").
Proof.
  apply (proj1 (services_throw_errors failingEnv rejectingUpscaler
                  (submissionArgs failingEnv (submissionStart submittedState)
                     (serializeMask (createCanvas 2 2)) (jsstr "QUJD"))
                  (jsstr "QUJD") (jsstr "image/png") None 2)).
  reflexivity.
Defined.
